(** * Outlook MCP server: the e-mail search planner and the folder resolver

    A shallow embedding of [src/tools/email.ts] (with the parts of
    [src/api.ts] and [src/types.ts] it relies on) and the properties of
    the progressive search cascade, of the two boolean-filter merge
    functions and of folder resolution.

    Conventions of the embedding.
    - A JavaScript string is a [string].  [toLowerCase] and the writing
      of a number as a string are left to the JavaScript engine: they are
      the methods of the class [Engine], and the properties hold whatever
      the engine is.
    - An optional property ([from?: string]) is an [option]; the
      truthiness test [if (x)] on it is [truthy].
    - The count given to a search is a [Z].  The [maxCount] of the
      paginated client and a number among the query parameters are any
      JavaScript number, a [Js.Number]: a finite number (a rational),
      [NaN] or an infinity.
    - An [async] function is a computation in the monad [M]: it threads
      a state (the remote world and the log of the calls issued so far)
      and ends in a completion, as a JavaScript statement does: normal,
      [return v] or [throw e].  [await] is sequencing.
    - The remote is a parameter: a function that gives, for a request and
      a state of the remote, what the call settles with (a rejection or a
      response) and the next state.  A call that never settles is outside
      the model.
    - The child-folder requests that [getAllFolders] issues through
      [Promise.all] are taken in the order of the array. *)

From Stdlib Require Import String Ascii List ZArith QArith Qround Bool Lia
  DecimalString.
Import ListNotations.
Close Scope Q_scope.
Open Scope list_scope.
Open Scope string_scope.

(** ** JavaScript strings *)

Module Js.

Definition lower_ascii (c : ascii) : ascii :=
  let n := nat_of_ascii c in
  if andb (Nat.leb 65 n) (Nat.leb n 90) then ascii_of_nat (n + 32) else c.

(** What [s.toLowerCase()] gives for a string [s] of ASCII characters:
    the letters [A] to [Z] are folded, nothing else changes.  It is what
    the examples are evaluated with, see [sampleEngine]. *)
Fixpoint asciiLowerCase (s : string) : string :=
  match s with
  | EmptyString => EmptyString
  | String c r => String (lower_ascii c) (asciiLowerCase r)
  end.

(** [s.includes(sub)] *)
Definition includes (sub s : string) : bool :=
  match index 0 sub s with
  | Some _ => true
  | None => false
  end.

Definition quote : ascii := "'"%char.

(** The one-character string holding a double quote. *)
Definition dquote : string := String (ascii_of_nat 34) EmptyString.

(** [s.replace(/'/g, "''")] *)
Fixpoint replace_quotes (s : string) : string :=
  match s with
  | EmptyString => EmptyString
  | String c r =>
      if Ascii.eqb c quote
      then String quote (String quote (replace_quotes r))
      else String c (replace_quotes r)
  end.

(** [xs.join(sep)] *)
Definition join (sep : string) (xs : list string) : string :=
  String.concat sep xs.

(** Truthiness of an optional string: [undefined] and the empty string are falsy. *)
Definition truthy (o : option string) : bool :=
  match o with
  | Some s => negb (String.eqb s EmptyString)
  | None => false
  end.

(** [x === true] on an optional boolean. *)
Definition is_true (o : option bool) : bool :=
  match o with
  | Some true => true
  | _ => false
  end.

(** The inverse reading of an OData string literal: a doubled quote
    stands for one quote. *)
Fixpoint unescape_quotes (s : string) : string :=
  match s with
  | EmptyString => EmptyString
  | String c r =>
      if Ascii.eqb c quote
      then match r with
           | String c' r' =>
               if Ascii.eqb c' quote
               then String quote (unescape_quotes r')
               else String c (unescape_quotes r)
           | EmptyString => String c EmptyString
           end
      else String c (unescape_quotes r)
  end.

(** Number of occurrences of a character. *)
Fixpoint count_char (a : ascii) (s : string) : nat :=
  match s with
  | EmptyString => 0
  | String c r => (if Ascii.eqb c a then 1 else 0) + count_char a r
  end.

(** A JavaScript number: a finite one is a rational (every finite double
    is one), the others are [NaN] and the two infinities. *)
Inductive Number :=
| Finite (q : Q)
| NaN
| Infinity (negative : bool).

(** The number an integer stands for. *)
Definition integer (z : Z) : Number := Finite (inject_Z z).

(** [n > 0] *)
Definition isPositive (n : Number) : bool :=
  match n with
  | Finite q => negb (Qle_bool q 0)
  | NaN => false
  | Infinity negative => negb negative
  end.

(** [len >= n], for the length [len] of an array. *)
Definition reached (len : nat) (n : Number) : bool :=
  match n with
  | Finite q => Qle_bool q (inject_Z (Z.of_nat len))
  | NaN => false
  | Infinity negative => negative
  end.

(** A finite number rounded towards zero, as [slice] reads its
    arguments. *)
Definition truncate (q : Q) : Z :=
  if Qle_bool 0 q then Qfloor q else Qceiling q.

(** [xs.slice(0, n)] *)
Definition slice {T} (n : Number) (xs : list T) : list T :=
  match n with
  | Finite q =>
      let k := truncate q in
      if Z.ltb k 0
      then firstn (Z.to_nat (Z.of_nat (length xs) + k)) xs
      else firstn (Z.to_nat k) xs
  | NaN => []
  | Infinity true => []
  | Infinity false => xs
  end.

(** Truthiness of a number: [0] and [NaN] are falsy. *)
Definition truthyNumber (n : Number) : bool :=
  match n with
  | Finite q => negb (Qeq_bool q 0)
  | NaN => false
  | Infinity _ => true
  end.

End Js.

(** ** What is left to the JavaScript engine

    [String.prototype.toLowerCase] maps a string by the case conversion
    of Unicode, and [String(x)] writes a finite number [x] with the
    shortest digits that read back as [x].  The model fixes neither
    function: the definitions below take them from the engine, and the
    properties hold whatever the engine is.  All that is asked of
    [toLowerCase] is that it leaves the empty string empty. *)
Class Engine := {
  toLowerCase : string -> string;
  numberToString : Q -> string;
  toLowerCase_empty : toLowerCase EmptyString = EmptyString
}.

(** ** Query parameters ([api.ts], [interface QueryParams]) *)

Record QueryParams := mkQueryParams {
  _top : option Z;
  _select : option string;
  _orderby : option string;
  _filter : option string;
  _search : option string;
  _count : option string
}.

(** The object literal [{}]. *)
Definition emptyParams : QueryParams :=
  mkQueryParams None None None None None None.

Definition set_filter (p : QueryParams) (f : string) : QueryParams :=
  mkQueryParams (_top p) (_select p) (_orderby p) (Some f) (_search p) (_count p).

Definition set_search (p : QueryParams) (s : string) : QueryParams :=
  mkQueryParams (_top p) (_select p) (_orderby p) (_filter p) (Some s) (_count p).

Record FilterTerms := mkFilterTerms {
  hasAttachments : option bool;
  unreadOnly : option bool
}.

Record SearchTerms := mkSearchTerms {
  query : option string;
  from : option string;
  to : option string;
  subject : option string
}.

Definition EMAIL_SELECT_FIELDS : string :=
  "id,subject,from,toRecipients,ccRecipients,receivedDateTime,bodyPreview,hasAttachments,importance,isRead".

(** [addBooleanFilters(params, filterTerms)].  The function updates its
    argument in place and returns nothing; the embedding returns the
    updated object. *)
Definition addBooleanFilters (params : QueryParams) (filterTerms : FilterTerms)
  : QueryParams :=
  let filterConditions : list string := [] in
  let filterConditions :=
    if Js.is_true (hasAttachments filterTerms)
    then (filterConditions ++ ["hasAttachments eq true"])%list else filterConditions in
  let filterConditions :=
    if Js.is_true (unreadOnly filterTerms)
    then (filterConditions ++ ["isRead eq false"])%list else filterConditions in
  if Nat.ltb 0 (length filterConditions)
  then set_filter params (Js.join " and " filterConditions)
  else params.

(** [addBooleanFiltersToFilter(params, filterTerms)], with the same
    convention. *)
Definition addBooleanFiltersToFilter (params : QueryParams) (filterTerms : FilterTerms)
  : QueryParams :=
  let additionalConditions : list string := [] in
  let additionalConditions :=
    if Js.is_true (hasAttachments filterTerms)
    then (additionalConditions ++ ["hasAttachments eq true"])%list else additionalConditions in
  let additionalConditions :=
    if Js.is_true (unreadOnly filterTerms)
    then (additionalConditions ++ ["isRead eq false"])%list else additionalConditions in
  if Nat.ltb 0 (length additionalConditions)
  then
    match _filter params with
    | Some f =>
        if Js.truthy (Some f)
        then set_filter params ("(" ++ f ++ ") and " ++ Js.join " and " additionalConditions)
        else set_filter params (Js.join " and " additionalConditions)
    | None => set_filter params (Js.join " and " additionalConditions)
    end
  else params.

(** ** Mail data ([types.ts]) *)

Module Mail.

Record EmailAddress := mkEmailAddress { name : string; address : string }.

Record Recipient := mkRecipient { emailAddress : EmailAddress }.

Inductive Importance := low | normal | high.

Record Email := mkEmail {
  id : string;
  subject : string;
  from : option Recipient;
  toRecipients : option (list Recipient);
  ccRecipients : option (list Recipient);
  receivedDateTime : string;
  bodyPreview : option string;
  hasAttachments : bool;
  importance : Importance;
  isRead : bool
}.

End Mail.

Record MailFolder := mkMailFolder {
  id : string;
  displayName : string;
  parentFolderId : option string;
  childFolderCount : Z;
  totalItemCount : option Z;
  unreadItemCount : option Z
}.

(** [interface GraphAPIResponse<T>].  The type declares [value] as
    required, the code tests it before use, so it is optional here. *)
Record GraphAPIResponse (T : Type) := mkResponse {
  value : option (list T);
  odata_count : option Z;
  odata_nextLink : option string
}.
Arguments mkResponse {T} _ _ _.
Arguments value {T} _.
Arguments odata_count {T} _.
Arguments odata_nextLink {T} _.

(** [response.value && response.value.length > 0] *)
Definition hasItems {T : Type} (response : GraphAPIResponse T) : bool :=
  match value response with
  | Some (_ :: _) => true
  | _ => false
  end.

(** The items a response carries, none when [value] is missing. *)
Definition items {T : Type} (response : GraphAPIResponse T) : list T :=
  match value response with
  | Some l => l
  | None => []
  end.

(** A JavaScript [Error]: what matters of it is its message. *)
Record JsError := mkError { message : string }.

(** The rejection [callGraphAPI] ([api.ts]) settles with when the status
    of the response is 401. *)
Definition UNAUTHORIZED : JsError := mkError "UNAUTHORIZED".

(** A number in a template literal. *)
Definition decimal (n : Z) : string := NilZero.string_of_int (Z.to_int n).

(** The [end] handler of [callGraphAPI]: the error the promise is
    rejected with for a response of the given status and body, none when
    the status is 2xx (the body is then parsed and the promise fulfilled,
    or rejected when it does not parse). *)
Definition statusRejection (statusCode : Z) (responseData : string)
  : option JsError :=
  if Z.leb 200 statusCode && Z.ltb statusCode 300 then None
  else if Z.eqb statusCode 401 then Some (mkError "UNAUTHORIZED")
  else Some (mkError ("API call failed with status " ++ decimal statusCode
                        ++ ": " ++ responseData)).

(** [WELL_KNOWN_FOLDERS] ([types.ts]), the own properties of the object
    literal in source order. *)
Definition WELL_KNOWN_FOLDERS : list (string * string) :=
  [ ("inbox", "me/mailFolders/inbox/messages");
    ("drafts", "me/mailFolders/drafts/messages");
    ("sent", "me/mailFolders/sentItems/messages");
    ("deleted", "me/mailFolders/deletedItems/messages");
    ("junk", "me/mailFolders/junkemail/messages");
    ("archive", "me/mailFolders/archive/messages") ].

(** ** Property reads on an object literal *)

(** The value of [obj[key]] when [obj] is an object literal whose own
    properties are strings: an own property, else a member inherited
    from [Object.prototype], else [undefined]. *)
Inductive JsValue :=
| JsString (s : string)
| JsInherited (key : string)
| JsUndefined.

(** The property names of [Object.prototype]. *)
Definition Object_prototype : list string :=
  [ "constructor"; "__defineGetter__"; "__defineSetter__"; "hasOwnProperty";
    "__lookupGetter__"; "__lookupSetter__"; "isPrototypeOf";
    "propertyIsEnumerable"; "toString"; "valueOf"; "__proto__";
    "toLocaleString" ].

Fixpoint getOwn (obj : list (string * string)) (key : string) : option string :=
  match obj with
  | [] => None
  | (k, v) :: rest => if String.eqb k key then Some v else getOwn rest key
  end.

Definition getProperty (obj : list (string * string)) (key : string) : JsValue :=
  match getOwn obj key with
  | Some v => JsString v
  | None =>
      if existsb (String.eqb key) Object_prototype
      then JsInherited key
      else JsUndefined
  end.

(** Truthiness of such a value: the inherited members are functions and
    objects, which are truthy. *)
Definition truthyValue (v : JsValue) : bool :=
  match v with
  | JsString s => negb (String.eqb s EmptyString)
  | JsInherited _ => true
  | JsUndefined => false
  end.

(** ** Requests *)

(** The arguments of one [callGraphAPI] call (the body is always [null]
    here). *)
Record Request := mkRequest {
  accessToken : string;
  method : string;
  apiPath : string;
  queryParams : QueryParams;
  extraHeaders : list (string * string)
}.

(** The arguments of one [callGraphAPIPaginated] call. *)
Record PagedRequest := mkPagedRequest {
  request : Request;
  maxCount : Z
}.

(** What a call settled with: the promise is rejected with an error or
    fulfilled with a response. *)
Definition Settled (T : Type) : Type := (JsError + GraphAPIResponse T)%type.

(** One entry of the log of remote calls. *)
Inductive Event :=
| EvCall (rq : Request) (res : Settled MailFolder)
| EvPaged (rq : PagedRequest) (res : Settled Mail.Email).

(** ** Completions and the monad of function bodies *)

Inductive Completion (R A : Type) :=
| Normal (a : A)
| Return (r : R)
| Throw (e : JsError).
Arguments Normal {R A} _.
Arguments Return {R A} _.
Arguments Throw {R A} _.

(** A statement of a function body: [L] are the function's mutable
    locals, [G] the state shared with the rest of the program, [R] the
    function's return type. *)
Definition M (G L R A : Type) : Type := L * G -> Completion R A * (L * G).

Section Monad.

Context {G L R : Type}.

Definition ret {A} (a : A) : M G L R A := fun s => (Normal a, s).

Definition bind {A B} (m : M G L R A) (k : A -> M G L R B) : M G L R B :=
  fun s =>
    match m s with
    | (Normal a, s') => k a s'
    | (Return r, s') => (Return r, s')
    | (Throw e, s') => (Throw e, s')
    end.

(** [return r;] *)
Definition return_ {A} (r : R) : M G L R A := fun s => (Return r, s).

(** [throw e;] *)
Definition throw {A} (e : JsError) : M G L R A := fun s => (Throw e, s).

(** [try { body } catch { handler }]: only a throw is caught, and the
    handler starts in the state the throw left. *)
Definition try_catch {A} (body handler : M G L R A) : M G L R A :=
  fun s =>
    match body s with
    | (Throw _, s') => handler s'
    | other => other
    end.

Definition getLocals : M G L R L := fun s => (Normal (fst s), s).

Definition modifyLocals (f : L -> L) : M G L R unit :=
  fun s => (Normal tt, (f (fst s), snd s)).

(** [if (c) { body }] *)
Definition when (c : bool) (body : M G L R unit) : M G L R unit :=
  if c then body else ret tt.

(** [for (const x of xs) { body }] *)
Fixpoint for_of {X} (xs : list X) (body : X -> M G L R unit) : M G L R unit :=
  match xs with
  | [] => ret tt
  | x :: rest => bind (body x) (fun _ => for_of rest body)
  end.

(** [await Promise.all(xs.map(f))]: the calls are issued in the order
    of the array and the results are collected in that order. *)
Fixpoint map_all {X Y} (f : X -> M G L R Y) (xs : list X) : M G L R (list Y) :=
  match xs with
  | [] => ret []
  | x :: rest =>
      bind (f x) (fun y => bind (map_all f rest) (fun ys => ret (y :: ys)))
  end.

End Monad.

(** A function body has no normal completion: every path ends in
    [return] or [throw]. *)
Definition Body (G L R : Type) : Type := M G L R Empty_set.

(** Running a body with fresh locals: the result the caller sees. *)
Definition run {G L R} (body : Body G L R) (locals : L) (g : G) : (JsError + R) * G :=
  match body (locals, g) with
  | (Normal a, _) => match a with end
  | (Return r, (_, g')) => (inr r, g')
  | (Throw e, (_, g')) => (inl e, g')
  end.

(** [await f(...)] inside another body. *)
Definition await {G L R A} (f : G -> (JsError + A) * G) : M G L R A :=
  fun s =>
    match f (snd s) with
    | (inr a, g') => (Normal a, (fst s, g'))
    | (inl e, g') => (Throw e, (fst s, g'))
    end.

Declare Scope js_scope.
Delimit Scope js_scope with js.
Notation "x <- m ;; k" := (bind m (fun x => k))
  (at level 61, m at next level, right associativity) : js_scope.
Notation "m ;; k" := (bind m (fun _ => k))
  (at level 61, right associativity) : js_scope.

(** [o] where the code has already tested that [o] is truthy. *)
Definition the (o : option string) : string :=
  match o with
  | Some s => s
  | None => EmptyString
  end.

(** ** The search planner's result *)

Record SearchInfo := mkSearchInfo {
  strategies : list string;
  failed : option bool
}.

(** [GraphAPIResponse<Email> & { _searchInfo?: ... }]: the object
    [{ ...response, _searchInfo: i }] is [mkSearchResponse response (Some i)]. *)
Record SearchResponse := mkSearchResponse {
  response : GraphAPIResponse Mail.Email;
  _searchInfo : option SearchInfo
}.

(** [searchTerms[term]] for [term: keyof SearchTerms]. *)
Definition getTerm (searchTerms : SearchTerms) (term : string) : option string :=
  if String.eqb term "query" then query searchTerms
  else if String.eqb term "from" then from searchTerms
  else if String.eqb term "to" then to searchTerms
  else if String.eqb term "subject" then subject searchTerms
  else None.

(** ** The remote service and the functions that call it *)

Section Remote.

Context {engine : Engine}.

(** The state of the remote mailbox and of the connection to it. *)
Context {W : Type}.

(** How a [callGraphAPI] request for folders settles, and how a
    [callGraphAPIPaginated] request for messages settles, in a given
    state of the remote. *)
Variable graphAPI : Request -> W -> Settled MailFolder * W.
Variable graphAPIPaginated : PagedRequest -> W -> Settled Mail.Email * W.

(** The state shared by all functions: the remote and the log of the
    calls issued so far, oldest first. *)
Record Net := mkNet {
  world : W;
  calls : list Event
}.

Definition callGraphAPI (accessToken method apiPath : string)
    (queryParams : QueryParams) (extraHeaders : list (string * string))
  : Net -> Settled MailFolder * Net :=
  fun g =>
    let rq := mkRequest accessToken method apiPath queryParams extraHeaders in
    let (res, w') := graphAPI rq (world g) in
    (res, mkNet w' (calls g ++ [EvCall rq res])%list).

Definition callGraphAPIPaginated (accessToken method apiPath : string)
    (queryParams : QueryParams) (maxCount : Z)
    (extraHeaders : list (string * string))
  : Net -> Settled Mail.Email * Net :=
  fun g =>
    let rq := mkPagedRequest
                (mkRequest accessToken method apiPath queryParams extraHeaders)
                maxCount in
    let (res, w') := graphAPIPaginated rq (world g) in
    (res, mkNet w' (calls g ++ [EvPaged rq res])%list).

(** *** [progressiveSearch] *)

(** The only mutable local of [progressiveSearch] is the array
    [searchAttempts]. *)
Definition push (tag : string) : M Net (list string) SearchResponse unit :=
  modifyLocals (fun searchAttempts => (searchAttempts ++ [tag])%list).

Local Open Scope js_scope.

Definition strategy1 (accessToken : string) (searchTerms : SearchTerms)
    (filterTerms : FilterTerms) (maxCount : Z)
  : M Net (list string) SearchResponse unit :=
  when (Js.truthy (from searchTerms) && Js.includes "@" (the (from searchTerms)))
    (let escapedFrom := toLowerCase (Js.replace_quotes (the (from searchTerms))) in
     try_catch
       (push "filter-from-exact" ;;
        let filterParams :=
          mkQueryParams (Some (Z.min 50 maxCount)) (Some EMAIL_SELECT_FIELDS) None
            (Some ("sender/emailAddress/address eq '" ++ escapedFrom ++ "'"))
            None (Some "true") in
        let filterParams := addBooleanFiltersToFilter filterParams filterTerms in
        response <- await (callGraphAPIPaginated accessToken "GET" "me/messages"
                             filterParams maxCount
                             [("ConsistencyLevel", "eventual")]) ;;
        when (hasItems response)
          (searchAttempts <- getLocals ;;
           return_ (mkSearchResponse response
                      (Some (mkSearchInfo searchAttempts None)))))
       (ret tt)).

Definition strategy2 (endpoint accessToken : string) (searchTerms : SearchTerms)
    (filterTerms : FilterTerms) (maxCount : Z)
  : M Net (list string) SearchResponse unit :=
  when (Js.truthy (subject searchTerms))
    (try_catch
       (let escapedSubject := Js.replace_quotes (the (subject searchTerms)) in
        push "filter-subject-startswith" ;;
        let filterParams :=
          mkQueryParams (Some (Z.min 50 maxCount)) (Some EMAIL_SELECT_FIELDS)
            (Some "receivedDateTime desc")
            (Some ("startswith(subject,'" ++ escapedSubject ++ "')"))
            None None in
        let filterParams := addBooleanFiltersToFilter filterParams filterTerms in
        response <- await (callGraphAPIPaginated accessToken "GET" endpoint
                             filterParams maxCount []) ;;
        when (hasItems response)
          (searchAttempts <- getLocals ;;
           return_ (mkSearchResponse response
                      (Some (mkSearchInfo searchAttempts None)))))
       (ret tt)).

Definition strategy3 (endpoint accessToken : string) (searchTerms : SearchTerms)
    (filterTerms : FilterTerms) (maxCount : Z)
  : M Net (list string) SearchResponse unit :=
  try_catch
    (let kqlTerms : list string := [] in
     let kqlTerms :=
       if Js.truthy (query searchTerms)
       then (kqlTerms ++ [the (query searchTerms)])%list else kqlTerms in
     let kqlTerms :=
       if Js.truthy (subject searchTerms)
       then (kqlTerms ++ [("subject:" ++ Js.dquote ++ the (subject searchTerms) ++ Js.dquote)%string])%list
       else kqlTerms in
     let kqlTerms :=
       if Js.truthy (from searchTerms)
       then (kqlTerms ++ [("from:" ++ Js.dquote ++ the (from searchTerms) ++ Js.dquote)%string])%list
       else kqlTerms in
     let kqlTerms :=
       if Js.truthy (to searchTerms)
       then (kqlTerms ++ [("to:" ++ Js.dquote ++ the (to searchTerms) ++ Js.dquote)%string])%list
       else kqlTerms in
     when (Nat.ltb 0 (length kqlTerms))
       (push "kql-combined-search" ;;
        let params :=
          mkQueryParams (Some (Z.min 50 maxCount)) (Some EMAIL_SELECT_FIELDS)
            (Some "receivedDateTime desc") None
            (Some (Js.join " " kqlTerms)) None in
        let params := addBooleanFilters params filterTerms in
        response <- await (callGraphAPIPaginated accessToken "GET" endpoint
                             params maxCount []) ;;
        when (hasItems response)
          (searchAttempts <- getLocals ;;
           return_ (mkSearchResponse response
                      (Some (mkSearchInfo searchAttempts None))))))
    (ret tt).

Definition searchPriority : list string := ["subject"; "from"; "to"; "query"].

Definition strategy4 (endpoint accessToken : string) (searchTerms : SearchTerms)
    (filterTerms : FilterTerms) (maxCount : Z)
  : M Net (list string) SearchResponse unit :=
  for_of searchPriority (fun term =>
    when (Js.truthy (getTerm searchTerms term))
      (try_catch
         (push ("kql-single-term-" ++ term) ;;
          let simplifiedParams :=
            mkQueryParams (Some (Z.min 50 maxCount)) (Some EMAIL_SELECT_FIELDS)
              (Some "receivedDateTime desc") None None None in
          let simplifiedParams :=
            if String.eqb term "query"
            then set_search simplifiedParams
                   (Js.dquote ++ the (getTerm searchTerms term) ++ Js.dquote)
            else set_search simplifiedParams
                   (term ++ ":" ++ Js.dquote ++ the (getTerm searchTerms term)
                         ++ Js.dquote) in
          let simplifiedParams := addBooleanFilters simplifiedParams filterTerms in
          response <- await (callGraphAPIPaginated accessToken "GET" endpoint
                               simplifiedParams maxCount []) ;;
          when (hasItems response)
            (searchAttempts <- getLocals ;;
             return_ (mkSearchResponse response
                        (Some (mkSearchInfo searchAttempts None)))))
         (ret tt))).

Definition strategy5 (endpoint accessToken : string)
    (filterTerms : FilterTerms) (maxCount : Z)
  : M Net (list string) SearchResponse unit :=
  when (Js.is_true (hasAttachments filterTerms) || Js.is_true (unreadOnly filterTerms))
    (try_catch
       (push "boolean-filters-only" ;;
        let filterOnlyParams :=
          mkQueryParams (Some (Z.min 50 maxCount)) (Some EMAIL_SELECT_FIELDS)
            (Some "receivedDateTime desc") None None None in
        let filterOnlyParams := addBooleanFilters filterOnlyParams filterTerms in
        response <- await (callGraphAPIPaginated accessToken "GET" endpoint
                             filterOnlyParams maxCount []) ;;
        searchAttempts <- getLocals ;;
        return_ (mkSearchResponse response
                   (Some (mkSearchInfo searchAttempts None))))
       (ret tt)).

(** The statement after the fifth strategy: "All strategies failed". *)
Definition allFailed : Body Net (list string) SearchResponse :=
  searchAttempts <- getLocals ;;
  return_ (mkSearchResponse (mkResponse (Some []) None None)
             (Some (mkSearchInfo searchAttempts (Some true)))).

Definition progressiveSearch_body (endpoint accessToken : string)
    (searchTerms : SearchTerms) (filterTerms : FilterTerms) (maxCount : Z)
  : Body Net (list string) SearchResponse :=
  strategy1 accessToken searchTerms filterTerms maxCount ;;
  strategy2 endpoint accessToken searchTerms filterTerms maxCount ;;
  strategy3 endpoint accessToken searchTerms filterTerms maxCount ;;
  strategy4 endpoint accessToken searchTerms filterTerms maxCount ;;
  strategy5 endpoint accessToken filterTerms maxCount ;;
  allFailed.

(** [progressiveSearch(endpoint, accessToken, searchTerms, filterTerms,
    maxCount)]; [searchAttempts] starts empty. *)
Definition progressiveSearch (endpoint accessToken : string)
    (searchTerms : SearchTerms) (filterTerms : FilterTerms) (maxCount : Z)
  : Net -> (JsError + SearchResponse) * Net :=
  run (progressiveSearch_body endpoint accessToken searchTerms filterTerms maxCount) [].

(** *** Folder resolution *)

Definition FOLDER_FIELDS : string :=
  "id,displayName,parentFolderId,childFolderCount,totalItemCount,unreadItemCount".

(** The [async (folder) => ...] mapped over the folders that have
    children, in [getAllFolders]. *)
Definition childFoldersOf (accessToken : string) (folder : MailFolder)
  : Net -> (JsError + list MailFolder) * Net :=
  run (try_catch
         (childResponse <- await (callGraphAPI accessToken "GET"
                                    ("me/mailFolders/" ++ id folder ++ "/childFolders")
                                    (mkQueryParams None (Some FOLDER_FIELDS)
                                       None None None None) []) ;;
          return_ (match value childResponse with
                   | Some l => l
                   | None => []
                   end))
         (return_ []) : Body Net unit (list MailFolder)) tt.

Definition getAllFolders (accessToken : string)
  : Net -> (JsError + list MailFolder) * Net :=
  run (try_catch
         (response <- await (callGraphAPI accessToken "GET" "me/mailFolders"
                               (mkQueryParams (Some 100%Z) (Some FOLDER_FIELDS)
                                  None None None None) []) ;;
          match value response with
          | None => return_ []
          | Some folders =>
              let foldersWithChildren :=
                filter (fun f => Z.ltb 0 (childFolderCount f)) folders in
              childFolders <- map_all (fun folder => await (childFoldersOf accessToken folder))
                                foldersWithChildren ;;
              return_ (folders ++ concat childFolders)%list
          end)
         (return_ []) : Body Net unit (list MailFolder)) tt.

(** [Promise<string | null>]: [null] is [None]. *)
Definition getFolderIdByName (accessToken folderName : string)
  : Net -> (JsError + option string) * Net :=
  run ((try_catch
          (response <- await (callGraphAPI accessToken "GET" "me/mailFolders"
                                (mkQueryParams None None None
                                   (Some ("displayName eq '" ++ folderName ++ "'"))
                                   None None) []) ;;
           match value response with
           | Some (first :: _) => return_ (Some (id first))
           | _ => ret tt
           end ;;
           allFoldersResponse <- await (callGraphAPI accessToken "GET" "me/mailFolders"
                                          (mkQueryParams (Some 100%Z) None None None
                                             None None) []) ;;
           match value allFoldersResponse with
           | Some folders =>
               let lowerFolderName := toLowerCase folderName in
               match find (fun folder =>
                             String.eqb (toLowerCase (displayName folder))
                               lowerFolderName) folders with
               | Some matchingFolder => return_ (Some (id matchingFolder))
               | None => ret tt
               end
           | None => ret tt
           end)
          (ret tt)) ;;
       (try_catch
          (allFolders <- await (getAllFolders accessToken) ;;
           let lowerName := toLowerCase folderName in
           match find (fun f => String.eqb (toLowerCase (displayName f)) lowerName)
                   allFolders with
           | Some match_ => return_ (Some (id match_))
           | None => ret tt
           end)
          (ret tt)) ;;
       return_ None : Body Net unit (option string)) tt.

(** [resolveFolderPath(accessToken, folderName)].  The declared result
    is a string; the value returned is whatever the property read
    gives, so the result is a [JsValue]. *)
Definition resolveFolderPath (accessToken : string) (folderName : option string)
  : Net -> (JsError + JsValue) * Net :=
  run (when (negb (Js.truthy folderName))
         (return_ (getProperty WELL_KNOWN_FOLDERS "inbox")) ;;
       let lowerFolderName := toLowerCase (the folderName) in
       when (truthyValue (getProperty WELL_KNOWN_FOLDERS lowerFolderName))
         (return_ (getProperty WELL_KNOWN_FOLDERS lowerFolderName)) ;;
       folderId <- await (getFolderIdByName accessToken (the folderName)) ;;
       when (Js.truthy folderId)
         (return_ (JsString ("me/mailFolders/" ++ the folderId ++ "/messages"))) ;;
       throw (mkError ("Folder " ++ Js.dquote ++ the folderName ++ Js.dquote
                         ++ " not found. Use list-folders to see available folders."))
       : Body Net unit JsValue) tt.

(** *** The cascade as a table

    The strategies [progressiveSearch] unrolls, as the list of the
    attempts that apply to an input, in order.  An attempt is a tag, the
    request issued under it, and whether its response is returned even
    when it carries no item.  [progressiveSearch_plan] below shows that
    running the table is what the code does. *)

Record Attempt := mkAttempt {
  tag : string;
  paged : PagedRequest;
  terminal : bool
}.

Definition plan1 (accessToken : string) (searchTerms : SearchTerms)
    (filterTerms : FilterTerms) (maxCount : Z) : list Attempt :=
  if Js.truthy (from searchTerms) && Js.includes "@" (the (from searchTerms))
  then [ mkAttempt "filter-from-exact"
           (mkPagedRequest
              (mkRequest accessToken "GET" "me/messages"
                 (addBooleanFiltersToFilter
                    (mkQueryParams (Some (Z.min 50 maxCount))
                       (Some EMAIL_SELECT_FIELDS) None
                       (Some ("sender/emailAddress/address eq '"
                                ++ toLowerCase (Js.replace_quotes (the (from searchTerms)))
                                ++ "'"))
                       None (Some "true"))
                    filterTerms)
                 [("ConsistencyLevel", "eventual")])
              maxCount)
           false ]
  else [].

Definition plan2 (endpoint accessToken : string) (searchTerms : SearchTerms)
    (filterTerms : FilterTerms) (maxCount : Z) : list Attempt :=
  if Js.truthy (subject searchTerms)
  then [ mkAttempt "filter-subject-startswith"
           (mkPagedRequest
              (mkRequest accessToken "GET" endpoint
                 (addBooleanFiltersToFilter
                    (mkQueryParams (Some (Z.min 50 maxCount))
                       (Some EMAIL_SELECT_FIELDS) (Some "receivedDateTime desc")
                       (Some ("startswith(subject,'"
                                ++ Js.replace_quotes (the (subject searchTerms))
                                ++ "')"))
                       None None)
                    filterTerms)
                 [])
              maxCount)
           false ]
  else [].

Definition kqlTermsOf (searchTerms : SearchTerms) : list string :=
  ((if Js.truthy (query searchTerms) then [the (query searchTerms)] else [])
   ++ (if Js.truthy (subject searchTerms)
       then [("subject:" ++ Js.dquote ++ the (subject searchTerms) ++ Js.dquote)%string]
       else [])
   ++ (if Js.truthy (from searchTerms)
       then [("from:" ++ Js.dquote ++ the (from searchTerms) ++ Js.dquote)%string]
       else [])
   ++ (if Js.truthy (to searchTerms)
       then [("to:" ++ Js.dquote ++ the (to searchTerms) ++ Js.dquote)%string]
       else []))%list.

Definition plan3 (endpoint accessToken : string) (searchTerms : SearchTerms)
    (filterTerms : FilterTerms) (maxCount : Z) : list Attempt :=
  if Nat.ltb 0 (length (kqlTermsOf searchTerms))
  then [ mkAttempt "kql-combined-search"
           (mkPagedRequest
              (mkRequest accessToken "GET" endpoint
                 (addBooleanFilters
                    (mkQueryParams (Some (Z.min 50 maxCount))
                       (Some EMAIL_SELECT_FIELDS) (Some "receivedDateTime desc")
                       None (Some (Js.join " " (kqlTermsOf searchTerms))) None)
                    filterTerms)
                 [])
              maxCount)
           false ]
  else [].

Definition plan4_term (endpoint accessToken : string) (searchTerms : SearchTerms)
    (filterTerms : FilterTerms) (maxCount : Z) (term : string) : list Attempt :=
  if Js.truthy (getTerm searchTerms term)
  then [ mkAttempt ("kql-single-term-" ++ term)
           (mkPagedRequest
              (mkRequest accessToken "GET" endpoint
                 (addBooleanFilters
                    (mkQueryParams (Some (Z.min 50 maxCount))
                       (Some EMAIL_SELECT_FIELDS) (Some "receivedDateTime desc")
                       None
                       (Some (if String.eqb term "query"
                              then Js.dquote ++ the (getTerm searchTerms term) ++ Js.dquote
                              else term ++ ":" ++ Js.dquote
                                     ++ the (getTerm searchTerms term) ++ Js.dquote))
                       None)
                    filterTerms)
                 [])
              maxCount)
           false ]
  else [].

Definition plan4 (endpoint accessToken : string) (searchTerms : SearchTerms)
    (filterTerms : FilterTerms) (maxCount : Z) : list Attempt :=
  flat_map (plan4_term endpoint accessToken searchTerms filterTerms maxCount)
    searchPriority.

Definition plan5 (endpoint accessToken : string)
    (filterTerms : FilterTerms) (maxCount : Z) : list Attempt :=
  if Js.is_true (hasAttachments filterTerms) || Js.is_true (unreadOnly filterTerms)
  then [ mkAttempt "boolean-filters-only"
           (mkPagedRequest
              (mkRequest accessToken "GET" endpoint
                 (addBooleanFilters
                    (mkQueryParams (Some (Z.min 50 maxCount))
                       (Some EMAIL_SELECT_FIELDS) (Some "receivedDateTime desc")
                       None None None)
                    filterTerms)
                 [])
              maxCount)
           true ]
  else [].

Definition plan (endpoint accessToken : string) (searchTerms : SearchTerms)
    (filterTerms : FilterTerms) (maxCount : Z) : list Attempt :=
  (plan1 accessToken searchTerms filterTerms maxCount
   ++ plan2 endpoint accessToken searchTerms filterTerms maxCount
   ++ plan3 endpoint accessToken searchTerms filterTerms maxCount
   ++ plan4 endpoint accessToken searchTerms filterTerms maxCount
   ++ plan5 endpoint accessToken filterTerms maxCount)%list.

(** Running a table of attempts, then [k] when none of them returned. *)
Fixpoint attemptAll {A} (attempts : list Attempt)
    (k : M Net (list string) SearchResponse A)
  : M Net (list string) SearchResponse A :=
  match attempts with
  | [] => k
  | a :: rest =>
      fun s =>
        let out := graphAPIPaginated (paged a) (world (snd s)) in
        let g' := mkNet (snd out) (calls (snd s) ++ [EvPaged (paged a) (fst out)])%list in
        let searchAttempts := (fst s ++ [tag a])%list in
        match fst out with
        | inr response =>
            if hasItems response || terminal a
            then (Return (mkSearchResponse response
                            (Some (mkSearchInfo searchAttempts None))),
                  (searchAttempts, g'))
            else attemptAll rest k (searchAttempts, g')
        | inl _ => attemptAll rest k (searchAttempts, g')
        end
  end.

End Remote.

Arguments mkNet {W} _ _.
Arguments world {W} _.
Arguments calls {W} _.

(** ** Vocabulary of the statements *)

(** A run starts with an empty log of calls. *)
Definition start {W} (w : W) : Net := mkNet w [].

(** The object returned when a strategy's response is returned. *)
Definition found (response : GraphAPIResponse Mail.Email) (log : list string)
  : SearchResponse :=
  mkSearchResponse response (Some (mkSearchInfo log None)).

(** The object returned when "All strategies failed". *)
Definition allFailedResponse (log : list string) : SearchResponse :=
  mkSearchResponse (mkResponse (Some []) None None)
    (Some (mkSearchInfo log (Some true))).

(** Whether a settled call delivered at least one item. *)
Definition delivered {T} (res : Settled T) : bool :=
  match res with
  | inr response => hasItems response
  | inl _ => false
  end.

(** A call of the log that delivered no item: it threw, or its response
    was empty. *)
Definition barren (e : Event) : Prop :=
  match e with
  | EvPaged _ res => delivered res = false
  | EvCall _ res => delivered res = false
  end.

(** The request of a paginated call of the log. *)
Definition pagedRequestOf (e : Event) : option PagedRequest :=
  match e with
  | EvPaged rq _ => Some rq
  | EvCall _ _ => None
  end.

(** The attempt log of a result. *)
Definition logOf (r : SearchResponse) : list string :=
  match _searchInfo r with
  | Some i => strategies i
  | None => []
  end.

(** The [failed] flag of a result, as the caller tests it
    ([response._searchInfo?.failed]). *)
Definition failedOf (r : SearchResponse) : bool :=
  match _searchInfo r with
  | Some i => Js.is_true (failed i)
  | None => false
  end.

(** Whether an attempt ends the cascade with the given settlement. *)
Definition wins (a : Attempt) (res : Settled Mail.Email) : bool :=
  match res with
  | inr response => hasItems response || terminal a
  | inl _ => false
  end.

(** An attempt whose call did not end the cascade. *)
Definition lost (a : Attempt) (e : Event) : Prop :=
  exists res, e = EvPaged (paged a) res /\ wins a res = false.

(** The two ways a run of a table of attempts ends, from a log
    [searchAttempts] and a state [g]: some attempt wins after the attempts
    before it lost, or every attempt lost. *)
Inductive CascadeResult {W} (attempts : list Attempt)
    (searchAttempts : list string) (g : @Net W)
  : Completion SearchResponse Empty_set * (list string * @Net W) -> Prop :=
| Won pre a rest preE response w' :
    attempts = (pre ++ a :: rest)%list ->
    Forall2 lost pre preE ->
    wins a (inr response) = true ->
    CascadeResult attempts searchAttempts g
      (Return (found response (searchAttempts ++ map tag (pre ++ [a]))%list),
       ((searchAttempts ++ map tag (pre ++ [a]))%list,
        mkNet w' (calls g ++ preE ++ [EvPaged (paged a) (inr response)])%list))
| Exhausted evs w' :
    Forall2 lost attempts evs ->
    CascadeResult attempts searchAttempts g
      (Return (allFailedResponse (searchAttempts ++ map tag attempts)%list),
       ((searchAttempts ++ map tag attempts)%list,
        mkNet w' (calls g ++ evs)%list)).

(** The tags of the strategies that apply to an input, in order. *)
Definition tagsFor (searchTerms : SearchTerms) (filterTerms : FilterTerms)
  : list string :=
  ((if Js.truthy (from searchTerms) && Js.includes "@" (the (from searchTerms))
    then ["filter-from-exact"] else [])
   ++ (if Js.truthy (subject searchTerms) then ["filter-subject-startswith"] else [])
   ++ (if Js.truthy (query searchTerms) || Js.truthy (subject searchTerms)
          || Js.truthy (from searchTerms) || Js.truthy (to searchTerms)
       then ["kql-combined-search"] else [])
   ++ (if Js.truthy (subject searchTerms) then ["kql-single-term-subject"] else [])
   ++ (if Js.truthy (from searchTerms) then ["kql-single-term-from"] else [])
   ++ (if Js.truthy (to searchTerms) then ["kql-single-term-to"] else [])
   ++ (if Js.truthy (query searchTerms) then ["kql-single-term-query"] else [])
   ++ (if Js.is_true (hasAttachments filterTerms) || Js.is_true (unreadOnly filterTerms)
       then ["boolean-filters-only"] else []))%list.


(** ** Sample data and a scripted remote, for concrete runs *)

Definition sampleEmail (i : string) : Mail.Email :=
  Mail.mkEmail i "Hello" None None None "2024-01-01T00:00:00Z" None false
    Mail.normal false.

(** What [callGraphAPIPaginated] returns for a list of items. *)
Definition page {T} (l : list T) : GraphAPIResponse T :=
  mkResponse (Some l) (Some (Z.of_nat (length l))) None.

(** A remote that answers the successive calls with the successive
    entries of a script, whatever the request, and fails with a network
    error once the script is exhausted. *)
Definition scripted {T} (rq : PagedRequest) (script : list (Settled T))
  : Settled T * list (Settled T) :=
  match script with
  | r :: rest => (r, rest)
  | [] => (inl (mkError "Network error during API call: script exhausted"), [])
  end.

(** The request of strategy 1 for the sender [a@b.com], no boolean
    filter, and a count of 10. *)
Definition sampleSenderRequest : PagedRequest :=
  mkPagedRequest
    (mkRequest "token" "GET" "me/messages"
       (mkQueryParams (Some 10%Z) (Some EMAIL_SELECT_FIELDS) None
          (Some "sender/emailAddress/address eq 'a@b.com'") None (Some "true"))
       [("ConsistencyLevel", "eventual")])
    10.

(** The request of strategy 3 for the same input, in the folder
    [me/mailFolders/inbox/messages]. *)
Definition sampleCombinedRequest : PagedRequest :=
  mkPagedRequest
    (mkRequest "token" "GET" "me/mailFolders/inbox/messages"
       (mkQueryParams (Some 10%Z) (Some EMAIL_SELECT_FIELDS)
          (Some "receivedDateTime desc") None
          (Some ("from:" ++ Js.dquote ++ "a@b.com" ++ Js.dquote)) None)
       [])
    10.

Definition fromOnly (f : string) : SearchTerms :=
  mkSearchTerms None (Some f) None None.

Definition noTerms : SearchTerms := mkSearchTerms None None None None.

Definition noFilters : FilterTerms := mkFilterTerms None None.

Definition threeItems : GraphAPIResponse Mail.Email :=
  page [sampleEmail "1"; sampleEmail "2"; sampleEmail "3"].

Definition twoItems : GraphAPIResponse Mail.Email :=
  page [sampleEmail "1"; sampleEmail "2"].

Definition inboxEndpoint : string := "me/mailFolders/inbox/messages".

(** The conjunction of the boolean clauses that the filter terms ask
    for. *)
Definition booleanClauses (filterTerms : FilterTerms) : string :=
  match Js.is_true (hasAttachments filterTerms), Js.is_true (unreadOnly filterTerms) with
  | true, true => "hasAttachments eq true and isRead eq false"
  | true, false => "hasAttachments eq true"
  | false, true => "isRead eq false"
  | false, false => EmptyString
  end.

(** Whether the filter terms ask for a boolean clause at all. *)
Definition anyBoolean (filterTerms : FilterTerms) : bool :=
  Js.is_true (hasAttachments filterTerms) || Js.is_true (unreadOnly filterTerms).

(** The attempts of strategies 2 to 5. *)
Definition laterAttempts (endpoint accessToken : string) (searchTerms : SearchTerms)
    (filterTerms : FilterTerms) (maxCount : Z) : list Attempt :=
  (plan2 endpoint accessToken searchTerms filterTerms maxCount
   ++ plan3 endpoint accessToken searchTerms filterTerms maxCount
   ++ plan4 endpoint accessToken searchTerms filterTerms maxCount
   ++ plan5 endpoint accessToken filterTerms maxCount)%list.

(** The [$filter] of strategy 1 for the sender [f]. *)
Definition senderClause {engine : Engine} (f : string) : string :=
  "sender/emailAddress/address eq '" ++ toLowerCase (Js.replace_quotes f) ++ "'".

(** The [$filter] of strategy 2 for the subject [s]. *)
Definition subjectClause (s : string) : string :=
  "startswith(subject,'" ++ Js.replace_quotes s ++ "')".

(** A clause merged with the boolean clauses the filter terms ask for. *)
Definition withBooleans (clause : string) (filterTerms : FilterTerms) : string :=
  if anyBoolean filterTerms
  then "(" ++ clause ++ ") and " ++ booleanClauses filterTerms
  else clause.

(** The request of strategy 1. *)
Definition senderRequest {engine : Engine} (accessToken f : string) (filterTerms : FilterTerms)
    (maxCount : Z) : PagedRequest :=
  mkPagedRequest
    (mkRequest accessToken "GET" "me/messages"
       (mkQueryParams (Some (Z.min 50 maxCount)) (Some EMAIL_SELECT_FIELDS) None
          (Some (withBooleans (senderClause f) filterTerms)) None (Some "true"))
       [("ConsistencyLevel", "eventual")])
    maxCount.

(** The [$filter] values a search can send for given terms: none, the
    boolean clauses alone, the sender clause built from a [from] that
    holds an [@], or the subject clause built from [subject]; each clause
    holds the escaped term and is merged with the boolean clauses. *)
Definition escapedFilter {engine : Engine} (searchTerms : SearchTerms) (filterTerms : FilterTerms)
    (rq : PagedRequest) : Prop :=
  let sent := _filter (queryParams (request rq)) in
  sent = None
  \/ sent = Some (booleanClauses filterTerms)
  \/ (exists f, from searchTerms = Some f
                /\ Js.includes "@" f = true
                /\ sent = Some (withBooleans
                                  ("sender/emailAddress/address eq '"
                                     ++ toLowerCase (Js.replace_quotes f) ++ "'")
                                  filterTerms))
  \/ (exists s, subject searchTerms = Some s
                /\ sent = Some (withBooleans
                                  ("startswith(subject,'"
                                     ++ Js.replace_quotes s ++ "')")
                                  filterTerms)).

(** The settlement of a call that the server answers with the given
    status and an empty body, when that status is an error. *)
Definition rejectedWith {T} (statusCode : Z) : Settled T :=
  match statusRejection statusCode EmptyString with
  | Some e => inl e
  | None => inr (mkResponse None None None)
  end.

(** A remote that answers every call with the status 401. *)
Definition alwaysUnauthorized (rq : PagedRequest) (w : unit)
  : Settled Mail.Email * unit :=
  (rejectedWith 401, w).

(** The remote that answers like [fetch], except that where [fetch]
    rejects a call it answers an empty page. *)
Definition absorb {W} (fetch : PagedRequest -> W -> Settled Mail.Email * W)
  : PagedRequest -> W -> Settled Mail.Email * W :=
  fun rq w =>
    match fetch rq w with
    | (inl _, w') => (inr (page []), w')
    | other => other
    end.

(** Two states of the same remote in which the same requests were
    issued. *)
Definition alike {W} (g1 g2 : @Net W) : Prop :=
  world g1 = world g2
  /\ map pagedRequestOf (calls g1) = map pagedRequestOf (calls g2).

(** The attempts of strategies 1 to 4. *)
Definition earlyAttempts {engine : Engine} (endpoint accessToken : string) (searchTerms : SearchTerms)
    (filterTerms : FilterTerms) (maxCount : Z) : list Attempt :=
  (plan1 accessToken searchTerms filterTerms maxCount
   ++ plan2 endpoint accessToken searchTerms filterTerms maxCount
   ++ plan3 endpoint accessToken searchTerms filterTerms maxCount
   ++ plan4 endpoint accessToken searchTerms filterTerms maxCount)%list.

(** The request of strategy 5. *)
Definition booleanRequest (endpoint accessToken : string) (filterTerms : FilterTerms)
    (maxCount : Z) : PagedRequest :=
  mkPagedRequest
    (mkRequest accessToken "GET" endpoint
       (mkQueryParams (Some (Z.min 50 maxCount)) (Some EMAIL_SELECT_FIELDS)
          (Some "receivedDateTime desc") (Some (booleanClauses filterTerms))
          None None)
       [])
    maxCount.

(** A remote that answers every call with the status 500. *)
Definition alwaysFailing (rq : PagedRequest) (w : unit)
  : Settled Mail.Email * unit :=
  (rejectedWith 500, w).

(** How the end of a run against the remote that absorbs failures
    (second) relates to the end of the run against the remote itself
    (first): the same requests were issued and the remote is in the same
    state; the completions are the same, and then the last call of a run
    with a boolean filter was fulfilled, or the call of strategy 5 was
    rejected and the completions differ. *)
Definition endsAlike {W} (endpoint accessToken : string) (filterTerms : FilterTerms)
    (maxCount : Z)
    (o o' : Completion SearchResponse Empty_set * (list string * @Net W)) : Prop :=
  alike (snd (snd o)) (snd (snd o'))
  /\ ((fst o' = fst o
       /\ (anyBoolean filterTerms = true ->
           exists pre rq response,
             calls (snd (snd o)) = (pre ++ [EvPaged rq (inr response)])%list))
      \/ (anyBoolean filterTerms = true
          /\ exists log pre e,
               calls (snd (snd o))
               = (pre ++ [EvPaged (booleanRequest endpoint accessToken filterTerms
                                     maxCount) (inl e)])%list
               /\ fst o = Return (allFailedResponse log)
               /\ fst o' = Return (found (page []) log))).

(** ** Vocabulary of folder resolution *)

(** The error [resolveFolderPath] throws for a name it cannot resolve. *)
Definition FolderNotFound (folderName : string) : JsError :=
  mkError ("Folder " ++ Js.dquote ++ folderName ++ Js.dquote
             ++ " not found. Use list-folders to see available folders.").

(** A folder whose display name differs from [name] even when case is
    ignored. *)
Definition otherName {engine : Engine} (name : string) (f : MailFolder) : Prop :=
  toLowerCase (displayName f) <> toLowerCase name.

(** A remote in which no folder matches [name]: a listing filtered on the
    server delivers no folder, and no listing delivers a folder named
    [name] up to case. *)
Definition noFolderNamed {engine : Engine} {W} (graphAPI : Request -> W -> Settled MailFolder * W)
    (name : string) : Prop :=
  forall rq w,
    match fst (graphAPI rq w) with
    | inl _ => True
    | inr response =>
        (_filter (queryParams rq) <> None -> hasItems response = false)
        /\ Forall (otherName name) (items response)
    end.

(** A remote without any folder. *)
Definition noFolders (rq : Request) (w : unit) : Settled MailFolder * unit :=
  (inr (page []), w).

(** A remote whose calls all fail. *)
Definition unreachable (rq : Request) (w : unit) : Settled MailFolder * unit :=
  (inl (mkError "Network error during API call: ECONNREFUSED"), w).


(** * The rest of the Graph client and of the e-mail tools *)

(** ** Pagination ([api.ts], [callGraphAPIPaginated]) *)

Module Api.

Section Pagination.

Context {W T : Type}.

(** What one [callGraphAPI] call settles with, in a given state of the
    remote. *)
Variable graph : Request -> W -> Settled T * W.

(** [maxCount > 0 ? allItems.slice(0, maxCount) : allItems] *)
Definition finalItems (maxCount : Js.Number) (allItems : list T) : list T :=
  if Js.isPositive maxCount then Js.slice maxCount allItems else allItems.

(** The object [callGraphAPIPaginated] returns. *)
Definition finish (maxCount : Js.Number) (allItems : list T) : Settled T :=
  inr (mkResponse (Some (finalItems maxCount allItems))
         (Some (Z.of_nat (length (finalItems maxCount allItems)))) None).

(** The [do ... while (nextLink)] loop, one iteration per unit of fuel;
    [None] when the fuel runs out before the loop ends.  A rejection of
    [callGraphAPI] leaves the loop through [catch (error) { throw error }]. *)
Fixpoint paginate (fuel : nat) (accessToken method currentUrl : string)
    (currentParams : QueryParams) (maxCount : Js.Number)
    (extraHeaders : list (string * string)) (allItems : list T) (w : W)
  : option (Settled T * W) :=
  match fuel with
  | O => None
  | S fuel' =>
      match graph (mkRequest accessToken method currentUrl currentParams
                     extraHeaders) w with
      | (inl error, w') => Some (inl error, w')
      | (inr response, w') =>
          let allItems :=
            match value response with
            | Some v => (allItems ++ v)%list
            | None => allItems
            end in
          if Js.isPositive maxCount && Js.reached (length allItems) maxCount
          then Some (finish maxCount allItems, w')
          else
            let nextLink := odata_nextLink response in
            if Js.truthy nextLink
            then paginate fuel' accessToken method (the nextLink) emptyParams
                   maxCount extraHeaders allItems w'
            else Some (finish maxCount allItems, w')
      end
  end.

(** [callGraphAPIPaginated(accessToken, method, apiPath, queryParams,
    maxCount, extraHeaders)], for any number [maxCount]. *)
Definition callGraphAPIPaginated (fuel : nat) (accessToken method apiPath : string)
    (queryParams : QueryParams) (maxCount : Js.Number)
    (extraHeaders : list (string * string)) (w : W)
  : option (Settled T * W) :=
  paginate fuel accessToken method apiPath queryParams maxCount extraHeaders [] w.

End Pagination.

(** A remote that also records the page requests it receives and what
    they settle with, oldest first. *)
Definition recording {W T} (graph : Request -> W -> Settled T * W)
  : Request -> W * list (Request * Settled T)
    -> Settled T * (W * list (Request * Settled T)) :=
  fun rq s =>
    let (res, w') := graph rq (fst s) in
    (res, (w', (snd s ++ [(rq, res)])%list)).

(** The items of the fulfilled pages of a record, in order. *)
Definition pagesOf {T} (log : list (Request * Settled T)) : list T :=
  concat (map (fun v => match snd v with
                        | inr response => items response
                        | inl _ => []
                        end) log).

(** A record in which the first request is for [url] with [params], and
    each further request is for the [nextLink] of the response before it,
    without parameters; token, method and headers are those given. *)
Fixpoint chained {T} (accessToken method : string)
    (extraHeaders : list (string * string)) (url : string) (params : QueryParams)
    (log : list (Request * Settled T)) : Prop :=
  match log with
  | [] => True
  | (rq, res) :: rest =>
      rq = mkRequest accessToken method url params extraHeaders
      /\ match rest with
         | [] => True
         | _ :: _ =>
             exists response,
               res = inr response
               /\ Js.truthy (odata_nextLink response) = true
               /\ chained accessToken method extraHeaders
                    (the (odata_nextLink response)) emptyParams rest
         end
  end.

End Api.

(** A remote whose every page holds one item and a link to a next page. *)
Definition endlessPages {T} (x : T) (rq : Request) (w : unit) : Settled T * unit :=
  (inr (mkResponse (Some [x]) None (Some "https://graph.microsoft.com/v1.0/next")),
   w).

(** A visit whose call was fulfilled. *)
Definition fulfilled {T} (v : Request * Settled T) : Prop :=
  exists response, snd v = inr response.

(** A remote that answers the successive page requests with the
    successive entries of a script, and with a network error once the
    script is exhausted. *)
Definition replay {T} (rq : Request) (script : list (Settled T))
  : Settled T * list (Settled T) :=
  match script with
  | r :: rest => (r, rest)
  | [] => (inl (mkError "Network error during API call: script exhausted"), [])
  end.

(** A page of items with a link to a next page. *)
Definition linkedPage {T} (l : list T) (next : string) : GraphAPIResponse T :=
  mkResponse (Some l) None (Some next).

Definition listParams : QueryParams :=
  mkQueryParams (Some 50%Z) (Some EMAIL_SELECT_FIELDS) (Some "receivedDateTime desc")
    None None None.

(** What the log records about a paginated call satisfies [P]. *)
Definition eventHolds (P : PagedRequest -> Settled Mail.Email -> Prop) (e : Event)
  : Prop :=
  match e with
  | EvPaged rq res => P rq res
  | EvCall _ _ => True
  end.

(** A remote whose every listing is the single page [l]. *)
Definition singlePage {T} (l : list T) (rq : Request) (w : unit) : Settled T * unit :=
  (inr (page l), w).

(** A fulfilled response that is a list of at most [maxCount] items (when
    [maxCount] is positive) with its length as [@odata.count]. *)
Definition withinCount (rq : PagedRequest) (res : Settled Mail.Email) : Prop :=
  match res with
  | inr r =>
      exists l,
        r = mkResponse (Some l) (Some (Z.of_nat (length l))) None
        /\ ((0 < maxCount rq)%Z -> (Z.of_nat (length l) <= maxCount rq)%Z)
  | inl _ => True
  end.

(** ** Token management ([api.ts]) *)

Module Tokens.

(** [interface TokenData], as it comes out of [JSON.parse]: any property
    may be missing. *)
Record TokenData := mkTokenData {
  access_token : option string;
  refresh_token : option string;
  expires_at : option Z;
  token_type : option string;
  scope : option string
}.

(** The token file: missing, present without holding a JSON object (it
    cannot be read or parsed, or it parses to something that is not an
    object), or holding an object. *)
Inductive TokenFile :=
| NoFile
| Garbage
| Stored (tokens : TokenData).

(** The module variable [cachedTokens], the token file, and what
    [fs.writeFileSync] does to the file: [None] when writing works, [Some f]
    when it throws and leaves the file as [f]. *)
Record Store := mkStore {
  cachedTokens : option TokenData;
  tokenFile : TokenFile;
  writeFails : option TokenFile
}.

(** Truthiness of an optional number. *)
Definition truthyNumber (o : option Z) : bool :=
  match o with
  | Some n => negb (Z.eqb n 0)
  | None => false
  end.

(** [tokens.expires_at && now > tokens.expires_at] *)
Definition expired (now : Z) (tokens : TokenData) : bool :=
  truthyNumber (expires_at tokens)
  && match expires_at tokens with
     | Some e => Z.ltb e now
     | None => false
     end.

(** [loadTokens()], when [Date.now()] reads [now].  Every exception is
    caught and gives [null]. *)
Definition loadTokens (now : Z) (s : Store) : option TokenData * Store :=
  match tokenFile s with
  | NoFile => (None, s)
  | Garbage => (None, s)
  | Stored tokens =>
      if negb (Js.truthy (access_token tokens)) then (None, s)
      else if expired now tokens then (None, s)
      else (Some tokens, mkStore (Some tokens) (tokenFile s) (writeFails s))
  end.

(** [saveTokens(tokens)] *)
Definition saveTokens (tokens : TokenData) (s : Store) : bool * Store :=
  match writeFails s with
  | None => (true, mkStore (Some tokens) (Stored tokens) (writeFails s))
  | Some remains => (false, mkStore (cachedTokens s) remains (writeFails s))
  end.

(** [getAccessToken()], when [Date.now()] reads [now]. *)
Definition getAccessToken (now : Z) (s : Store) : option string * Store :=
  match cachedTokens s with
  | Some cached =>
      if Js.truthy (access_token cached)
      then
        if expired now cached
        then (None, mkStore None (tokenFile s) (writeFails s))
        else (access_token cached, s)
      else
        let (tokens, s') := loadTokens now s in
        (match tokens with Some t => access_token t | None => None end, s')
  | None =>
      let (tokens, s') := loadTokens now s in
      (match tokens with Some t => access_token t | None => None end, s')
  end.

(** [ensureAuthenticated()] *)
Definition ensureAuthenticated (now : Z) (s : Store) : (JsError + string) * Store :=
  let (accessToken, s') := getAccessToken now s in
  if negb (Js.truthy accessToken)
  then (inl (mkError "Authentication required"), s')
  else (inr (the accessToken), s').

End Tokens.

(** A token that expires at the given time. *)
Definition sampleToken (a : string) (e : Z) : Tokens.TokenData :=
  Tokens.mkTokenData (Some a) None (Some e) (Some "Bearer") None.

(** ** Vocabulary of the folder listings *)

(** The request of a [callGraphAPI] call of the log. *)
Definition callRequestOf (e : Event) : option Request :=
  match e with
  | EvCall rq _ => Some rq
  | EvPaged _ _ => None
  end.

(** The folders a [callGraphAPI] call of the log delivered: none when it
    was rejected or carried no [value]. *)
Definition callItemsOf (e : Event) : list MailFolder :=
  match e with
  | EvCall _ (inr response) => items response
  | _ => []
  end.

(** The request [getAllFolders] lists the top-level folders with. *)
Definition topLevelRequest (accessToken : string) : Request :=
  mkRequest accessToken "GET" "me/mailFolders"
    (mkQueryParams (Some 100%Z)
       (Some "id,displayName,parentFolderId,childFolderCount,totalItemCount,unreadItemCount")
       None None None None) [].

(** The request [getAllFolders] lists the children of a folder with. *)
Definition childFoldersRequest (accessToken : string) (parent : MailFolder) : Request :=
  mkRequest accessToken "GET" ("me/mailFolders/" ++ id parent ++ "/childFolders")
    (mkQueryParams None
       (Some "id,displayName,parentFolderId,childFolderCount,totalItemCount,unreadItemCount")
       None None None None) [].

(** A folder that some fulfilled call of the log delivered. *)
Definition deliveredBy (es : list Event) (f : MailFolder) : Prop :=
  exists rq response, In (EvCall rq (inr response)) es /\ In f (items response).

Definition sampleFolder (i name : string) (children : Z) : MailFolder :=
  mkMailFolder i name None children None None.

(** A mailbox with the top-level folders [Inbox] and [Projects], the
    second with the child [Invoices]: the remote answers the three kinds of
    listing that folder resolution issues. *)
Definition sampleMailbox (rq : Request) (w : unit) : Settled MailFolder * unit :=
  if String.eqb (apiPath rq) "me/mailFolders"
  then match _filter (queryParams rq) with
       | Some _ => (inr (page []), w)
       | None => (inr (page [sampleFolder "id-inbox" "Inbox" 0;
                             sampleFolder "id-projects" "Projects" 1]), w)
       end
  else if String.eqb (apiPath rq) "me/mailFolders/id-projects/childFolders"
       then (inr (page [sampleFolder "id-invoices" "Invoices" 0]), w)
       else (rejectedWith 404, w).

(** What justifies that [getFolderIdByName] returns the id of [f] for
    [name], among the calls [es]: a listing delivered [f] and its display
    name is [name] up to case, or [f] is the first folder of the listing
    that the server filtered on [name]. *)
Definition resolves {engine : Engine} (name : string) (es : list Event) (f : MailFolder) : Prop :=
  (deliveredBy es f /\ toLowerCase (displayName f) = toLowerCase name)
  \/ (exists rq response rest,
         In (EvCall rq (inr response)) es
         /\ _filter (queryParams rq) = Some ("displayName eq '" ++ name ++ "'")
         /\ value response = Some (f :: rest)).

(** ** The URL of a request ([callGraphAPI], [api.ts])

    A string is read here as the bytes of its UTF-8 encoding, which is
    what [encodeURIComponent] and [URLSearchParams] escape. *)

Module Url.

Definition GRAPH_API_ENDPOINT : string := "https://graph.microsoft.com/v1.0/".

Definition isAlphaNum (c : ascii) : bool :=
  let n := nat_of_ascii c in
  (Nat.leb 48 n && Nat.leb n 57)
  || (Nat.leb 65 n && Nat.leb n 90)
  || (Nat.leb 97 n && Nat.leb n 122).

(** The characters that [encodeURIComponent] leaves as they are. *)
Definition uriUnreserved (c : ascii) : bool :=
  isAlphaNum c
  || existsb (Ascii.eqb c) ["-"; "_"; "."; "!"; "~"; "*"; "'"; "("; ")"]%char.

(** The characters that the serializer of [URLSearchParams] leaves as
    they are; it writes a space as [+]. *)
Definition formUnreserved (c : ascii) : bool :=
  isAlphaNum c || existsb (Ascii.eqb c) ["*"; "-"; "."; "_"]%char.

Definition hexDigit (n : nat) : ascii :=
  if Nat.ltb n 10 then ascii_of_nat (48 + n) else ascii_of_nat (55 + n).

(** The escape [%XY] of a byte. *)
Definition percentEncode (c : ascii) : string :=
  let n := nat_of_ascii c in
  String "%" (String (hexDigit (n / 16)) (String (hexDigit (n mod 16)) EmptyString)).

(** [encodeURIComponent(s)] *)
Fixpoint encodeURIComponent (s : string) : string :=
  match s with
  | EmptyString => EmptyString
  | String c rest =>
      (if uriUnreserved c then String c EmptyString else percentEncode c)
      ++ encodeURIComponent rest
  end.

(** A name or a value as [URLSearchParams.prototype.toString] writes it. *)
Fixpoint formEncode (s : string) : string :=
  match s with
  | EmptyString => EmptyString
  | String c rest =>
      (if Ascii.eqb c " " then "+"
       else if formUnreserved c then String c EmptyString
       else percentEncode c)
      ++ formEncode rest
  end.

(** [params.toString()] for the pairs appended to [params], in order. *)
Definition searchParamsToString (params : list (string * string)) : string :=
  Js.join "&" (map (fun kv => formEncode (fst kv) ++ "=" ++ formEncode (snd kv)) params).

(** [s.split(sep)] for a separator of one character. *)
Fixpoint split (sep : ascii) (s : string) : list string :=
  match s with
  | EmptyString => [EmptyString]
  | String c rest =>
      if Ascii.eqb c sep then EmptyString :: split sep rest
      else match split sep rest with
           | segment :: segments => String c segment :: segments
           | [] => [String c EmptyString]
           end
  end.

(** A value of [interface QueryParams]: [string | number | boolean |
    undefined]. *)
Inductive ParamValue :=
| PString (s : string)
| PNumber (n : Js.Number)
| PBoolean (b : bool)
| PUndefined.

Section Building.

Context {engine : Engine}.

(** [String(value)]; the digits of a finite number are the engine's. *)
Definition toString (value : ParamValue) : string :=
  match value with
  | PString s => s
  | PNumber (Js.Finite q) => numberToString q
  | PNumber Js.NaN => "NaN"
  | PNumber (Js.Infinity false) => "Infinity"
  | PNumber (Js.Infinity true) => "-Infinity"
  | PBoolean true => "true"
  | PBoolean false => "false"
  | PUndefined => "undefined"
  end.

(** Truthiness of a value. *)
Definition truthyParam (value : ParamValue) : bool :=
  match value with
  | PString s => negb (String.eqb s EmptyString)
  | PNumber n => Js.truthyNumber n
  | PBoolean b => b
  | PUndefined => false
  end.

(** A [queryParams] object as [Object.entries] lists it: its own
    properties in order, each key once, a property whose value is
    [undefined] included. *)
Definition Params : Type := list (string * ParamValue).

(** [queryParams[key]] *)
Definition getParam (queryParams : Params) (key : string) : ParamValue :=
  match find (fun kv => String.eqb (fst kv) key) queryParams with
  | Some kv => snd kv
  | None => PUndefined
  end.

(** The object after [delete queryParams[key]]. *)
Definition deleteParam (queryParams : Params) (key : string) : Params :=
  filter (fun kv => negb (String.eqb (fst kv) key)) queryParams.

(** The pairs that the loop over [Object.entries(paramsWithoutFilter)]
    appends to [params]. *)
Definition appended (paramsWithoutFilter : Params) : list (string * string) :=
  flat_map (fun kv =>
              match snd kv with
              | PUndefined => []
              | value => [(fst kv, toString value)]
              end) paramsWithoutFilter.

Definition nonEmpty (s : string) : bool := negb (String.eqb s EmptyString).

(** [encodedPath] *)
Definition encodePath (apiPath : string) : string :=
  Js.join "/" (map encodeURIComponent (split "/" apiPath)).

(** [queryString], at the point where [finalUrl] is assembled. *)
Definition queryStringOf (queryParams : Params) : string :=
  match queryParams with
  | [] => EmptyString
  | _ :: _ =>
      let filter := getParam queryParams "$filter" in
      let paramsWithoutFilter :=
        match filter with
        | PUndefined => queryParams
        | _ => deleteParam queryParams "$filter"
        end in
      let queryString := searchParamsToString (appended paramsWithoutFilter) in
      let queryString :=
        if truthyParam filter
        then if nonEmpty queryString
             then queryString ++ "&$filter=" ++ encodeURIComponent (toString filter)
             else "$filter=" ++ encodeURIComponent (toString filter)
        else queryString in
      if nonEmpty queryString then "?" ++ queryString else queryString
  end.

(** [finalUrl]: the URL that [callGraphAPI] requests. *)
Definition finalUrl (apiPath : string) (queryParams : Params) : string :=
  if String.prefix "http://" apiPath || String.prefix "https://" apiPath
  then apiPath
  else GRAPH_API_ENDPOINT ++ encodePath apiPath ++ queryStringOf queryParams.

End Building.

End Url.

(** Whether all characters of a string satisfy a test. *)
Fixpoint allChars (p : ascii -> bool) (s : string) : bool :=
  match s with
  | EmptyString => true
  | String c rest => p c && allChars p rest
  end.

(** The characters that [callGraphAPI] puts after the base of a URL it
    builds: letters, digits, the marks that the two encodings keep, the
    escape sign, and the separators of the path and of the query. *)
Definition urlSafe (c : ascii) : bool :=
  Url.uriUnreserved c
  || existsb (Ascii.eqb c) ["%"; "/"; "?"; "&"; "="; "+"; "$"]%char.

(** The path that [handleReadEmail] and [handleMarkAsRead] pass on for a
    message id ([email.ts]). *)
Definition messagePath (id : string) : string :=
  "me/messages/" ++ Url.encodeURIComponent id.

(** The path that [handleMoveEmails] passes on for a message id
    ([folders.ts]). *)
Definition movePath (emailId : string) : string :=
  "me/messages/" ++ emailId ++ "/move".

(** The parameters of the sender strategy of [progressiveSearch] for ten
    messages of [a@b.com], as the object literal lists them. *)
Definition senderParams : Url.Params :=
  [ ("$top", Url.PNumber (Js.integer 10));
    ("$select", Url.PString EMAIL_SELECT_FIELDS);
    ("$filter", Url.PString "sender/emailAddress/address eq 'a@b.com'");
    ("$count", Url.PString "true") ].

(** The characters that the two encodings produce. *)
Definition componentChar (c : ascii) : bool :=
  Url.uriUnreserved c || Ascii.eqb c "%" || Ascii.eqb c "+".

(** The characters of a query string after its question mark. *)
Definition queryChar (c : ascii) : bool :=
  componentChar c || existsb (Ascii.eqb c) ["&"; "="; "$"]%char.

(** A pair of a query string as [URLSearchParams] writes it. *)
Definition pairText (kv : string * string) : string :=
  Url.formEncode (fst kv) ++ "=" ++ Url.formEncode (snd kv).

(** ** The replies of the search ([formatSearchResults], [email.ts]) *)

Definition newline : string := String (ascii_of_nat 10) EmptyString.

(** [xs.map((x, index) => f(x, index))], from the index [index]. *)
Fixpoint mapIndexed {A B} (f : A -> nat -> B) (index : nat) (xs : list A) : list B :=
  match xs with
  | [] => []
  | x :: rest => f x index :: mapIndexed f (S index) rest
  end.

Section Replies.

(** [new Date(s).toLocaleString()]: what it gives depends on the locale
    and the time zone of the process. *)
Variable toLocaleString : string -> string.

(** The arrow function mapped over the messages. *)
Definition emailLine (email : Mail.Email) (index : nat) : string :=
  let sender :=
    match Mail.from email with
    | Some recipient => Mail.emailAddress recipient
    | None => Mail.mkEmailAddress "Unknown" "unknown"
    end in
  let date := toLocaleString (Mail.receivedDateTime email) in
  let readStatus := if Mail.isRead email then EmptyString else "[UNREAD] " in
  decimal (Z.of_nat index + 1) ++ ". " ++ readStatus ++ date ++ " - From: "
    ++ Mail.name sender ++ " (" ++ Mail.address sender ++ ")" ++ newline
    ++ "Subject: " ++ Mail.subject email ++ newline
    ++ "ID: " ++ Mail.id email.

Definition emailList (emails : list Mail.Email) : string :=
  Js.join (newline ++ newline) (mapIndexed emailLine 0 emails).

(** [formatSearchResults(response)]: the text of the one item of
    [content]. *)
Definition formatSearchResults (r : SearchResponse) : string :=
  match value (response r) with
  | Some (first :: others) =>
      let additionalInfo :=
        match _searchInfo r with
        | Some info =>
            let lastStrategy := last (strategies info) "undefined" in
            newline ++ "(Search used " ++ lastStrategy ++ " strategy)"
        | None => EmptyString
        end in
      "Found " ++ decimal (Z.of_nat (length (first :: others)))
        ++ " emails matching your search criteria:" ++ additionalInfo
        ++ newline ++ newline ++ emailList (first :: others)
  | _ =>
      let searchFailed :=
        match _searchInfo r with
        | Some info => match failed info with Some b => b | None => false end
        | None => false
        end in
      if searchFailed
      then "No emails found matching your search criteria. The search may have failed - try a simpler query or use list-emails to browse the folder."
      else "No emails found matching your search criteria."
  end.

End Replies.

(** ** Moving messages ([handleMoveEmails], [folders.ts]) *)

(** [try { body } catch (error) { handler }], the handler using the
    error. *)
Definition try_catch_with {G L R A} (body : M G L R A)
    (handler : JsError -> M G L R A) : M G L R A :=
  fun s =>
    match body s with
    | (Throw error, s') => handler error s'
    | other => other
    end.

Module Move.

(** The arguments of the tool ([moveEmailsSchema]). *)
Record Args := mkArgs {
  emailIds : string;
  targetFolder : string;
  sourceFolder : option string
}.

(** The [callGraphAPI] call that moves one message: its token, its path
    and the [destinationId] of its body. *)
Record Post := mkPost {
  postToken : string;
  postPath : string;
  destinationId : string
}.

(** The object [results]: the ids moved, and the ids not moved, each with
    the message of its error. *)
Record Results := mkResults {
  successful : list string;
  failed : list (string * string)
}.

(** The lines that the loop over the first failures adds to the
    message. *)
Definition failureLines (failures : list (string * string)) : string :=
  String.concat EmptyString
    (mapIndexed (fun failure i =>
                   newline ++ "- Email " ++ decimal (Z.of_nat i + 1) ++ ": "
                     ++ snd failure)
       0 failures).

(** The message built from [results]. *)
Definition resultMessage (targetFolder : string) (results : Results) : string :=
  let message := EmptyString in
  let message :=
    if Nat.ltb 0 (length (successful results))
    then message ++ "Successfully moved "
           ++ decimal (Z.of_nat (length (successful results)))
           ++ " email(s) to " ++ Js.dquote ++ targetFolder ++ Js.dquote ++ "."
    else message in
  if Nat.ltb 0 (length (failed results))
  then
    let message :=
      if negb (String.eqb message EmptyString)
      then message ++ newline ++ newline
      else message in
    let message :=
      message ++ "Failed to move " ++ decimal (Z.of_nat (length (failed results)))
        ++ " email(s). Errors:" in
    let maxErrors := Nat.min (length (failed results)) 3 in
    let message := message ++ failureLines (firstn maxErrors (failed results)) in
    if Nat.ltb maxErrors (length (failed results))
    then message ++ newline ++ "...and "
           ++ decimal (Z.of_nat (length (failed results) - maxErrors)) ++ " more."
    else message
  else message.

Section Handler.

Context {engine : Engine}.
Context {W : Type}.
Variable graphAPI : Request -> W -> Settled MailFolder * W.

(** How the call that moves a message settles; what it is fulfilled with
    is not used. *)
Variable graphPost : Post -> W -> (JsError + unit) * W.

(** [String.prototype.trim] *)
Variable trim : string -> string.

(** What the handler works on: the token store, the remote with the log
    of the folder listings, and the log of the moves posted. *)
Record Desk := mkDesk {
  store : Tokens.Store;
  net : @Net W;
  posted : list (Post * (JsError + unit))
}.

Definition ensureAuthenticated (now : Z) (d : Desk) : (JsError + string) * Desk :=
  let (res, s') := Tokens.ensureAuthenticated now (store d) in
  (res, mkDesk s' (net d) (posted d)).

Definition folderIdByName (accessToken folderName : string) (d : Desk)
  : (JsError + option string) * Desk :=
  let (res, g') := getFolderIdByName graphAPI accessToken folderName (net d) in
  (res, mkDesk (store d) g' (posted d)).

(** [callGraphAPI(accessToken, "POST", apiPath, { destinationId })] *)
Definition postMove (accessToken apiPath targetFolderId : string) (d : Desk)
  : (JsError + unit) * Desk :=
  let rq := mkPost accessToken apiPath targetFolderId in
  let (res, w') := graphPost rq (world (net d)) in
  (res, mkDesk (store d) (mkNet w' (calls (net d))) (posted d ++ [(rq, res)])%list).

(** [args.emailIds.split(",").map((id) => id.trim()).filter((id) => id)] *)
Definition idsOf (args : Args) : list string :=
  filter (fun id => negb (String.eqb id EmptyString))
    (map trim (Url.split "," (emailIds args))).

Local Open Scope js_scope.

(** The body of the [for] loop over the ids. *)
Definition moveOne (accessToken targetFolderId emailId : string)
  : M Desk Results string unit :=
  try_catch_with
    (await (postMove accessToken (movePath emailId) targetFolderId) ;;
     modifyLocals (fun results =>
                     mkResults (successful results ++ [emailId])%list
                       (failed results)))
    (fun error =>
       modifyLocals (fun results =>
                       mkResults (successful results)
                         (failed results ++ [(emailId, message error)])%list)).

(** [handleMoveEmails(args)], when [Date.now()] reads [now]: the text of
    the one item of [content]. *)
Definition handleMoveEmails (now : Z) (args : Args)
  : Desk -> (JsError + string) * Desk :=
  run (try_catch_with
         (when (String.eqb (emailIds args) EmptyString)
            (return_ "Email IDs are required. Please provide a comma-separated list of email IDs to move.") ;;
          when (String.eqb (targetFolder args) EmptyString)
            (return_ "Target folder name is required.") ;;
          accessToken <- await (ensureAuthenticated now) ;;
          let ids := idsOf args in
          when (Nat.eqb (length ids) 0)
            (return_ "No valid email IDs provided.") ;;
          targetFolderId <- await (folderIdByName accessToken (targetFolder args)) ;;
          when (negb (Js.truthy targetFolderId))
            (return_ ("Target folder " ++ Js.dquote ++ targetFolder args ++ Js.dquote
                        ++ " not found. Please specify a valid folder name.")) ;;
          for_of ids (moveOne accessToken (the targetFolderId)) ;;
          results <- getLocals ;;
          return_ (resultMessage (targetFolder args) results))
         (fun error =>
            if String.eqb (message error) "Authentication required"
            then return_ "Authentication required. Please use the 'authenticate' tool first."
            else return_ ("Error moving emails: " ++ message error))
       : Body Desk Results string)
    (mkResults [] []).

End Handler.

(** What the outcomes of the moves, in order, make of [results]. *)
Fixpoint tally (outcomes : list (string * (JsError + unit))) (results : Results)
  : Results :=
  match outcomes with
  | [] => results
  | (emailId, inr _) :: rest =>
      tally rest (mkResults (successful results ++ [emailId])%list (failed results))
  | (emailId, inl error) :: rest =>
      tally rest (mkResults (successful results)
                    (failed results ++ [(emailId, message error)])%list)
  end.

(** The call that moves the message [emailId] to the folder
    [targetFolderId]. *)
Definition postFor (accessToken targetFolderId emailId : string) : Post :=
  mkPost accessToken (movePath emailId) targetFolderId.

End Move.

(** A remote that moves every message but [m2]. *)
Definition samplePost (rq : Move.Post) (w : unit) : (JsError + unit) * unit :=
  if String.eqb (Move.postPath rq) (movePath "m2")
  then (inl (mkError "API call failed with status 404: "), w)
  else (inr tt, w).

(** A desk whose store holds the access token [token], valid until 9000. *)
Definition sampleDesk : @Move.Desk unit :=
  Move.mkDesk (Tokens.mkStore (Some (sampleToken "token" 9000)) Tokens.NoFile None)
    (start tt) [].

(** A desk without any token. *)
Definition emptyDesk : @Move.Desk unit :=
  Move.mkDesk (Tokens.mkStore None Tokens.NoFile None) (start tt) [].

(** ** The folders of the listing tool ([getAllFoldersHierarchy],
    [folders.ts]) *)

(** A folder as [getAllFoldersHierarchy] returns it: the object of the
    response with the property [isTopLevel] or [parentFolder] that the
    function adds. *)
Record FolderEntry := mkFolderEntry {
  folder : MailFolder;
  isTopLevel : option bool;
  parentFolder : option string
}.

Section Hierarchy.

Context {W : Type}.
Variable graphAPI : Request -> W -> Settled MailFolder * W.

Local Open Scope js_scope.

Definition selectFieldsFor (includeItemCounts : bool) : string :=
  if includeItemCounts
  then "id,displayName,parentFolderId,childFolderCount,totalItemCount,unreadItemCount"
  else "id,displayName,parentFolderId,childFolderCount".

(** The [async (folder) => ...] mapped over the folders that have
    children. *)
Definition childEntriesOf (selectFields accessToken : string) (parent : MailFolder)
  : @Net W -> (JsError + list FolderEntry) * @Net W :=
  run (try_catch
         (childResponse <- await (callGraphAPI graphAPI accessToken "GET"
                                    ("me/mailFolders/" ++ id parent ++ "/childFolders")
                                    (mkQueryParams None (Some selectFields)
                                       None None None None) []) ;;
          let childFolders :=
            match value childResponse with
            | Some l => l
            | None => []
            end in
          return_ (map (fun child =>
                          mkFolderEntry child None (Some (displayName parent)))
                     childFolders))
         (return_ []) : Body Net unit (list FolderEntry)) tt.

Definition getAllFoldersHierarchy (accessToken : string) (includeItemCounts : bool)
  : @Net W -> (JsError + list FolderEntry) * @Net W :=
  run (try_catch
         (let selectFields := selectFieldsFor includeItemCounts in
          response <- await (callGraphAPI graphAPI accessToken "GET" "me/mailFolders"
                               (mkQueryParams (Some 100%Z) (Some selectFields)
                                  None None None None) []) ;;
          match value response with
          | None => return_ []
          | Some folders =>
              let foldersWithChildren :=
                filter (fun f => Z.ltb 0 (childFolderCount f)) folders in
              childFolders <- map_all
                                (fun parent =>
                                   await (childEntriesOf selectFields accessToken parent))
                                foldersWithChildren ;;
              let allChildFolders := concat childFolders in
              let topLevelFolders :=
                map (fun f => mkFolderEntry f (Some true) None) folders in
              return_ (topLevelFolders ++ allChildFolders)%list
          end)
         (throw (mkError "Failed to retrieve folders"))
       : Body Net unit (list FolderEntry)) tt.

End Hierarchy.

(** The entries made of the children that the listing [e] delivered for
    the folder [parent]. *)
Definition childEntries (parent : MailFolder) (e : Event) : list FolderEntry :=
  map (fun child => mkFolderEntry child None (Some (displayName parent)))
    (callItemsOf e).

(** The request that lists the children of a folder, for the given
    fields. *)
Definition childEntriesRequest (selectFields accessToken : string) (parent : MailFolder)
  : Request :=
  mkRequest accessToken "GET" ("me/mailFolders/" ++ id parent ++ "/childFolders")
    (mkQueryParams None (Some selectFields) None None None None) [].

(** An entry of a child folder of one of the folders [parents]: it is not
    flagged as top-level and names its parent. *)
Definition childOf (parents : list MailFolder) (entry : FolderEntry) : Prop :=
  isTopLevel entry = None
  /\ exists parent,
       In parent parents
       /\ (0 < childFolderCount parent)%Z
       /\ parentFolder entry = Some (displayName parent).

(** The request that lists the top-level folders, for the given fields. *)
Definition topEntriesRequest (selectFields accessToken : string) : Request :=
  mkRequest accessToken "GET" "me/mailFolders"
    (mkQueryParams (Some 100%Z) (Some selectFields) None None None None) [].

(** ** Creating a folder ([handleCreateFolder], [folders.ts]) *)

Module Create.

(** The arguments of the tool ([createFolderSchema]). *)
Record Args := mkArgs {
  name : string;
  parentFolder : option string
}.

(** The [callGraphAPI] call that creates the folder: its token, its path
    and the [displayName] of its body. *)
Record Post := mkPost {
  postToken : string;
  postPath : string;
  displayName : string
}.

Section Handler.

Context {engine : Engine}.
Context {W : Type}.
Variable graphAPI : Request -> W -> Settled MailFolder * W.

(** How the call that creates a folder settles.  Of what it is fulfilled
    with the handler reads [response && response.id]: the [id] of the
    response, [None] when the response is [null] or holds no [id]. *)
Variable graphPost : Post -> W -> (JsError + option string) * W.

(** What the handler works on: the token store, the remote with the log
    of the folder listings, and the log of the folders posted. *)
Record Desk := mkDesk {
  store : Tokens.Store;
  net : @Net W;
  posted : list (Post * (JsError + option string))
}.

Definition ensureAuthenticated (now : Z) (d : Desk) : (JsError + string) * Desk :=
  let (res, s') := Tokens.ensureAuthenticated now (store d) in
  (res, mkDesk s' (net d) (posted d)).

Definition folderIdByName (accessToken folderName : string) (d : Desk)
  : (JsError + option string) * Desk :=
  let (res, g') := getFolderIdByName graphAPI accessToken folderName (net d) in
  (res, mkDesk (store d) g' (posted d)).

(** [callGraphAPI(accessToken, "POST", endpoint, { displayName })] *)
Definition postFolder (accessToken endpoint folderName : string) (d : Desk)
  : (JsError + option string) * Desk :=
  let rq := mkPost accessToken endpoint folderName in
  let (res, w') := graphPost rq (world (net d)) in
  (res, mkDesk (store d) (mkNet w' (calls (net d))) (posted d ++ [(rq, res)])%list).

Local Open Scope js_scope.

(** [handleCreateFolder(args)], when [Date.now()] reads [now]: the text
    of the one item of [content].  The mutable local is [endpoint]. *)
Definition handleCreateFolder (now : Z) (args : Args)
  : Desk -> (JsError + string) * Desk :=
  run (try_catch_with
         (when (String.eqb (name args) EmptyString)
            (return_ "Folder name is required.") ;;
          accessToken <- await (ensureAuthenticated now) ;;
          existingFolder <- await (folderIdByName accessToken (name args)) ;;
          when (Js.truthy existingFolder)
            (return_ ("A folder named " ++ Js.dquote ++ name args ++ Js.dquote
                        ++ " already exists.")) ;;
          when (Js.truthy (parentFolder args))
            (parentId <- await (folderIdByName accessToken (the (parentFolder args))) ;;
             when (negb (Js.truthy parentId))
               (return_ ("Parent folder " ++ Js.dquote ++ the (parentFolder args)
                           ++ Js.dquote
                           ++ " not found. Please specify a valid parent folder or leave it blank to create at the root level.")) ;;
             modifyLocals (fun _ => "me/mailFolders/" ++ the parentId ++ "/childFolders")) ;;
          endpoint <- getLocals ;;
          response <- await (postFolder accessToken endpoint (name args)) ;;
          if Js.truthy response
          then
            let locationInfo :=
              if Js.truthy (parentFolder args)
              then "inside " ++ Js.dquote ++ the (parentFolder args) ++ Js.dquote
              else "at the root level" in
            return_ ("Successfully created folder " ++ Js.dquote ++ name args
                       ++ Js.dquote ++ " " ++ locationInfo ++ ".")
          else
            return_ "Failed to create folder. The server didn't return a folder ID.")
         (fun error =>
            if String.eqb (message error) "Authentication required"
            then return_ "Authentication required. Please use the 'authenticate' tool first."
            else return_ ("Error creating folder: " ++ message error))
       : Body Desk string string)
    "me/mailFolders".

End Handler.

(** The text that reports the creation, by what the call settled with. *)
Definition creationReply (args : Args) (res : JsError + option string) : string :=
  match res with
  | inl error =>
      if String.eqb (message error) "Authentication required"
      then "Authentication required. Please use the 'authenticate' tool first."
      else "Error creating folder: " ++ message error
  | inr response =>
      if Js.truthy response
      then "Successfully created folder " ++ Js.dquote ++ name args ++ Js.dquote ++ " "
             ++ (if Js.truthy (parentFolder args)
                 then "inside " ++ Js.dquote ++ the (parentFolder args) ++ Js.dquote
                 else "at the root level")
             ++ "."
      else "Failed to create folder. The server didn't return a folder ID."
  end.

End Create.

(** A remote that creates every folder and answers with the id [id-new]. *)
Definition sampleCreate (rq : Create.Post) (w : unit)
  : (JsError + option string) * unit :=
  (inr (Some "id-new"), w).

(** A desk whose store holds the access token [token], valid until 9000. *)
Definition sampleCreateDesk : @Create.Desk unit :=
  Create.mkDesk (Tokens.mkStore (Some (sampleToken "token" 9000)) Tokens.NoFile None)
    (start tt) [].

(** ** An engine for the examples

    It folds the letters [A] to [Z] and writes a number as the decimal
    digits of its integer part: what JavaScript does to a string of ASCII
    characters and to an integer below 2^53, which is all that the
    examples hold.  Every closed example of this file is evaluated with
    it; no property stated for all inputs depends on it. *)
#[export] Instance sampleEngine : Engine := {|
  toLowerCase := Js.asciiLowerCase;
  numberToString := fun q => decimal (Qfloor q);
  toLowerCase_empty := eq_refl
|}.
(** * Properties *)

(** ** The code runs its strategy table *)

Section PlanRefinement.

Context {engine : Engine}.
Context {W : Type}.
Variable fetch : PagedRequest -> W -> Settled Mail.Email * W.

Lemma attemptAll_app {A} (p q : list Attempt) (k : M (@Net W) (list string) SearchResponse A) s :
  attemptAll fetch (p ++ q) k s = attemptAll fetch p (attemptAll fetch q k) s.
Proof.
  revert s; induction p as [|a p IH]; intros s; [reflexivity|].
  simpl. destruct (fst (fetch (paged a) (world (snd s)))) as [e|resp].
  - apply IH.
  - destruct (hasItems resp || terminal a); [reflexivity|apply IH].
Qed.

Ltac run_call :=
  cbv [bind try_catch push modifyLocals await callGraphAPIPaginated when
       getLocals return_ ret fst snd paged tag terminal world calls];
  match goal with
  | |- context [fetch ?rq ?w] =>
      destruct (fetch rq w) as [[?e|?resp] ?w'];
      [reflexivity| destruct (hasItems resp); reflexivity]
  end.

Lemma strategy1_plan {A} tok st ft mc (k : M (@Net W) (list string) SearchResponse A) s :
  bind (strategy1 fetch tok st ft mc) (fun _ => k) s
  = attemptAll fetch (plan1 tok st ft mc) k s.
Proof.
  unfold strategy1, plan1.
  destruct (Js.truthy (from st) && Js.includes "@" (the (from st)));
    [|reflexivity].
  destruct s as [sa g]. cbv [attemptAll]. run_call.
Qed.

Lemma strategy2_plan {A} ep tok st ft mc (k : M (@Net W) (list string) SearchResponse A) s :
  bind (strategy2 fetch ep tok st ft mc) (fun _ => k) s
  = attemptAll fetch (plan2 ep tok st ft mc) k s.
Proof.
  unfold strategy2, plan2.
  destruct (Js.truthy (subject st)); [|reflexivity].
  destruct s as [sa g]. cbv [attemptAll]. run_call.
Qed.

Lemma strategy3_plan {A} ep tok st ft mc (k : M (@Net W) (list string) SearchResponse A) s :
  bind (strategy3 fetch ep tok st ft mc) (fun _ => k) s
  = attemptAll fetch (plan3 ep tok st ft mc) k s.
Proof.
  unfold strategy3, plan3, kqlTermsOf. destruct s as [sa g].
  destruct (Js.truthy (query st)), (Js.truthy (subject st)),
    (Js.truthy (from st)), (Js.truthy (to st));
    cbv zeta; cbn [app length Nat.ltb Nat.leb];
    try reflexivity; cbv [attemptAll]; run_call.
Qed.

Lemma strategy4_term_plan {A} ep tok st ft mc term (k : M (@Net W) (list string) SearchResponse A) s :
  bind (when (Js.truthy (getTerm st term))
          (try_catch
             (bind (push ("kql-single-term-" ++ term)) (fun _ =>
              let simplifiedParams :=
                mkQueryParams (Some (Z.min 50 mc)) (Some EMAIL_SELECT_FIELDS)
                  (Some "receivedDateTime desc") None None None in
              let simplifiedParams :=
                if String.eqb term "query"
                then set_search simplifiedParams
                       (Js.dquote ++ the (getTerm st term) ++ Js.dquote)
                else set_search simplifiedParams
                       (term ++ ":" ++ Js.dquote ++ the (getTerm st term)
                             ++ Js.dquote) in
              let simplifiedParams := addBooleanFilters simplifiedParams ft in
              bind (await (callGraphAPIPaginated fetch tok "GET" ep
                             simplifiedParams mc [])) (fun response =>
              when (hasItems response)
                (bind getLocals (fun searchAttempts =>
                 return_ (mkSearchResponse response
                            (Some (mkSearchInfo searchAttempts None))))))))
             (ret tt)))
       (fun _ => k) s
  = attemptAll fetch (plan4_term ep tok st ft mc term) k s.
Proof.
  unfold plan4_term.
  destruct (Js.truthy (getTerm st term)); [|reflexivity].
  destruct s as [sa g]. cbv [attemptAll]. cbv zeta.
  replace (if String.eqb term "query"
           then set_search
                  (mkQueryParams (Some (Z.min 50 mc)) (Some EMAIL_SELECT_FIELDS)
                     (Some "receivedDateTime desc") None None None)
                  (Js.dquote ++ the (getTerm st term) ++ Js.dquote)
           else set_search
                  (mkQueryParams (Some (Z.min 50 mc)) (Some EMAIL_SELECT_FIELDS)
                     (Some "receivedDateTime desc") None None None)
                  (term ++ ":" ++ Js.dquote ++ the (getTerm st term) ++ Js.dquote))
    with (mkQueryParams (Some (Z.min 50 mc)) (Some EMAIL_SELECT_FIELDS)
            (Some "receivedDateTime desc") None
            (Some (if String.eqb term "query"
                   then Js.dquote ++ the (getTerm st term) ++ Js.dquote
                   else term ++ ":" ++ Js.dquote ++ the (getTerm st term)
                          ++ Js.dquote))
            None)
    by (destruct (String.eqb term "query"); reflexivity).
  run_call.
Qed.

Lemma bind_assoc {A B C} (m : M (@Net W) (list string) SearchResponse A) (f : A -> M (@Net W) (list string) SearchResponse B) (h : B -> M (@Net W) (list string) SearchResponse C) s :
  bind (bind m f) h s = bind m (fun a => bind (f a) h) s.
Proof.
  unfold bind. destruct (m s) as [[a|r|e] s']; reflexivity.
Qed.

Lemma bind_ext {A B} (m : M (@Net W) (list string) SearchResponse A) (f f' : A -> M (@Net W) (list string) SearchResponse B) s :
  (forall a s', f a s' = f' a s') -> bind m f s = bind m f' s.
Proof.
  intros H. unfold bind. destruct (m s) as [[a|r|e] s']; auto.
Qed.

Lemma strategy4_plan {A} ep tok st ft mc (k : M (@Net W) (list string) SearchResponse A) s :
  bind (strategy4 fetch ep tok st ft mc) (fun _ => k) s
  = attemptAll fetch (plan4 ep tok st ft mc) k s.
Proof.
  unfold strategy4, plan4.
  generalize searchPriority as terms. intros terms; revert s.
  induction terms as [|term terms IH]; intros s.
  - reflexivity.
  - cbn [for_of flat_map]. rewrite bind_assoc, attemptAll_app.
    rewrite <- strategy4_term_plan. apply bind_ext. intros _ s'. apply IH.
Qed.

Lemma strategy5_plan {A} ep tok ft mc (k : M (@Net W) (list string) SearchResponse A) s :
  bind (strategy5 fetch ep tok ft mc) (fun _ => k) s
  = attemptAll fetch (plan5 ep tok ft mc) k s.
Proof.
  unfold strategy5, plan5.
  destruct (Js.is_true (hasAttachments ft) || Js.is_true (unreadOnly ft));
    [|reflexivity].
  destruct s as [sa g]. cbv [attemptAll]. run_call.
Qed.

Lemma attemptAll_ext {A} (p : list Attempt) (k k' : M (@Net W) (list string) SearchResponse A) :
  (forall s, k s = k' s) ->
  forall s, attemptAll fetch p k s = attemptAll fetch p k' s.
Proof.
  intros H. induction p as [|a p IH]; intros s; [apply H|].
  simpl. destruct (fst (fetch (paged a) (world (snd s)))) as [e|resp].
  - apply IH.
  - destruct (hasItems resp || terminal a); [reflexivity|apply IH].
Qed.

Lemma progressiveSearch_body_plan ep tok st ft mc s :
  progressiveSearch_body fetch ep tok st ft mc s
  = attemptAll fetch (plan ep tok st ft mc) allFailed s.
Proof.
  unfold progressiveSearch_body, plan.
  rewrite strategy1_plan, attemptAll_app.
  apply attemptAll_ext; clear s; intros s.
  rewrite strategy2_plan, attemptAll_app.
  apply attemptAll_ext; clear s; intros s.
  rewrite strategy3_plan, attemptAll_app.
  apply attemptAll_ext; clear s; intros s.
  rewrite strategy4_plan, attemptAll_app.
  apply attemptAll_ext; clear s; intros s.
  apply strategy5_plan.
Qed.

(** [progressiveSearch] is the run of its strategy table, followed by
    the "All strategies failed" return. *)
Lemma progressiveSearch_plan ep tok st ft mc g :
  progressiveSearch fetch ep tok st ft mc g
  = run (attemptAll fetch (plan ep tok st ft mc) allFailed) [] g.
Proof.
  unfold progressiveSearch, run. rewrite progressiveSearch_body_plan.
  reflexivity.
Qed.

End PlanRefinement.

(** ** How a run of the table ends *)

Section CascadeFacts.

Context {engine : Engine}.
Context {W : Type}.
Variable fetch : PagedRequest -> W -> Settled Mail.Email * W.

Lemma attemptAll_result attempts :
  forall sa (g : @Net W),
    CascadeResult attempts sa g (attemptAll fetch attempts allFailed (sa, g)).
Proof.
  induction attempts as [|a rest IH]; intros sa g.
  - cbn. destruct g as [w cs].
    pose proof (@Exhausted W [] sa (mkNet w cs) [] w (Forall2_nil _)) as H.
    cbn in H. rewrite !app_nil_r in H. exact H.
  - cbn [attemptAll fst snd].
    destruct (fetch (paged a) (world g)) as [res w'] eqn:Ef. cbn [fst snd].
    assert (Hstep :
      wins a res = false ->
      CascadeResult (a :: rest) sa g
        (attemptAll fetch rest allFailed
           ((sa ++ [tag a])%list, mkNet w' (calls g ++ [EvPaged (paged a) res])%list))).
    { intros Hl.
      specialize (IH (sa ++ [tag a])%list
                     (mkNet w' (calls g ++ [EvPaged (paged a) res])%list)).
      inversion IH as [pre b rest' preE resp w'' Hsplit Hlost Hwin Hout
                      | evs w'' Hlost Hout]; cbn [calls] in *.
      - pose proof (@Won W (a :: rest) sa g (a :: pre) b rest'
                      (EvPaged (paged a) res :: preE) resp w'') as H.
        cbn [app map] in H.
        rewrite <- !app_assoc. cbn [app map].
        apply H; [rewrite Hsplit; reflexivity| |exact Hwin].
        constructor; [exists res; split; [reflexivity|exact Hl]|exact Hlost].
      - pose proof (@Exhausted W (a :: rest) sa g
                      (EvPaged (paged a) res :: evs) w'') as H.
        cbn [app map] in H.
        rewrite <- !app_assoc. cbn [app].
        apply H.
        constructor; [exists res; split; [reflexivity|exact Hl]|exact Hlost]. }
    destruct res as [e|resp].
    + apply Hstep. reflexivity.
    + destruct (hasItems resp || terminal a) eqn:Hw.
      * pose proof (@Won W (a :: rest) sa g [] a rest [] resp w') as H.
        cbn [app map] in H. apply H; [reflexivity|constructor|exact Hw].
      * apply Hstep. exact Hw.
Qed.

End CascadeFacts.

(** ** The log and the calls of a search *)

Section SearchFacts.

Context {engine : Engine}.
Context {W : Type}.
Variable fetch : PagedRequest -> W -> Settled Mail.Email * W.

(** A search ends in one of two ways: an attempt of the table wins and
    its response is returned with the tags up to it, or all attempts
    lose and the failure object is returned with all tags. *)
Lemma progressiveSearch_result ep tok st ft mc (w : W) :
  (exists pre a rest preE resp w',
      plan ep tok st ft mc = (pre ++ a :: rest)%list
      /\ Forall2 lost pre preE
      /\ wins a (inr resp) = true
      /\ progressiveSearch fetch ep tok st ft mc (start w)
         = (inr (found resp (map tag (pre ++ [a]))),
            mkNet w' (preE ++ [EvPaged (paged a) (inr resp)])%list))
  \/ (exists evs w',
         Forall2 lost (plan ep tok st ft mc) evs
         /\ progressiveSearch fetch ep tok st ft mc (start w)
            = (inr (allFailedResponse (map tag (plan ep tok st ft mc))),
               mkNet w' evs)).
Proof.
  rewrite progressiveSearch_plan. unfold run.
  destruct (attemptAll_result fetch (plan ep tok st ft mc) [] (start w))
    as [pre a rest preE resp w' Hsplit Hlost Hwin | evs w' Hlost].
  - left. exists pre, a, rest, preE, resp, w'. cbn. auto.
  - right. exists evs, w'. cbn. auto.
Qed.

End SearchFacts.


Lemma plan_tags {engine : Engine} ep tok st ft mc :
  map tag (plan ep tok st ft mc) = tagsFor st ft.
Proof.
  unfold plan, plan1, plan2, plan3, plan4, plan4_term, plan5, kqlTermsOf, tagsFor,
    searchPriority.
  cbn [flat_map getTerm String.eqb Ascii.eqb Bool.eqb].
  destruct (Js.truthy (query st)), (Js.truthy (subject st)),
    (Js.truthy (from st)), (Js.truthy (to st)),
    (Js.includes "@" (the (from st))),
    (Js.is_true (hasAttachments ft) || Js.is_true (unreadOnly ft));
    reflexivity.
Qed.


(** ** Lists of events *)



Lemma Forall2_lost_requests l evs :
  Forall2 lost l evs -> map pagedRequestOf evs = map (fun a => Some (paged a)) l.
Proof.
  induction 1 as [|a e l evs [res [-> _]] _ IH]; cbn; [reflexivity|].
  now rewrite IH.
Qed.




Section ShortCircuit.

Context {engine : Engine}.
Context {W : Type}.
Variable fetch : PagedRequest -> W -> Settled Mail.Email * W.


End ShortCircuit.


(** ** The two merge functions *)

Lemma addBooleanFilters_eq params ft :
  addBooleanFilters params ft
  = if anyBoolean ft then set_filter params (booleanClauses ft) else params.
Proof.
  unfold addBooleanFilters, anyBoolean, booleanClauses.
  destruct (Js.is_true (hasAttachments ft)), (Js.is_true (unreadOnly ft));
    reflexivity.
Qed.

(** C7.  [addBooleanFiltersToFilter] merges: when a boolean flag is set,
    a non-empty [$filter] is put in parentheses and followed by [and] and
    the new clauses, an absent [$filter] is set to the new clauses, and no
    other parameter changes; when no flag is set the parameters are
    returned unchanged; and the spec's example evaluates as stated. *)
Theorem C7_addBooleanFiltersToFilter_merges :
  (forall params ft prior,
      _filter params = Some prior -> prior <> EmptyString ->
      anyBoolean ft = true ->
      addBooleanFiltersToFilter params ft
      = mkQueryParams (_top params) (_select params) (_orderby params)
          (Some ("(" ++ prior ++ ") and " ++ booleanClauses ft))
          (_search params) (_count params))
  /\ (forall params ft,
      _filter params = None ->
      anyBoolean ft = true ->
      addBooleanFiltersToFilter params ft
      = mkQueryParams (_top params) (_select params) (_orderby params)
          (Some (booleanClauses ft)) (_search params) (_count params))
  /\ (forall params ft,
      anyBoolean ft = false -> addBooleanFiltersToFilter params ft = params)
  /\ addBooleanFiltersToFilter
       (mkQueryParams None None None (Some "a eq 1") None None)
       (mkFilterTerms (Some true) None)
     = mkQueryParams None None None
         (Some "(a eq 1) and hasAttachments eq true") None None.
Proof.
  repeat split.
  - intros params ft prior Hf Hne Hany.
    unfold addBooleanFiltersToFilter, anyBoolean, booleanClauses in *.
    rewrite Hf.
    assert (Js.truthy (Some prior) = true) as ->.
    { cbn. destruct (String.eqb_spec prior EmptyString); [contradiction|reflexivity]. }
    destruct (Js.is_true (hasAttachments ft)), (Js.is_true (unreadOnly ft));
      try discriminate; reflexivity.
  - intros params ft Hf Hany.
    unfold addBooleanFiltersToFilter, anyBoolean, booleanClauses in *.
    rewrite Hf.
    destruct (Js.is_true (hasAttachments ft)), (Js.is_true (unreadOnly ft));
      try discriminate; reflexivity.
  - intros params ft Hany.
    unfold addBooleanFiltersToFilter, anyBoolean in *.
    destruct (Js.is_true (hasAttachments ft)), (Js.is_true (unreadOnly ft));
      try discriminate; reflexivity.
Qed.

(** The three cases of the merge at concrete parameters. *)
Lemma C7_witness :
  addBooleanFiltersToFilter
    (mkQueryParams (Some 10%Z) None None (Some "a eq 1") None (Some "true"))
    (mkFilterTerms (Some true) (Some true))
  = mkQueryParams (Some 10%Z) None None
      (Some "(a eq 1) and hasAttachments eq true and isRead eq false")
      None (Some "true")
  /\ addBooleanFiltersToFilter
       (mkQueryParams (Some 10%Z) None None None None None)
       (mkFilterTerms None (Some true))
     = mkQueryParams (Some 10%Z) None None (Some "isRead eq false") None None
  /\ addBooleanFiltersToFilter
       (mkQueryParams (Some 10%Z) None None (Some "a eq 1") None None)
       (mkFilterTerms (Some false) None)
     = mkQueryParams (Some 10%Z) None None (Some "a eq 1") None None.
Proof.
  destruct C7_addBooleanFiltersToFilter_merges as (Hmerge & Hset & Hsame & _).
  split; [|split].
  - apply (Hmerge (mkQueryParams (Some 10%Z) None None (Some "a eq 1") None (Some "true"))
             (mkFilterTerms (Some true) (Some true)) "a eq 1");
      [reflexivity|discriminate|reflexivity].
  - apply (Hset (mkQueryParams (Some 10%Z) None None None None None)
             (mkFilterTerms None (Some true))); reflexivity.
  - apply (Hsame (mkQueryParams (Some 10%Z) None None (Some "a eq 1") None None)
             (mkFilterTerms (Some false) None)); reflexivity.
Defined.

(** ** Searches with particular inputs *)

Ltac unfold_plan :=
  unfold plan, plan1, plan2, plan3, plan4, plan4_term, plan5, kqlTermsOf,
    searchPriority;
  cbn [flat_map getTerm String.eqb Ascii.eqb Bool.eqb].

Section ParticularInputs.

Context {engine : Engine}.
Context {W : Type}.
Variable fetch : PagedRequest -> W -> Settled Mail.Email * W.

(** C5.  When [from], [subject], [to] and [query] are absent (or empty)
    and only [unreadOnly] is set, the search issues exactly one call, that
    of strategy 5, whose [$filter] is exactly [isRead eq false]; the log
    is that single tag, whether the call delivers a response (returned
    as it is) or throws (the failure object is returned). *)
Theorem C5_unread_only_runs_strategy5_alone ep tok st ft mc (w : W) :
  Js.truthy (from st) = false ->
  Js.truthy (subject st) = false ->
  Js.truthy (to st) = false ->
  Js.truthy (query st) = false ->
  Js.is_true (hasAttachments ft) = false ->
  unreadOnly ft = Some true ->
  let rq :=
    mkPagedRequest
      (mkRequest tok "GET" ep
         (mkQueryParams (Some (Z.min 50 mc)) (Some EMAIL_SELECT_FIELDS)
            (Some "receivedDateTime desc") (Some "isRead eq false") None None)
         [])
      mc in
  let out := progressiveSearch fetch ep tok st ft mc (start w) in
  calls (snd out) = [EvPaged rq (fst (fetch rq w))]
  /\ world (snd out) = snd (fetch rq w)
  /\ fst out
     = inr (match fst (fetch rq w) with
            | inr response => found response ["boolean-filters-only"]
            | inl _ => allFailedResponse ["boolean-filters-only"]
            end).
Proof.
  intros Hf Hs Ht Hq Hha Hun. cbv zeta.
  rewrite progressiveSearch_plan. unfold_plan.
  rewrite Hf, Hs, Ht, Hq, Hha, Hun.
  cbn [Js.is_true orb andb app length Nat.ltb Nat.leb].
  rewrite addBooleanFilters_eq.
  unfold anyBoolean, booleanClauses. rewrite Hha, Hun.
  cbn [Js.is_true orb set_filter _top _select _orderby _search _count].
  unfold run, start. cbn [attemptAll fst snd world calls paged tag terminal app].
  destruct (fetch _ w) as [[e|resp] w']; cbn [fst snd].
  - cbn. auto.
  - rewrite orb_true_r. cbn. auto.
Qed.

(** C6.  For the search terms [{from: "a@b.com"}], no filter terms and a
    count of 10: if the call of strategy 1 returns no item and the call
    of strategy 3 then returns two items, the search returns the response
    of strategy 3 with the log [filter-from-exact; kql-combined-search],
    and these two calls are the only ones issued.  (The address has no
    capital letter: lower-casing leaves it as it is.) *)
Theorem C6_sender_falls_back_to_combined_search
    ep tok (w w1 w3 : W) resp1 resp3 e1 e2 :
  toLowerCase "a@b.com" = "a@b.com" ->
  let rq1 :=
    mkPagedRequest
      (mkRequest tok "GET" "me/messages"
         (mkQueryParams (Some 10%Z) (Some EMAIL_SELECT_FIELDS) None
            (Some "sender/emailAddress/address eq 'a@b.com'") None (Some "true"))
         [("ConsistencyLevel", "eventual")])
      10 in
  let rq3 :=
    mkPagedRequest
      (mkRequest tok "GET" ep
         (mkQueryParams (Some 10%Z) (Some EMAIL_SELECT_FIELDS)
            (Some "receivedDateTime desc") None
            (Some ("from:" ++ Js.dquote ++ "a@b.com" ++ Js.dquote)) None)
         [])
      10 in
  fetch rq1 w = (inr resp1, w1) ->
  items resp1 = [] ->
  fetch rq3 w1 = (inr resp3, w3) ->
  value resp3 = Some [e1; e2] ->
  progressiveSearch fetch ep tok (fromOnly "a@b.com") noFilters 10 (start w)
  = (inr (mkSearchResponse resp3
            (Some (mkSearchInfo ["filter-from-exact"; "kql-combined-search"] None))),
     mkNet w3 [EvPaged rq1 (inr resp1); EvPaged rq3 (inr resp3)]).
Proof.
  intros Hlow rq1 rq3 H1 Hempty H3 Htwo.
  rewrite progressiveSearch_plan.
  unfold run, start.
  assert (Hno : hasItems resp1 = false).
  { unfold hasItems, items in *. destruct (value resp1) as [[|]|];
      [reflexivity|discriminate|reflexivity]. }
  assert (Hyes : hasItems resp3 = true) by (unfold hasItems; now rewrite Htwo).
  assert (Hplan : exists rest,
             plan ep tok (fromOnly "a@b.com") noFilters 10
             = mkAttempt "filter-from-exact" rq1 false
                 :: mkAttempt "kql-combined-search" rq3 false :: rest).
  { unfold plan, plan1, fromOnly, noFilters. cbn [from the]. cbn.
    rewrite Hlow. eexists. reflexivity. }
  destruct Hplan as [rest ->].
  cbn [attemptAll fst snd world calls paged tag terminal app].
  rewrite H1. cbn [fst snd]. rewrite Hno. cbn [orb].
  rewrite H3. cbn [fst snd]. rewrite Hyes. reflexivity.
Qed.

End ParticularInputs.

Lemma C5_witness :
  let ft := mkFilterTerms None (Some true) in
  let rq :=
    mkPagedRequest
      (mkRequest "token" "GET" inboxEndpoint
         (mkQueryParams (Some (Z.min 50 10)) (Some EMAIL_SELECT_FIELDS)
            (Some "receivedDateTime desc") (Some "isRead eq false") None None)
         [])
      10 in
  let out := progressiveSearch scripted inboxEndpoint "token" noTerms ft 10
               (start [inr twoItems]) in
  calls (snd out) = [EvPaged rq (fst (scripted rq [inr twoItems]))]
  /\ world (snd out) = snd (scripted rq [inr twoItems])
  /\ fst out
     = inr (match fst (scripted rq [inr twoItems]) with
            | inr response => found response ["boolean-filters-only"]
            | inl _ => allFailedResponse ["boolean-filters-only"]
            end).
Proof.
  exact (C5_unread_only_runs_strategy5_alone scripted inboxEndpoint "token"
           noTerms (mkFilterTerms None (Some true)) 10 [inr twoItems]
           eq_refl eq_refl eq_refl eq_refl eq_refl eq_refl).
Defined.

(** The scripted remote that answers no item, then two items. *)
Lemma C6_witness :
  progressiveSearch scripted inboxEndpoint "token" (fromOnly "a@b.com") noFilters 10
    (start [inr (page []); inr twoItems])
  = (inr (mkSearchResponse twoItems
            (Some (mkSearchInfo ["filter-from-exact"; "kql-combined-search"] None))),
     mkNet []
       [EvPaged sampleSenderRequest (inr (page []));
        EvPaged sampleCombinedRequest (inr twoItems)]).
Proof.
  exact (C6_sender_falls_back_to_combined_search scripted inboxEndpoint "token"
           [inr (page []); inr twoItems] [inr twoItems] [] (page []) twoItems
           (sampleEmail "1") (sampleEmail "2")
           eq_refl eq_refl eq_refl eq_refl eq_refl).
Defined.

(** ** The requests of a search *)

Lemma events_follow_attempts (P : PagedRequest -> Prop) evs done :
  map pagedRequestOf evs = map (fun a => Some (paged a)) done ->
  Forall (fun a => P (paged a)) done ->
  Forall (fun e => exists rq res, e = EvPaged rq res /\ P rq) evs.
Proof.
  revert done. induction evs as [|e evs IH]; intros [|a done] Hmap HP;
    try discriminate; constructor.
  - cbn in Hmap. inversion HP; subst. destruct e as [rq res|rq res];
      cbn in Hmap; inversion Hmap; subst. eauto.
  - cbn in Hmap. inversion HP; subst. inversion Hmap. eauto.
Qed.

Lemma plan_early_late {engine : Engine} ep tok st ft mc :
  plan ep tok st ft mc
  = (earlyAttempts ep tok st ft mc ++ plan5 ep tok ft mc)%list.
Proof.
  unfold plan, earlyAttempts. now rewrite <- !app_assoc.
Qed.

Lemma early_not_terminal {engine : Engine} ep tok st ft mc :
  Forall (fun a => terminal a = false) (earlyAttempts ep tok st ft mc).
Proof.
  unfold earlyAttempts, plan1, plan2, plan3, plan4, plan4_term, kqlTermsOf,
    searchPriority.
  cbn [flat_map getTerm String.eqb Ascii.eqb Bool.eqb].
  destruct (Js.truthy (query st)), (Js.truthy (subject st)),
    (Js.truthy (from st)), (Js.truthy (to st)),
    (Js.includes "@" (the (from st)));
    cbn [app length Nat.ltb Nat.leb andb]; repeat constructor.
Qed.

Lemma plan5_eq ep tok ft mc :
  plan5 ep tok ft mc
  = if anyBoolean ft
    then [mkAttempt "boolean-filters-only" (booleanRequest ep tok ft mc) true]
    else [].
Proof.
  unfold plan5, booleanRequest. fold (anyBoolean ft).
  rewrite addBooleanFilters_eq. destruct (anyBoolean ft); reflexivity.
Qed.

(** The attempt whose response is returned even without an item is that
    of strategy 5, and it is the last of the table. *)
Lemma terminal_is_boolean {engine : Engine} ep tok st ft mc pre a rest :
  plan ep tok st ft mc = (pre ++ a :: rest)%list ->
  terminal a = true ->
  paged a = booleanRequest ep tok ft mc
  /\ tag a = "boolean-filters-only"
  /\ anyBoolean ft = true
  /\ rest = [].
Proof.
  intros Hsplit Hterm.
  pose proof (early_not_terminal ep tok st ft mc) as Hearly.
  rewrite plan_early_late, plan5_eq in Hsplit.
  destruct (anyBoolean ft).
  - destruct rest as [|x rest'] using rev_ind.
    + change (pre ++ [a])%list with (pre ++ [a])%list in Hsplit.
      apply app_inj_tail in Hsplit as [_ <-]. repeat split; reflexivity.
    + exfalso. clear IHrest'.
      change (pre ++ a :: rest' ++ [x])%list
        with (pre ++ (a :: rest') ++ [x])%list in Hsplit.
      rewrite app_assoc in Hsplit. apply app_inj_tail in Hsplit as [Heq _].
      rewrite Heq in Hearly. apply Forall_app in Hearly as [_ Hearly].
      apply Forall_inv in Hearly. congruence.
  - exfalso. rewrite app_nil_r in Hsplit. rewrite Hsplit in Hearly.
    apply Forall_app in Hearly as [_ Hearly].
    apply Forall_inv in Hearly. congruence.
Qed.

(** With a boolean filter, the last attempt of the table is that of
    strategy 5. *)
Lemma plan_ends_in_boolean {engine : Engine} ep tok st ft mc :
  anyBoolean ft = true ->
  plan ep tok st ft mc
  = (earlyAttempts ep tok st ft mc
     ++ [mkAttempt "boolean-filters-only" (booleanRequest ep tok ft mc) true])%list.
Proof.
  intros Hany. rewrite plan_early_late, plan5_eq, Hany. reflexivity.
Qed.

Section Trace.

Context {engine : Engine}.
Context {W : Type}.
Variable fetch : PagedRequest -> W -> Settled Mail.Email * W.

(** The calls of a search are those of an initial segment of its table,
    non-empty unless the table is empty, and its log holds the tags of
    that segment. *)
Lemma progressiveSearch_trace ep tok st ft mc (w : W) :
  exists r w' evs done rest,
    progressiveSearch fetch ep tok st ft mc (start w) = (inr r, mkNet w' evs)
    /\ plan ep tok st ft mc = (done ++ rest)%list
    /\ map pagedRequestOf evs = map (fun a => Some (paged a)) done
    /\ logOf r = map tag done
    /\ (plan ep tok st ft mc <> [] -> done <> []).
Proof.
  destruct (progressiveSearch_result fetch ep tok st ft mc w)
    as [(pre & a & rest & preE & resp & w' & Hsplit & Hlost & Hwin & Hout)
       | (evs & w' & Hlost & Hout)].
  - exists (found resp (map tag (pre ++ [a]))), w',
      (preE ++ [EvPaged (paged a) (inr resp)])%list, (pre ++ [a])%list, rest.
    repeat split; auto.
    + rewrite Hsplit, <- app_assoc. reflexivity.
    + rewrite !map_app, (Forall2_lost_requests _ _ Hlost). reflexivity.
    + intros _ H. now apply app_eq_nil in H as [_ H].
  - exists (allFailedResponse (map tag (plan ep tok st ft mc))), w', evs,
      (plan ep tok st ft mc), [].
    repeat split; auto using Forall2_lost_requests.
    symmetry; apply app_nil_r.
Qed.

(** When the table starts with an attempt, the first call of the search
    is that attempt's, and the later calls are those of attempts of the
    rest of the table. *)
Lemma progressiveSearch_first_call ep tok st ft mc (w : W) a tail
      (P : PagedRequest -> Prop) :
  plan ep tok st ft mc = a :: tail ->
  Forall (fun b => P (paged b)) tail ->
  exists r w' res rest,
    progressiveSearch fetch ep tok st ft mc (start w)
    = (inr r, mkNet w' (EvPaged (paged a) res :: rest))
    /\ hd_error (logOf r) = Some (tag a)
    /\ Forall (fun e => exists rq res', e = EvPaged rq res' /\ P rq) rest.
Proof.
  intros Hplan Htail.
  destruct (progressiveSearch_trace ep tok st ft mc w)
    as (r & w' & evs & done & rest & Hout & Hsplit & Hreq & Hlog & Hne).
  rewrite Hplan in Hsplit, Hne.
  destruct done as [|b done]; [exfalso; apply Hne; [discriminate|reflexivity]|].
  cbn in Hsplit. inversion Hsplit; subst b tail.
  destruct evs as [|e evs]; [discriminate|].
  cbn in Hreq. inversion Hreq as [[He Hrest]].
  destruct e as [rq res|rq res]; cbn in He; [discriminate|].
  inversion He; subst rq.
  exists r, w', res, evs. repeat split; auto.
  - rewrite Hlog. reflexivity.
  - apply (events_follow_attempts P evs done Hrest).
    apply Forall_app in Htail. tauto.
Qed.

(** A search in which no call delivers an item goes through its whole
    table: every strategy that applies is attempted, one call each. *)
Lemma progressiveSearch_barren ep tok st ft mc (w : W) :
  Forall barren (calls (snd (progressiveSearch fetch ep tok st ft mc (start w)))) ->
  exists r,
    fst (progressiveSearch fetch ep tok st ft mc (start w)) = inr r
    /\ logOf r = tagsFor st ft
    /\ map pagedRequestOf
         (calls (snd (progressiveSearch fetch ep tok st ft mc (start w))))
       = map (fun a => Some (paged a)) (plan ep tok st ft mc).
Proof.
  destruct (progressiveSearch_result fetch ep tok st ft mc w)
    as [(pre & a & rest & preE & resp & w' & Hsplit & Hlost & Hwin & ->)
       | (evs & w' & Hlost & ->)];
    cbn [fst snd calls]; intros Hbarren.
  - apply Forall_app in Hbarren as [_ Hlast]. apply Forall_inv in Hlast.
    cbn in Hlast. cbn in Hwin. rewrite Hlast in Hwin. cbn [orb] in Hwin.
    destruct (terminal_is_boolean ep tok st ft mc pre a rest Hsplit Hwin)
      as (_ & _ & _ & ->).
    eexists. split; [reflexivity|]. split.
    + cbn [found logOf _searchInfo strategies].
      rewrite <- (plan_tags ep tok st ft mc), Hsplit. reflexivity.
    + rewrite Hsplit, !map_app, (Forall2_lost_requests _ _ Hlost). reflexivity.
  - eexists. split; [reflexivity|]. split.
    + cbn [allFailedResponse logOf _searchInfo strategies]. apply plan_tags.
    + apply Forall2_lost_requests, Hlost.
Qed.

End Trace.

(** ** The shape of the requests in the table *)

Lemma addBooleanFiltersToFilter_eq params ft :
  addBooleanFiltersToFilter params ft
  = if anyBoolean ft
    then set_filter params
           (if Js.truthy (_filter params)
            then "(" ++ the (_filter params) ++ ") and " ++ booleanClauses ft
            else booleanClauses ft)
    else params.
Proof.
  unfold addBooleanFiltersToFilter, anyBoolean, booleanClauses.
  destruct (_filter params) as [f|];
    destruct (Js.is_true (hasAttachments ft)), (Js.is_true (unreadOnly ft));
    cbn [app length Nat.ltb Nat.leb orb the]; try reflexivity;
    destruct (Js.truthy (Some f)); reflexivity.
Qed.

Lemma addBooleanFilters_orderby params ft :
  _orderby (addBooleanFilters params ft) = _orderby params.
Proof.
  rewrite addBooleanFilters_eq. destruct (anyBoolean ft); reflexivity.
Qed.

Lemma addBooleanFiltersToFilter_orderby params ft :
  _orderby (addBooleanFiltersToFilter params ft) = _orderby params.
Proof.
  rewrite addBooleanFiltersToFilter_eq. destruct (anyBoolean ft); reflexivity.
Qed.

Lemma includes_at_truthy f :
  Js.includes "@" f = true -> Js.truthy (Some f) = true.
Proof.
  destruct f; [discriminate|reflexivity].
Qed.

(** With a sender that holds an [@], the table starts with strategy 1. *)
Lemma plan_sender {engine : Engine} ep tok st ft mc f :
  from st = Some f -> Js.includes "@" f = true ->
  plan ep tok st ft mc
  = mkAttempt "filter-from-exact" (senderRequest tok f ft mc) false
      :: laterAttempts ep tok st ft mc.
Proof.
  intros Hf Hat. unfold plan, plan1, laterAttempts, senderRequest.
  rewrite Hf. cbn [the]. rewrite (includes_at_truthy f Hat), Hat.
  cbn [andb app]. rewrite addBooleanFiltersToFilter_eq.
  unfold withBooleans, senderClause.
  destruct (anyBoolean ft); reflexivity.
Qed.

(** Without such a sender, the table holds strategies 2 to 5 only. *)
Lemma plan_no_sender {engine : Engine} ep tok st ft mc :
  Js.truthy (from st) && Js.includes "@" (the (from st)) = false ->
  plan ep tok st ft mc = laterAttempts ep tok st ft mc.
Proof.
  intros H. unfold plan, plan1, laterAttempts. now rewrite H.
Qed.

Ltac later_cases st ft :=
  unfold laterAttempts, plan2, plan3, plan4, plan4_term, plan5, kqlTermsOf,
    searchPriority;
  cbn [flat_map getTerm String.eqb Ascii.eqb Bool.eqb];
  destruct (Js.truthy (query st)), (Js.truthy (subject st)),
    (Js.truthy (from st)), (Js.truthy (to st)),
    (Js.is_true (hasAttachments ft) || Js.is_true (unreadOnly ft));
  cbn [app length Nat.ltb Nat.leb].

Lemma later_paths ep tok st ft mc :
  Forall (fun b => apiPath (request (paged b)) = ep) (laterAttempts ep tok st ft mc).
Proof.
  later_cases st ft; repeat constructor.
Qed.

Lemma later_orderby ep tok st ft mc :
  Forall (fun b => _orderby (queryParams (request (paged b)))
                   = Some "receivedDateTime desc")
    (laterAttempts ep tok st ft mc).
Proof.
  later_cases st ft; repeat constructor;
    cbn [paged request queryParams];
    rewrite ?addBooleanFilters_orderby, ?addBooleanFiltersToFilter_orderby;
    reflexivity.
Qed.

Section SenderStrategy.

Context {engine : Engine}.
Context {W : Type}.
Variable fetch : PagedRequest -> W -> Settled Mail.Email * W.

(** With a sender that holds an [@], at least three strategies apply:
    the first, the combined search and the search for the sender alone. *)
Lemma sender_tags st ft f :
  from st = Some f -> Js.includes "@" f = true ->
  3 <= length (tagsFor st ft).
Proof.
  intros Hf Hat. unfold tagsFor. rewrite Hf. cbn [the].
  rewrite (includes_at_truthy f Hat), Hat. cbn [andb].
  rewrite !orb_true_r. cbn [orb].
  destruct (Js.truthy (subject st)), (Js.truthy (to st)), (Js.truthy (query st)),
    (Js.is_true (hasAttachments ft) || Js.is_true (unreadOnly ft));
    cbn; lia.
Qed.

(** The run of a search whose sender holds an [@]: its first call is
    that of strategy 1, its later calls are those of the rest of the
    table, and when no call delivers an item every strategy that applies
    was attempted. *)
Lemma sender_run ep tok st ft mc (w : W) f (P : PagedRequest -> Prop) :
  from st = Some f ->
  Js.includes "@" f = true ->
  Forall (fun b => P (paged b)) (laterAttempts ep tok st ft mc) ->
  exists r w' res rest,
    progressiveSearch fetch ep tok st ft mc (start w)
    = (inr r, mkNet w' (EvPaged (senderRequest tok f ft mc) res :: rest))
    /\ hd_error (logOf r) = Some "filter-from-exact"
    /\ Forall (fun e => exists rq res', e = EvPaged rq res' /\ P rq) rest
    /\ (Forall barren (EvPaged (senderRequest tok f ft mc) res :: rest) ->
        logOf r = tagsFor st ft
        /\ length rest + 1 = length (tagsFor st ft)
        /\ 2 <= length rest).
Proof.
  intros Hf Hat HP.
  destruct (progressiveSearch_first_call fetch ep tok st ft mc w _ _ P
              (plan_sender ep tok st ft mc f Hf Hat) HP)
    as (r & w' & res & rest & Hout & Hlog & Hrest).
  exists r, w', res, rest. split; [exact Hout|]. split; [exact Hlog|].
  split; [exact Hrest|]. intros Hbarren.
  pose proof (progressiveSearch_barren fetch ep tok st ft mc w) as Hall.
  rewrite Hout in Hall. cbn [fst snd calls] in Hall.
  destruct (Hall Hbarren) as (r' & Hr & Htags & Hreq).
  inversion Hr; subst r'.
  assert (Hlen : length rest + 1 = length (tagsFor st ft)).
  { apply (f_equal (@length _)) in Hreq. rewrite !length_map in Hreq.
    rewrite <- (plan_tags ep tok st ft mc), length_map, <- Hreq. cbn. lia. }
  split; [exact Htags|]. split; [exact Hlen|].
  pose proof (sender_tags st ft f Hf Hat). lia.
Qed.

(** C4 (as amended).  When [from] is present and holds an [@], the first
    call of the search is that of strategy 1 and the log starts with its
    tag.  Its [$filter] is the clause
    [sender/emailAddress/address eq '<from, quotes doubled, lower-cased>']
    when no boolean filter is requested, and that clause in parentheses
    followed by [and] and the boolean clauses otherwise.  The request
    carries [$count=true] and the header [ConsistencyLevel: eventual], and
    it has no [$orderby], whereas every later call of the search has
    [$orderby=receivedDateTime desc].  There are such later calls: when no
    call delivers an item, every strategy that applies is attempted, one
    call each, and at least two of them come after strategy 1. *)
Theorem C4_sender_strategy_is_first ep tok st ft mc (w : W) f :
  from st = Some f ->
  Js.includes "@" f = true ->
  let clause :=
    "sender/emailAddress/address eq '"
      ++ toLowerCase (Js.replace_quotes f) ++ "'" in
  let rq1 :=
    mkPagedRequest
      (mkRequest tok "GET" "me/messages"
         (mkQueryParams (Some (Z.min 50 mc)) (Some EMAIL_SELECT_FIELDS) None
            (Some (if anyBoolean ft
                   then "(" ++ clause ++ ") and " ++ booleanClauses ft
                   else clause))
            None (Some "true"))
         [("ConsistencyLevel", "eventual")])
      mc in
  exists r w' res rest,
    progressiveSearch fetch ep tok st ft mc (start w)
    = (inr r, mkNet w' (EvPaged rq1 res :: rest))
    /\ hd_error (logOf r) = Some "filter-from-exact"
    /\ Forall (fun e => exists rq res',
                   e = EvPaged rq res'
                   /\ _orderby (queryParams (request rq))
                      = Some "receivedDateTime desc") rest
    /\ (Forall barren (EvPaged rq1 res :: rest) ->
        logOf r = tagsFor st ft
        /\ length rest + 1 = length (tagsFor st ft)
        /\ 2 <= length rest).
Proof.
  intros Hf Hat clause rq1.
  exact (sender_run ep tok st ft mc w f _ Hf Hat (later_orderby ep tok st ft mc)).
Qed.

(** C10.  When [from] holds an [@], the first call of the search, that
    of strategy 1, goes to the path [me/messages] whatever the endpoint
    given to [progressiveSearch], and every later call of the search goes
    to the given endpoint; there are such later calls: when no call
    delivers an item, at least two follow that of strategy 1.  Without
    such a sender every call goes to the given endpoint.  In either case,
    when no call delivers an item, every strategy that applies was
    attempted, one call each. *)
Theorem C10_sender_strategy_ignores_endpoint ep tok st ft mc (w : W) :
  exists r w' evs,
    progressiveSearch fetch ep tok st ft mc (start w) = (inr r, mkNet w' evs)
    /\ (forall f,
           from st = Some f ->
           Js.includes "@" f = true ->
           exists rq res rest,
             evs = EvPaged rq res :: rest
             /\ hd_error (logOf r) = Some "filter-from-exact"
             /\ apiPath (request rq) = "me/messages"
             /\ Forall (fun e => exists rq' res',
                            e = EvPaged rq' res' /\ apiPath (request rq') = ep) rest
             /\ (Forall barren evs -> 2 <= length rest))
    /\ (Js.truthy (from st) && Js.includes "@" (the (from st)) = false ->
        Forall (fun e => exists rq res, e = EvPaged rq res /\ apiPath (request rq) = ep)
          evs)
    /\ (Forall barren evs ->
        logOf r = tagsFor st ft /\ length evs = length (tagsFor st ft)).
Proof.
  destruct (progressiveSearch_trace fetch ep tok st ft mc w)
    as (r & w' & evs & done & rest0 & Hout & Hsplit & Hreq & _).
  exists r, w', evs. split; [exact Hout|]. split; [|split].
  - intros f Hf Hat.
    destruct (sender_run ep tok st ft mc w f
                (fun rq => apiPath (request rq) = ep) Hf Hat
                (later_paths ep tok st ft mc))
      as (r1 & w1 & res & rest & Hout1 & Hlog & Hrest & Hbarren).
    rewrite Hout in Hout1. inversion Hout1; subst.
    exists (senderRequest tok f ft mc), res, rest.
    split; [reflexivity|]. split; [exact Hlog|]. split; [reflexivity|].
    split; [exact Hrest|]. intros Hb. apply Hbarren in Hb. tauto.
  - intros Hno.
    apply (events_follow_attempts (fun rq => apiPath (request rq) = ep)
             evs done Hreq).
    pose proof (later_paths ep tok st ft mc) as Hl.
    rewrite <- (plan_no_sender ep tok st ft mc Hno), Hsplit in Hl.
    apply Forall_app in Hl. tauto.
  - intros Hb.
    pose proof (progressiveSearch_barren fetch ep tok st ft mc w) as Hall.
    rewrite Hout in Hall. cbn [fst snd calls] in Hall.
    destruct (Hall Hb) as (r' & Hr & Htags & Hreq').
    inversion Hr; subst r'. split; [exact Htags|].
    apply (f_equal (@length _)) in Hreq'. rewrite !length_map in Hreq'.
    rewrite <- (plan_tags ep tok st ft mc), length_map. exact Hreq'.
Qed.

(** Without strategy 1, every call goes to the given endpoint. *)
Lemma other_strategies_use_endpoint ep tok st ft mc (w : W) :
  Js.truthy (from st) && Js.includes "@" (the (from st)) = false ->
  Forall (fun e => exists rq res, e = EvPaged rq res /\ apiPath (request rq) = ep)
    (calls (snd (progressiveSearch fetch ep tok st ft mc (start w)))).
Proof.
  intros H.
  destruct (progressiveSearch_trace fetch ep tok st ft mc w)
    as (r & w' & evs & done & rest & Hout & Hsplit & Hreq & _).
  rewrite Hout. cbn [snd calls].
  apply (events_follow_attempts (fun rq => apiPath (request rq) = ep)
           evs done Hreq).
  pose proof (later_paths ep tok st ft mc) as Hl.
  rewrite <- (plan_no_sender ep tok st ft mc H), Hsplit in Hl.
  apply Forall_app in Hl. tauto.
Qed.

End SenderStrategy.

(** The sender [Ann.O'Hara@B.com] with [unreadOnly]: strategy 1 delivers
    nothing, the combined search two messages.  The call after that of
    strategy 1 carries [$orderby]. *)
Lemma C4_witness :
  let rq1 :=
    mkPagedRequest
      (mkRequest "token" "GET" "me/messages"
         (mkQueryParams (Some 10%Z) (Some EMAIL_SELECT_FIELDS) None
            (Some "(sender/emailAddress/address eq 'ann.o''hara@b.com') and isRead eq false")
            None (Some "true"))
         [("ConsistencyLevel", "eventual")])
      10 in
  map (fun e => match pagedRequestOf e with
                | Some rq => _orderby (queryParams (request rq))
                | None => None
                end)
    (calls (snd (progressiveSearch scripted inboxEndpoint "token"
                   (fromOnly "Ann.O'Hara@B.com") (mkFilterTerms None (Some true)) 10
                   (start [inr (page []); inr twoItems]))))
  = [None; Some "receivedDateTime desc"]
  /\ exists r w' res rest,
       progressiveSearch scripted inboxEndpoint "token" (fromOnly "Ann.O'Hara@B.com")
         (mkFilterTerms None (Some true)) 10 (start [inr (page []); inr twoItems])
       = (inr r, mkNet w' (EvPaged rq1 res :: rest))
       /\ hd_error (logOf r) = Some "filter-from-exact"
       /\ Forall (fun e => exists rq res',
                      e = EvPaged rq res'
                      /\ _orderby (queryParams (request rq))
                         = Some "receivedDateTime desc") rest
       /\ (Forall barren (EvPaged rq1 res :: rest) ->
           logOf r = tagsFor (fromOnly "Ann.O'Hara@B.com") (mkFilterTerms None (Some true))
           /\ length rest + 1
              = length (tagsFor (fromOnly "Ann.O'Hara@B.com")
                          (mkFilterTerms None (Some true)))
           /\ 2 <= length rest).
Proof.
  split; [vm_compute; reflexivity|].
  exact (C4_sender_strategy_is_first scripted inboxEndpoint "token"
           (fromOnly "Ann.O'Hara@B.com") (mkFilterTerms None (Some true)) 10
           [inr (page []); inr twoItems] "Ann.O'Hara@B.com" eq_refl eq_refl).
Defined.

(** With [hasAttachments] set, the [$filter] of strategy 1 is not the bare
    sender clause. *)
Lemma C4_counterexample :
  let out := progressiveSearch scripted inboxEndpoint "token" (fromOnly "a@b.com")
               (mkFilterTerms (Some true) None) 10 (start [inr threeItems]) in
  exists rq res,
    calls (snd out) = [EvPaged rq res]
    /\ _filter (queryParams (request rq))
       = Some "(sender/emailAddress/address eq 'a@b.com') and hasAttachments eq true"
    /\ _filter (queryParams (request rq))
       <> Some "sender/emailAddress/address eq 'a@b.com'".
Proof.
  cbv zeta.
  exists (mkPagedRequest
            (mkRequest "token" "GET" "me/messages"
               (mkQueryParams (Some 10%Z) (Some EMAIL_SELECT_FIELDS) None
                  (Some "(sender/emailAddress/address eq 'a@b.com') and hasAttachments eq true")
                  None (Some "true"))
               [("ConsistencyLevel", "eventual")])
            10), (inr threeItems).
  split; [vm_compute; reflexivity|].
  split; [reflexivity|discriminate].
Qed.

(** Every call is rejected: the first goes to [me/messages], the two
    that follow go to the folder given. *)
Lemma C10_witness :
  map (fun e => match pagedRequestOf e with
                | Some rq => apiPath (request rq)
                | None => EmptyString
                end)
    (calls (snd (progressiveSearch alwaysFailing "me/mailFolders/AAMkAD/messages"
                   "token" (fromOnly "a@b.com") noFilters 10 (start tt))))
  = ["me/messages"; "me/mailFolders/AAMkAD/messages";
     "me/mailFolders/AAMkAD/messages"]
  /\ exists r w' evs,
       progressiveSearch alwaysFailing "me/mailFolders/AAMkAD/messages" "token"
         (fromOnly "a@b.com") noFilters 10 (start tt)
       = (inr r, mkNet w' evs)
       /\ (forall f,
              from (fromOnly "a@b.com") = Some f ->
              Js.includes "@" f = true ->
              exists rq res rest,
                evs = EvPaged rq res :: rest
                /\ hd_error (logOf r) = Some "filter-from-exact"
                /\ apiPath (request rq) = "me/messages"
                /\ Forall (fun e => exists rq' res',
                               e = EvPaged rq' res'
                               /\ apiPath (request rq')
                                  = "me/mailFolders/AAMkAD/messages") rest
                /\ (Forall barren evs -> 2 <= length rest))
       /\ (Js.truthy (from (fromOnly "a@b.com"))
           && Js.includes "@" (the (from (fromOnly "a@b.com"))) = false ->
           Forall (fun e => exists rq res,
                       e = EvPaged rq res
                       /\ apiPath (request rq) = "me/mailFolders/AAMkAD/messages")
             evs)
       /\ (Forall barren evs ->
           logOf r = tagsFor (fromOnly "a@b.com") noFilters
           /\ length evs = length (tagsFor (fromOnly "a@b.com") noFilters)).
Proof.
  split; [vm_compute; reflexivity|].
  exact (C10_sender_strategy_ignores_endpoint alwaysFailing
           "me/mailFolders/AAMkAD/messages" "token" (fromOnly "a@b.com") noFilters 10
           tt).
Defined.

(** ** Escaping *)

Lemma unescape_replace_quotes s : Js.unescape_quotes (Js.replace_quotes s) = s.
Proof.
  induction s as [|c r IH]; [reflexivity|].
  cbn [Js.replace_quotes]. destruct (Ascii.eqb c Js.quote) eqn:Hc.
  - apply Ascii.eqb_eq in Hc. subst c. cbn. now rewrite IH.
  - cbn [Js.unescape_quotes]. rewrite Hc. now rewrite IH.
Qed.

Lemma count_replace_quotes s :
  Js.count_char Js.quote (Js.replace_quotes s) = 2 * Js.count_char Js.quote s.
Proof.
  induction s as [|c r IH]; [reflexivity|].
  cbn [Js.replace_quotes Js.count_char]. destruct (Ascii.eqb c Js.quote) eqn:Hc.
  - cbn [Js.count_char]. rewrite Ascii.eqb_refl, IH. lia.
  - cbn [Js.count_char]. rewrite Hc, IH. lia.
Qed.

Lemma truthy_Some o : Js.truthy o = true -> exists s, o = Some s.
Proof.
  destruct o as [s|]; [eauto|discriminate].
Qed.

Lemma plan_filters {engine : Engine} ep tok st ft mc :
  Forall (fun a => escapedFilter st ft (paged a)) (plan ep tok st ft mc).
Proof.
  unfold plan.
  apply Forall_app; split;
    [|apply Forall_app; split;
      [|apply Forall_app; split; [|apply Forall_app; split]]].
  - unfold plan1.
    destruct (Js.truthy (from st)) eqn:Hf; [|constructor].
    destruct (truthy_Some _ Hf) as [f Ef].
    destruct (Js.includes "@" (the (from st))) eqn:Hat; constructor; [|constructor].
    right; right; left. exists f. rewrite Ef in Hat. cbn [the] in Hat.
    split; [exact Ef|]. split; [exact Hat|].
    cbn [paged request queryParams]. rewrite addBooleanFiltersToFilter_eq, Ef.
    unfold withBooleans. destruct (anyBoolean ft); reflexivity.
  - unfold plan2.
    destruct (Js.truthy (subject st)) eqn:Hs; constructor; [|constructor].
    destruct (truthy_Some _ Hs) as [s Es].
    right; right; right. exists s. split; [exact Es|].
    cbn [paged request queryParams]. rewrite addBooleanFiltersToFilter_eq, Es.
    unfold withBooleans. destruct (anyBoolean ft); reflexivity.
  - unfold plan3.
    destruct (Nat.ltb 0 (length (kqlTermsOf st))); constructor; [|constructor].
    unfold escapedFilter. cbn [paged request queryParams].
    rewrite addBooleanFilters_eq. destruct (anyBoolean ft); auto.
  - unfold plan4. generalize searchPriority. intros terms.
    induction terms as [|term terms IH]; [constructor|].
    cbn [flat_map]. apply Forall_app. split; [|exact IH].
    unfold plan4_term.
    destruct (Js.truthy (getTerm st term)); constructor; [|constructor].
    unfold escapedFilter. cbn [paged request queryParams].
    rewrite addBooleanFilters_eq. destruct (anyBoolean ft); auto.
  - unfold plan5. fold (anyBoolean ft).
    destruct (anyBoolean ft) eqn:Hany; constructor; [|constructor].
    unfold escapedFilter. cbn [paged request queryParams].
    rewrite addBooleanFilters_eq, Hany. auto.
Qed.

Section Escaping.

Context {engine : Engine}.
Context {W : Type}.
Variable fetch : PagedRequest -> W -> Settled Mail.Email * W.

(** C8 (as amended).  [replace(/'/g, "''")] doubles every single quote
    (reading doubled quotes back gives the original string, and the
    number of quotes doubles).  The [$filter] of every call of a search is
    absent, or the boolean clauses alone, or built from a [from] that holds
    an [@], with its quotes doubled and then lower-cased, or built from
    [subject] with its quotes doubled.  A [from] value [O'Brien's@x.com]
    produces a clause holding [o''brien''s] (lower-casing turns the [O]
    and the [B] of the escaped address into [o] and [b] and nothing
    else); a [subject] value [O'Brien's] produces a clause holding
    [O''Brien''s]. *)
Theorem C8_quotes_are_doubled_in_filters ep tok st ft mc (w : W) :
  toLowerCase "O''Brien''s@x.com" = "o''brien''s@x.com" ->
  (forall s,
      Js.unescape_quotes (Js.replace_quotes s) = s
      /\ Js.count_char Js.quote (Js.replace_quotes s)
         = 2 * Js.count_char Js.quote s)
  /\ Forall (fun e => exists rq res, e = EvPaged rq res /\ escapedFilter st ft rq)
       (calls (snd (progressiveSearch fetch ep tok st ft mc (start w))))
  /\ (exists res rest,
         calls (snd (progressiveSearch fetch ep tok (fromOnly "O'Brien's@x.com")
                       noFilters mc (start w)))
         = EvPaged
             (mkPagedRequest
                (mkRequest tok "GET" "me/messages"
                   (mkQueryParams (Some (Z.min 50 mc)) (Some EMAIL_SELECT_FIELDS)
                      None
                      (Some "sender/emailAddress/address eq 'o''brien''s@x.com'")
                      None (Some "true"))
                   [("ConsistencyLevel", "eventual")])
                mc) res :: rest)
  /\ (exists res rest,
         calls (snd (progressiveSearch fetch ep tok
                       (mkSearchTerms None None None (Some "O'Brien's"))
                       noFilters mc (start w)))
         = EvPaged
             (mkPagedRequest
                (mkRequest tok "GET" ep
                   (mkQueryParams (Some (Z.min 50 mc)) (Some EMAIL_SELECT_FIELDS)
                      (Some "receivedDateTime desc")
                      (Some "startswith(subject,'O''Brien''s')")
                      None None)
                   [])
                mc) res :: rest).
Proof.
  intros Hlow. split; [|split; [|split]].
  - intros s. split; [apply unescape_replace_quotes|apply count_replace_quotes].
  - destruct (progressiveSearch_trace fetch ep tok st ft mc w)
      as (r & w' & evs & done & rest & Hout & Hsplit & Hreq & _).
    rewrite Hout. cbn [snd calls].
    apply (events_follow_attempts (escapedFilter st ft) evs done Hreq).
    pose proof (plan_filters ep tok st ft mc) as Hp. rewrite Hsplit in Hp.
    apply Forall_app in Hp. tauto.
  - destruct (progressiveSearch_first_call fetch ep tok
                (fromOnly "O'Brien's@x.com") noFilters mc w _ _ (fun _ => True)
                (plan_sender ep tok (fromOnly "O'Brien's@x.com") noFilters mc
                   "O'Brien's@x.com" eq_refl eq_refl))
      as (r & w' & res & rest & Hout & _).
    + apply Forall_forall; auto.
    + exists res, rest. rewrite Hout. cbn [snd calls paged].
      unfold senderRequest, withBooleans, senderClause.
      change (Js.replace_quotes "O'Brien's@x.com") with "O''Brien''s@x.com".
      change (anyBoolean noFilters) with false. cbv iota.
      rewrite Hlow. reflexivity.
  - destruct (progressiveSearch_first_call fetch ep tok
                (mkSearchTerms None None None (Some "O'Brien's")) noFilters mc w
                (mkAttempt "filter-subject-startswith"
                   (mkPagedRequest
                      (mkRequest tok "GET" ep
                         (mkQueryParams (Some (Z.min 50 mc))
                            (Some EMAIL_SELECT_FIELDS)
                            (Some "receivedDateTime desc")
                            (Some "startswith(subject,'O''Brien''s')")
                            None None)
                         [])
                      mc) false)
                _ (fun _ => True) eq_refl)
      as (r & w' & res & rest & Hout & _).
    + apply Forall_forall; auto.
    + exists res, rest. rewrite Hout. reflexivity.
Qed.

End Escaping.

(** The sender [O'Brien's@x.com] and the subject [O'Brien's], with the
    folding of ASCII letters. *)
Lemma C8_witness :
  (forall s,
      Js.unescape_quotes (Js.replace_quotes s) = s
      /\ Js.count_char Js.quote (Js.replace_quotes s)
         = 2 * Js.count_char Js.quote s)
  /\ Forall (fun e => exists rq res,
                 e = EvPaged rq res
                 /\ escapedFilter (mkSearchTerms None (Some "O'Brien's@x.com") None
                                     (Some "O'Brien's"))
                      noFilters rq)
       (calls (snd (progressiveSearch alwaysFailing inboxEndpoint "token"
                      (mkSearchTerms None (Some "O'Brien's@x.com") None
                         (Some "O'Brien's"))
                      noFilters 10 (start tt))))
  /\ (exists res rest,
         calls (snd (progressiveSearch alwaysFailing inboxEndpoint "token"
                       (fromOnly "O'Brien's@x.com") noFilters 10 (start tt)))
         = EvPaged
             (mkPagedRequest
                (mkRequest "token" "GET" "me/messages"
                   (mkQueryParams (Some (Z.min 50 10)) (Some EMAIL_SELECT_FIELDS)
                      None
                      (Some "sender/emailAddress/address eq 'o''brien''s@x.com'")
                      None (Some "true"))
                   [("ConsistencyLevel", "eventual")])
                10) res :: rest)
  /\ (exists res rest,
         calls (snd (progressiveSearch alwaysFailing inboxEndpoint "token"
                       (mkSearchTerms None None None (Some "O'Brien's"))
                       noFilters 10 (start tt)))
         = EvPaged
             (mkPagedRequest
                (mkRequest "token" "GET" inboxEndpoint
                   (mkQueryParams (Some (Z.min 50 10)) (Some EMAIL_SELECT_FIELDS)
                      (Some "receivedDateTime desc")
                      (Some "startswith(subject,'O''Brien''s')")
                      None None)
                   [])
                10) res :: rest).
Proof.
  exact (C8_quotes_are_doubled_in_filters alwaysFailing inboxEndpoint "token"
           (mkSearchTerms None (Some "O'Brien's@x.com") None (Some "O'Brien's"))
           noFilters 10 tt eq_refl).
Defined.

(** The clause sent for the sender [O'Brien's@x.com] does not hold
    [O''Brien''s]: the address is lower-cased.  And for the sender
    [O'Brien's], which has no [@], no call carries a [$filter] at all. *)
Lemma C8_counterexample :
  (exists w' sent,
      snd (progressiveSearch scripted inboxEndpoint "token"
             (fromOnly "O'Brien's@x.com") noFilters 10 (start [inr threeItems]))
      = mkNet w'
          [EvPaged
             (mkPagedRequest
                (mkRequest "token" "GET" "me/messages"
                   (mkQueryParams (Some 10%Z) (Some EMAIL_SELECT_FIELDS) None
                      (Some sent) None (Some "true"))
                   [("ConsistencyLevel", "eventual")])
                10)
             (inr threeItems)]
      /\ sent = "sender/emailAddress/address eq 'o''brien''s@x.com'"
      /\ Js.includes "O''Brien''s" sent = false)
  /\ map (fun e => match pagedRequestOf e with
                   | Some rq => _filter (queryParams (request rq))
                   | None => None
                   end)
       (calls (snd (progressiveSearch scripted inboxEndpoint "token"
                      (fromOnly "O'Brien's") noFilters 10
                      (start [inr (page []); inr (page [])]))))
     = [None; None].
Proof.
  split.
  - exists [], "sender/emailAddress/address eq 'o''brien''s@x.com'".
    split; [vm_compute; reflexivity|]. split; [reflexivity|].
    vm_compute. reflexivity.
  - vm_compute. reflexivity.
Qed.

(** ** Failures of the remote *)

Lemma snoc_eq_inv {A} (l l' : list A) x y : (l ++ [x] = l' ++ [y])%list -> x = y.
Proof.
  intros H. apply app_inj_tail in H. tauto.
Qed.

Section Failures.

Context {engine : Engine}.
Context {W : Type}.
Variable fetch : PagedRequest -> W -> Settled Mail.Email * W.

(** A search never throws. *)
Lemma progressiveSearch_returns ep tok st ft mc (w : W) :
  exists r, fst (progressiveSearch fetch ep tok st ft mc (start w)) = inr r.
Proof.
  destruct (progressiveSearch_trace fetch ep tok st ft mc w)
    as (r & w' & evs & _ & _ & Hout & _).
  exists r. now rewrite Hout.
Qed.

(** C2 (as amended).  Whatever error a call of a search is rejected
    with, the authentication failure included, the search does not
    propagate it: it returns a result.  If strategies remain in the table
    after the rejected call, the next one is attempted; if the rejected
    call is the last of the log, every applicable strategy has been
    attempted and the failure object is returned. *)
Theorem C2_auth_failure_is_absorbed ep tok st ft mc (w : W) :
  let out := progressiveSearch fetch ep tok st ft mc (start w) in
  (exists r, fst out = inr r)
  /\ forall e pre rq post,
       calls (snd out) = (pre ++ EvPaged rq (inl e) :: post)%list ->
       (length pre + 1 < length (tagsFor st ft) -> post <> [])
       /\ (post = [] ->
           length (tagsFor st ft) = length pre + 1
           /\ fst out = inr (allFailedResponse (tagsFor st ft))).
Proof.
  cbv zeta. split; [apply progressiveSearch_returns|].
  intros e pre rq post Hcalls.
  destruct (progressiveSearch_result fetch ep tok st ft mc w)
    as [(pre' & a & rest & preE & resp & w' & Hsplit & Hlost & Hwin & Hout)
       | (evs & w' & Hlost & Hout)];
    rewrite Hout in *; cbn [fst snd calls] in *.
  - assert (post <> []) as Hne.
    { intros ->. apply snoc_eq_inv in Hcalls. discriminate. }
    split; [auto|contradiction].
  - pose proof (Forall2_length Hlost) as Hlen.
    rewrite <- (plan_tags ep tok st ft mc), length_map, Hlen, Hcalls.
    rewrite length_app. cbn [length]. split.
    + intros Hlt ->. cbn in Hlt. lia.
    + intros ->. cbn. split; [lia|reflexivity].
Qed.

Lemma alike_step (g1 g2 : @Net W) (w' : W) rq res1 res2 :
  alike g1 g2 ->
  alike (mkNet w' (calls g1 ++ [EvPaged rq res1])%list)
        (mkNet w' (calls g2 ++ [EvPaged rq res2])%list).
Proof.
  intros [_ Hc]. split; [reflexivity|]. cbn [calls].
  rewrite !map_app, Hc. reflexivity.
Qed.

Lemma absorb_eq rq (w : W) :
  absorb fetch rq w
  = (match fst (fetch rq w) with
     | inl _ => inr (page [])
     | inr response => inr response
     end,
     snd (fetch rq w)).
Proof.
  unfold absorb. destruct (fetch rq w) as [[e|resp] w']; reflexivity.
Qed.

(** Attempts whose empty response does not end the cascade run alike
    against a remote and against the remote that absorbs its failures. *)
Lemma attemptAll_absorb {A} attempts
      (k1 k2 : M (@Net W) (list string) SearchResponse A)
      (Q : Completion SearchResponse A * (list string * @Net W) ->
           Completion SearchResponse A * (list string * @Net W) -> Prop) :
  Forall (fun a => terminal a = false) attempts ->
  (forall sa g1 g2, alike g1 g2 -> Q (k1 (sa, g1)) (k2 (sa, g2))) ->
  (forall r sa (g1 g2 : @Net W) w' rq resp,
      alike g1 g2 ->
      Q (Return r, (sa, @mkNet W w' (calls g1 ++ [EvPaged rq (inr resp)])%list))
        (Return r, (sa, @mkNet W w' (calls g2 ++ [EvPaged rq (inr resp)])%list))) ->
  forall sa g1 g2,
    alike g1 g2 ->
    Q (attemptAll fetch attempts k1 (sa, g1))
      (attemptAll (absorb fetch) attempts k2 (sa, g2)).
Proof.
  intros Hnt Hk Hr. induction Hnt as [|a rest Ha _ IH]; intros sa g1 g2 Hg.
  - apply Hk, Hg.
  - cbn [attemptAll fst snd].
    destruct Hg as [Hw Hc]. rewrite <- Hw.
    pose proof (absorb_eq (paged a) (world g1)) as Hab.
    destruct (fetch (paged a) (world g1)) as [[e|resp] w'];
      cbn [fst snd] in Hab |- *; rewrite Hab; cbn [fst snd].
    + rewrite Ha. cbn [page hasItems value orb].
      apply IH, alike_step. now split.
    + rewrite Ha, orb_false_r. destruct (hasItems resp).
      * apply Hr. now split.
      * apply IH, alike_step. now split.
Qed.

End Failures.

Lemma run_fst {G L R} (body : Body G L R) l g :
  fst (run body l g)
  = match fst (body (l, g)) with
    | Normal a => match a with end
    | Return r => inr r
    | Throw e => inl e
    end.
Proof.
  unfold run. destruct (body (l, g)) as [[a|r|e] [l' g']];
    [destruct a|reflexivity|reflexivity].
Qed.

Lemma run_snd {G L R} (body : Body G L R) l g :
  snd (run body l g) = snd (snd (body (l, g))).
Proof.
  unfold run. destruct (body (l, g)) as [[a|r|e] [l' g']];
    [destruct a|reflexivity|reflexivity].
Qed.

Section Absorption.

Context {engine : Engine}.
Context {W : Type}.
Variable fetch : PagedRequest -> W -> Settled Mail.Email * W.

Lemma strategy5_absorb ep tok ft mc sa (g1 g2 : @Net W) :
  alike g1 g2 ->
  endsAlike ep tok ft mc
    (attemptAll fetch (plan5 ep tok ft mc) allFailed (sa, g1))
    (attemptAll (absorb fetch) (plan5 ep tok ft mc) allFailed (sa, g2)).
Proof.
  intros Hg. rewrite plan5_eq. unfold endsAlike.
  destruct (anyBoolean ft) eqn:Hany.
  - cbn [attemptAll fst snd paged tag terminal].
    destruct Hg as [Hw Hc]. rewrite <- Hw.
    pose proof (absorb_eq fetch (booleanRequest ep tok ft mc) (world g1)) as Hab.
    destruct (fetch (booleanRequest ep tok ft mc) (world g1)) as [[e|resp] w'];
      cbn [fst snd] in Hab |- *; rewrite Hab; cbn [fst snd].
    + cbn. split; [apply alike_step; now split|].
      right. split; [reflexivity|].
      exists (sa ++ ["boolean-filters-only"])%list, (calls g1), e. auto.
    + rewrite orb_true_r. cbn [fst snd].
      split; [apply alike_step; now split|]. left. split; [reflexivity|].
      intros _. cbn [calls]. eexists _, _, _. reflexivity.
  - cbn. split; [exact Hg|]. left. split; [reflexivity|]. discriminate.
Qed.

Lemma progressiveSearch_absorb ep tok st ft mc (w : W) :
  endsAlike ep tok ft mc
    (attemptAll fetch (plan ep tok st ft mc) allFailed ([], start w))
    (attemptAll (absorb fetch) (plan ep tok st ft mc) allFailed ([], start w)).
Proof.
  rewrite plan_early_late, !attemptAll_app.
  apply (attemptAll_absorb fetch (earlyAttempts ep tok st ft mc)).
  - apply early_not_terminal.
  - intros sa g1 g2 Hg. now apply strategy5_absorb.
  - intros r sa g1 g2 w' rq resp Hg. cbn [fst snd].
    split; [now apply alike_step|]. left. split; [reflexivity|].
    intros _. cbn [calls]. eexists _, _, _. reflexivity.
  - split; reflexivity.
Qed.

(** C3 (as amended).  A search never throws.  Run against the remote
    that answers an empty page where the given remote rejects a call, it
    issues the same requests and leaves the remote in the same state.
    When the last call of a search is rejected, the search returns the
    failure object: no item, the log of the attempted strategies,
    [failed: true]; if a boolean filter is requested, that call is the
    call of strategy 5, and against the absorbing remote the search
    returns the empty page instead, without the flag.  In every other
    case the two searches return the same result: for strategies 1 to 4 a
    rejected call counts as an empty page.  When the call of strategy 5
    is fulfilled without an item, its response is returned as it is,
    without the flag.  And when no boolean filter is requested and no call
    delivered an item, the search returns the failure object. *)
Theorem C3_failures_are_absorbed ep tok st ft mc (w : W) :
  let out := progressiveSearch fetch ep tok st ft mc (start w) in
  let out' := progressiveSearch (absorb fetch) ep tok st ft mc (start w) in
  let failure : JsError + SearchResponse :=
    inr (mkSearchResponse (mkResponse (Some []) None None)
           (Some (mkSearchInfo (tagsFor st ft) (Some true)))) in
  (exists r, fst out = inr r)
  /\ world (snd out') = world (snd out)
  /\ map pagedRequestOf (calls (snd out')) = map pagedRequestOf (calls (snd out))
  /\ (forall pre rq e,
         calls (snd out) = (pre ++ [EvPaged rq (inl e)])%list ->
         fst out = failure
         /\ (anyBoolean ft = true ->
             rq = booleanRequest ep tok ft mc
             /\ fst out'
                = inr (mkSearchResponse (mkResponse (Some []) (Some 0%Z) None)
                         (Some (mkSearchInfo (tagsFor st ft) None)))))
  /\ ((forall pre rq e,
          anyBoolean ft = true ->
          calls (snd out) <> (pre ++ [EvPaged rq (inl e)])%list) ->
      fst out' = fst out)
  /\ (forall pre rq resp,
         anyBoolean ft = true ->
         calls (snd out) = (pre ++ [EvPaged rq (inr resp)])%list ->
         hasItems resp = false ->
         rq = booleanRequest ep tok ft mc
         /\ fst out
            = inr (mkSearchResponse resp (Some (mkSearchInfo (tagsFor st ft) None))))
  /\ (anyBoolean ft = false ->
      Forall barren (calls (snd out)) ->
      fst out = failure).
Proof.
  cbv zeta. split; [apply progressiveSearch_returns|].
  pose proof (progressiveSearch_absorb ep tok st ft mc w) as [[Hw Hc] Hres].
  assert (Hrejected : forall pre rq e,
             calls (snd (progressiveSearch fetch ep tok st ft mc (start w)))
             = (pre ++ [EvPaged rq (inl e)])%list ->
             fst (progressiveSearch fetch ep tok st ft mc (start w))
             = inr (allFailedResponse (tagsFor st ft))).
  { intros pre rq e Hcalls.
    destruct (progressiveSearch_result fetch ep tok st ft mc w)
      as [(pre' & a & rest & preE & resp & w' & _ & _ & _ & Hout)
         | (evs & w' & _ & Hout)];
      rewrite Hout in *; cbn [fst snd calls] in *.
    - apply snoc_eq_inv in Hcalls. discriminate.
    - rewrite plan_tags. reflexivity. }
  rewrite !progressiveSearch_plan, !run_fst, !run_snd in *.
  split; [now rewrite Hw|]. split; [now rewrite Hc|]. split; [|split; [|split]].
  - intros pre rq e Hcalls. split; [exact (Hrejected pre rq e Hcalls)|].
    intros Hany.
    destruct Hres as [[_ Hlast]|(_ & log & pre' & e' & Hcalls' & H1 & H2)].
    + destruct (Hlast Hany) as (pre' & rq' & resp & Hcalls').
      rewrite Hcalls in Hcalls'. apply snoc_eq_inv in Hcalls'. discriminate.
    + rewrite Hcalls in Hcalls'. apply snoc_eq_inv in Hcalls'.
      inversion Hcalls'; subst. split; [reflexivity|].
      pose proof (Hrejected pre (booleanRequest ep tok ft mc) e' Hcalls) as Hf.
      rewrite H1 in Hf. inversion Hf as [Hlog]. rewrite H2, Hlog. reflexivity.
  - intros Hnot.
    destruct Hres as [[Heq _]|(Hany & log & pre' & e' & Hcalls' & _)].
    + now rewrite Heq.
    + exfalso. exact (Hnot pre' _ e' Hany Hcalls').
  - intros pre rq resp Hany Hcalls Hempty.
    destruct (attemptAll_result fetch (plan ep tok st ft mc) [] (start w))
      as [pre' a rest preE resp' w' Hsplit _ Hwin | evs w' Hlost];
      unfold start in *; cbn [fst snd calls app] in *.
    + apply snoc_eq_inv in Hcalls. inversion Hcalls; subst.
      cbn in Hwin. rewrite Hempty in Hwin. cbn [orb] in Hwin.
      destruct (terminal_is_boolean ep tok st ft mc pre' a rest Hsplit Hwin)
        as (Hpaged & _ & _ & ->).
      split; [exact Hpaged|].
      rewrite <- (plan_tags ep tok st ft mc), Hsplit. reflexivity.
    + exfalso. rewrite (plan_ends_in_boolean ep tok st ft mc Hany) in Hlost.
      apply Forall2_app_inv_l in Hlost as (evs1 & evs2 & _ & Hlast & ->).
      inversion Hlast as [|b e0 l0 l0' Hb Hnil]; subst.
      inversion Hnil; subst.
      apply snoc_eq_inv in Hcalls. subst e0.
      destruct Hb as (res & Heq & Hwins). inversion Heq; subst.
      cbn in Hwins. rewrite orb_true_r in Hwins. discriminate.
  - intros Hany Hbarren.
    destruct (attemptAll_result fetch (plan ep tok st ft mc) [] (start w))
      as [pre a rest preE resp w' Hsplit _ Hwin | evs w' _];
      unfold start in *; cbn [fst snd calls app] in *.
    + exfalso. apply Forall_app in Hbarren as [_ Hlast].
      apply Forall_inv in Hlast. cbn in Hlast.
      cbn in Hwin. rewrite Hlast in Hwin. cbn [orb] in Hwin.
      destruct (terminal_is_boolean ep tok st ft mc pre a rest Hsplit Hwin)
        as (_ & _ & Hany' & _).
      congruence.
    + rewrite plan_tags. reflexivity.
Qed.

End Absorption.

(** Every call is rejected with [UNAUTHORIZED]; the search goes through
    its three applicable strategies and returns the failure object, it does
    not throw [UNAUTHORIZED]. *)
Lemma C2_counterexample :
  let out := progressiveSearch alwaysUnauthorized inboxEndpoint "token"
               (fromOnly "a@b.com") noFilters 10 (start tt) in
  calls (snd out)
  = [EvPaged sampleSenderRequest (inl UNAUTHORIZED);
     EvPaged sampleCombinedRequest (inl UNAUTHORIZED);
     EvPaged sampleCombinedRequest (inl UNAUTHORIZED)]
  /\ fst out
     = inr (allFailedResponse
              ["filter-from-exact"; "kql-combined-search"; "kql-single-term-from"])
  /\ fst out <> inl UNAUTHORIZED.
Proof.
  cbv zeta. split; [vm_compute; reflexivity|].
  split; [vm_compute; reflexivity|].
  vm_compute. discriminate.
Qed.

Lemma C2_witness :
  let out := progressiveSearch alwaysUnauthorized inboxEndpoint "token"
               (fromOnly "a@b.com") noFilters 10 (start tt) in
  let post := [EvPaged sampleCombinedRequest (inl UNAUTHORIZED);
               EvPaged sampleCombinedRequest (inl UNAUTHORIZED)] in
  calls (snd out)
  = ([] ++ EvPaged sampleSenderRequest (inl UNAUTHORIZED) :: post)%list
  /\ (length (@nil Event) + 1 < length (tagsFor (fromOnly "a@b.com") noFilters)
      -> post <> [])
  /\ (post = [] ->
      length (tagsFor (fromOnly "a@b.com") noFilters) = length (@nil Event) + 1
      /\ fst out = inr (allFailedResponse (tagsFor (fromOnly "a@b.com") noFilters))).
Proof.
  cbv zeta.
  assert (H : calls (snd (progressiveSearch alwaysUnauthorized inboxEndpoint "token"
                            (fromOnly "a@b.com") noFilters 10 (start tt)))
              = ([] ++ EvPaged sampleSenderRequest (inl UNAUTHORIZED)
                    :: [EvPaged sampleCombinedRequest (inl UNAUTHORIZED);
                        EvPaged sampleCombinedRequest (inl UNAUTHORIZED)])%list)
    by (vm_compute; reflexivity).
  split; [exact H|].
  exact (proj2 (C2_auth_failure_is_absorbed alwaysUnauthorized inboxEndpoint "token"
                  (fromOnly "a@b.com") noFilters 10 tt)
           UNAUTHORIZED [] sampleSenderRequest _ H).
Defined.

(** Strategy 5 alone applies.  When its call is rejected the search
    returns the failure object; when it delivers an empty page the search
    returns that page without the failure flag. *)
Lemma C3_counterexample :
  let ft := mkFilterTerms None (Some true) in
  let out := progressiveSearch alwaysFailing inboxEndpoint "token" noTerms ft 10
               (start tt) in
  let out' := progressiveSearch (absorb alwaysFailing) inboxEndpoint "token" noTerms
                ft 10 (start tt) in
  fst out = inr (allFailedResponse ["boolean-filters-only"])
  /\ fst out' = inr (found (page []) ["boolean-filters-only"])
  /\ fst out <> fst out'.
Proof.
  cbv zeta. split; [vm_compute; reflexivity|].
  split; [vm_compute; reflexivity|].
  vm_compute. discriminate.
Qed.

Lemma C3_witness :
  let ft := mkFilterTerms None (Some true) in
  let out := progressiveSearch alwaysFailing inboxEndpoint "token" noTerms ft 10
               (start tt) in
  let out' := progressiveSearch (absorb alwaysFailing) inboxEndpoint "token" noTerms
                ft 10 (start tt) in
  calls (snd out)
  = ([] ++ [EvPaged (booleanRequest inboxEndpoint "token" ft 10) (rejectedWith 500)])%list
  /\ fst out
     = inr (mkSearchResponse (mkResponse (Some []) None None)
              (Some (mkSearchInfo (tagsFor noTerms ft) (Some true))))
  /\ (anyBoolean ft = true ->
      booleanRequest inboxEndpoint "token" ft 10
      = booleanRequest inboxEndpoint "token" ft 10
      /\ fst out'
         = inr (mkSearchResponse (mkResponse (Some []) (Some 0%Z) None)
                  (Some (mkSearchInfo (tagsFor noTerms ft) None)))).
Proof.
  cbv zeta.
  assert (H : calls (snd (progressiveSearch alwaysFailing inboxEndpoint "token"
                            noTerms (mkFilterTerms None (Some true)) 10 (start tt)))
              = ([] ++ [EvPaged (booleanRequest inboxEndpoint "token"
                                   (mkFilterTerms None (Some true)) 10)
                          (rejectedWith 500)])%list)
    by (vm_compute; reflexivity).
  split; [exact H|].
  exact (proj1 (proj2 (proj2 (proj2
           (C3_failures_are_absorbed alwaysFailing inboxEndpoint "token"
              noTerms (mkFilterTerms None (Some true)) 10 tt))))
           [] _ (mkError "API call failed with status 500: ") H).
Defined.

(** ** Folder resolution *)

Lemma well_known_nonempty key ep :
  getOwn WELL_KNOWN_FOLDERS key = Some ep -> ep <> EmptyString.
Proof.
  unfold WELL_KNOWN_FOLDERS. cbn [getOwn].
  repeat match goal with
         | |- context [String.eqb ?a key] => destruct (String.eqb a key)
         end;
    intros H; inversion H; discriminate.
Qed.

Lemma find_otherName {engine : Engine} name l :
  Forall (otherName name) l ->
  find (fun f => String.eqb (toLowerCase (displayName f)) (toLowerCase name)) l
  = None.
Proof.
  induction 1 as [|f l Hf _ IH]; [reflexivity|].
  cbn [find]. destruct (String.eqb_spec (toLowerCase (displayName f))
                          (toLowerCase name)); [contradiction|exact IH].
Qed.

Section FolderResolution.

Context {engine : Engine}.
Context {W : Type}.
Variable graphAPI : Request -> W -> Settled MailFolder * W.

Ltac run_folder_call :=
  cbv [run try_catch bind await callGraphAPI return_ ret fst snd].

Lemma childFoldersOf_others tok name folder (g : @Net W) :
  noFolderNamed graphAPI name ->
  exists l g', childFoldersOf graphAPI tok folder g = (inr l, g')
               /\ Forall (otherName name) l.
Proof.
  intros Hno. unfold childFoldersOf. run_folder_call.
  match goal with
  | |- context [graphAPI ?rq ?w] =>
      specialize (Hno rq w); destruct (graphAPI rq w) as [[e|resp] w']
  end; cbn [fst] in Hno.
  - do 2 eexists. split; [reflexivity|constructor].
  - destruct Hno as [_ Hall]. unfold items in Hall.
    destruct (value resp); do 2 eexists; (split; [reflexivity|assumption]).
Qed.

Lemma map_all_children tok name folders (s : unit * @Net W) :
  noFolderNamed graphAPI name ->
  exists ls s',
    map_all (R:=list MailFolder)
      (fun folder => await (childFoldersOf graphAPI tok folder)) folders s
    = (Normal ls, s')
    /\ Forall (Forall (otherName name)) ls.
Proof.
  intros Hno. revert s. induction folders as [|f folders IH]; intros s.
  - cbn. do 2 eexists. split; [reflexivity|constructor].
  - cbn [map_all]. unfold bind at 1. unfold await at 1.
    destruct (childFoldersOf_others tok name f (snd s) Hno) as (l & g' & -> & Hl).
    destruct (IH (fst s, g')) as (ls & s' & Hrest & Hls).
    unfold bind at 1. rewrite Hrest. cbn.
    do 2 eexists. split; [reflexivity|constructor; assumption].
Qed.

Lemma getAllFolders_others tok name (g : @Net W) :
  noFolderNamed graphAPI name ->
  exists l g', getAllFolders graphAPI tok g = (inr l, g')
               /\ Forall (otherName name) l.
Proof.
  intros Hno. unfold getAllFolders. unfold run, try_catch. unfold bind at 1.
  unfold await at 1, callGraphAPI.
  match goal with
  | |- context [graphAPI ?rq ?w] =>
      pose proof (Hno rq w) as H1; destruct (graphAPI rq w) as [[e|resp] w']
  end; cbn [fst snd] in *.
  - cbn. do 2 eexists. split; [reflexivity|constructor].
  - destruct H1 as [_ Hall]. unfold items in Hall.
    destruct (value resp) as [folders|];
      [|cbn; do 2 eexists; split; [reflexivity|constructor]].
    unfold bind at 1.
    match goal with
    | |- context [map_all ?f ?fs ?s] =>
        destruct (map_all_children tok name fs s Hno) as (ls & [u g'] & -> & Hls)
    end.
    cbn. do 2 eexists. split; [reflexivity|].
    apply Forall_app. split; [exact Hall|].
    clear -Hls. induction Hls; cbn; [constructor|].
    apply Forall_app. auto.
Qed.

Lemma getFolderIdByName_none tok name (g : @Net W) :
  noFolderNamed graphAPI name ->
  exists g', getFolderIdByName graphAPI tok name g = (inr None, g').
Proof.
  intros Hno. unfold getFolderIdByName, run.
  unfold bind at 1.
  match goal with
  | |- context [try_catch ?b ?h ?s] =>
      assert (exists s', try_catch b h s = (Normal tt, s')) as [[u1 g1] ->]
  end.
  { unfold try_catch. unfold bind at 1. unfold await at 1, callGraphAPI.
    match goal with
    | |- context [graphAPI ?rq ?w] =>
        pose proof (Hno rq w) as H1; destruct (graphAPI rq w) as [[e|resp] w']
    end; cbn [fst snd] in *; [eexists; reflexivity|].
    destruct H1 as [Hempty _].
    assert (hasItems resp = false) as Hnone by (apply Hempty; discriminate).
    unfold hasItems in Hnone. unfold bind at 1.
    assert (forall s : unit * @Net W,
               match value resp with
               | Some (first :: _) =>
                   return_ (G:=@Net W) (L:=unit) (A:=unit) (Some (id first))
               | _ => ret tt
               end s = (Normal tt, s)) as ->
      by (intros s; destruct (value resp) as [[|]|];
          [reflexivity|discriminate|reflexivity]).
    unfold bind at 1. unfold await at 1, callGraphAPI. cbn [fst snd world calls].
    match goal with
    | |- context [graphAPI ?rq ?w] =>
        pose proof (Hno rq w) as H2; destruct (graphAPI rq w) as [[e2|resp2] w2]
    end; cbn [fst snd] in *; [eexists; reflexivity|].
    destruct H2 as [_ Hall]. unfold items in Hall.
    destruct (value resp2) as [folders|]; [|eexists; reflexivity].
    rewrite (find_otherName name folders Hall). eexists; reflexivity. }
  unfold bind at 1.
  match goal with
  | |- context [try_catch ?b ?h ?s] =>
      assert (exists s', try_catch b h s = (Normal tt, s')) as [[u2 g2] ->]
  end.
  { unfold try_catch. unfold bind at 1. unfold await at 1. cbn [fst snd].
    destruct (getAllFolders_others tok name g1 Hno) as (l & g' & -> & Hl).
    rewrite (find_otherName name l Hl). eexists; reflexivity. }
  eexists; reflexivity.
Qed.

(** An empty or absent name resolves to the inbox, without any call. *)
Lemma resolveFolderPath_default tok name (g : @Net W) :
  Js.truthy name = false ->
  resolveFolderPath graphAPI tok name g
  = (inr (JsString "me/mailFolders/inbox/messages"), g).
Proof.
  intros H. unfold resolveFolderPath, run. unfold bind at 1. rewrite H.
  destruct g. reflexivity.
Qed.

Lemma truthy_nonempty n : n <> EmptyString -> Js.truthy (Some n) = true.
Proof.
  intros H. cbn. destruct (String.eqb_spec n EmptyString);
    [contradiction|reflexivity].
Qed.

(** A name whose lower-casing is a key of [WELL_KNOWN_FOLDERS] resolves
    to the endpoint stored under that key, without any call. *)
Lemma resolveFolderPath_alias tok n ep (g : @Net W) :
  n <> EmptyString ->
  getOwn WELL_KNOWN_FOLDERS (toLowerCase n) = Some ep ->
  resolveFolderPath graphAPI tok (Some n) g = (inr (JsString ep), g).
Proof.
  intros Hn Hk. unfold resolveFolderPath, run. unfold bind at 1.
  rewrite (truthy_nonempty n Hn). cbn [negb when ret the].
  unfold bind at 1. unfold getProperty. rewrite Hk.
  cbn [truthyValue]. pose proof (well_known_nonempty _ _ Hk) as Hep.
  destruct (String.eqb_spec ep EmptyString); [contradiction|].
  destruct g. reflexivity.
Qed.

(** A name whose lower-casing is a property that the object literal
    inherits resolves to that inherited member, without any call. *)
Lemma resolveFolderPath_inherited tok n (g : @Net W) :
  n <> EmptyString ->
  getOwn WELL_KNOWN_FOLDERS (toLowerCase n) = None ->
  existsb (String.eqb (toLowerCase n)) Object_prototype = true ->
  resolveFolderPath graphAPI tok (Some n) g
  = (inr (JsInherited (toLowerCase n)), g).
Proof.
  intros Hn Hk Hin. unfold resolveFolderPath, run. unfold bind at 1.
  rewrite (truthy_nonempty n Hn). cbn [negb when ret the].
  unfold bind at 1. unfold getProperty. rewrite Hk, Hin.
  destruct g. reflexivity.
Qed.

(** Any other name, when no folder of the remote matches it, is
    rejected with the error that tells to list the folders. *)
Lemma resolveFolderPath_not_found tok n (g : @Net W) :
  n <> EmptyString ->
  getProperty WELL_KNOWN_FOLDERS (toLowerCase n) = JsUndefined ->
  noFolderNamed graphAPI n ->
  exists g', resolveFolderPath graphAPI tok (Some n) g
             = (inl (FolderNotFound n), g').
Proof.
  intros Hn Hk Hno. unfold resolveFolderPath, run. unfold bind at 1.
  rewrite (truthy_nonempty n Hn). cbn [negb when ret the].
  unfold bind at 1. rewrite Hk. cbn [truthyValue when ret].
  unfold bind at 1. unfold await at 1. cbn [fst snd].
  destruct (getFolderIdByName_none tok n g Hno) as [g' ->].
  eexists. reflexivity.
Qed.

End FolderResolution.

(** The alias [Inbox], in any case, without any call (with the folding
    of ASCII letters). *)
Example resolveFolderPath_Inbox {W} (graphAPI : Request -> W -> Settled MailFolder * W)
    tok (g : @Net W) :
  resolveFolderPath graphAPI tok (Some "Inbox") g
  = (inr (JsString "me/mailFolders/inbox/messages"), g)
  /\ resolveFolderPath graphAPI tok (Some "INBOX") g
     = (inr (JsString "me/mailFolders/inbox/messages"), g)
  /\ resolveFolderPath graphAPI tok (Some "Sent") g
     = (inr (JsString "me/mailFolders/sentItems/messages"), g).
Proof.
  repeat split; apply resolveFolderPath_alias; (discriminate || reflexivity).
Qed.

(** C9.  The name [constructor] is none of the six aliases and, in a
    mailbox without folders, matches no folder; yet [resolveFolderPath]
    does not reject it: the read [WELL_KNOWN_FOLDERS["constructor"]] finds
    the member inherited from [Object.prototype], which is truthy, and
    returns it without any call.  A name such as [Invoices] is rejected as
    the contract says, after the three listings.  (The names hold ASCII
    letters only; they are lower-cased with [sampleEngine].) *)
Theorem C9_inherited_name_is_not_rejected :
  getOwn WELL_KNOWN_FOLDERS (toLowerCase "constructor") = None
  /\ noFolderNamed noFolders "constructor"
  /\ resolveFolderPath noFolders "token" (Some "constructor") (start tt)
     = (inr (JsInherited "constructor"), start tt)
  /\ fst (resolveFolderPath noFolders "token" (Some "constructor") (start tt))
     <> inl (FolderNotFound "constructor")
  /\ fst (resolveFolderPath noFolders "token" (Some "Invoices") (start tt))
     = inl (FolderNotFound "Invoices")
  /\ length (calls (snd (resolveFolderPath noFolders "token" (Some "Invoices")
                           (start tt)))) = 3.
Proof.
  split; [reflexivity|]. split.
  - intros rq w. cbn. split; [reflexivity|constructor].
  - split; [vm_compute; reflexivity|].
    split; [vm_compute; discriminate|].
    split; vm_compute; reflexivity.
Qed.


(** * Properties of the rest of the Graph client and of the e-mail tools *)

(** ** Numbers *)

(** A finite number is below an integer exactly when its ceiling is. *)
Lemma Qle_bool_ceiling q z : Qle_bool q (inject_Z z) = Z.leb (Qceiling q) z.
Proof.
  destruct (Qle_bool q (inject_Z z)) eqn:E; symmetry.
  - apply Qle_bool_iff in E. apply Z.leb_le.
    apply Qceiling_resp_le in E. rewrite Qceiling_Z in E. exact E.
  - apply Z.leb_gt. destruct (Z.le_gt_cases (Qceiling q) z) as [Hle|Hgt]; [|lia].
    exfalso. assert (Ht : Qle_bool q (inject_Z z) = true).
    { apply Qle_bool_iff. eapply Qle_trans; [apply Qle_ceiling|].
      rewrite <- Zle_Qle. exact Hle. }
    congruence.
Qed.

Lemma reached_ceiling q len :
  Js.reached len (Js.Finite q) = Z.leb (Qceiling q) (Z.of_nat len).
Proof. apply Qle_bool_ceiling. Qed.

Lemma isPositive_ceiling q : Js.isPositive (Js.Finite q) = Z.ltb 0 (Qceiling q).
Proof.
  unfold Js.isPositive. change 0%Q with (inject_Z 0).
  rewrite Qle_bool_ceiling. symmetry. apply Z.ltb_antisym.
Qed.

Lemma isPositive_finite q : (0 < q)%Q -> Js.isPositive (Js.Finite q) = true.
Proof.
  intros H. unfold Js.isPositive. destruct (Qle_bool q 0) eqn:E; [|reflexivity].
  apply Qle_bool_iff in E. exfalso. exact (Qlt_not_le _ _ H E).
Qed.

(** A positive count is not reached by an empty list. *)
Lemma reached_nil mc : Js.isPositive mc = true -> Js.reached 0 mc = false.
Proof.
  destruct mc as [q| |[|]]; cbn; try discriminate; [|reflexivity].
  change (inject_Z 0) with 0%Q. now intros ->%negb_true_iff.
Qed.

(** [slice(0, q)] of a list, for a positive finite [q], keeps the first
    [floor q] items. *)
Lemma slice_finite {T} q (l : list T) :
  (0 < q)%Q -> Js.slice (Js.Finite q) l = firstn (Z.to_nat (Qfloor q)) l.
Proof.
  intros H. unfold Js.slice, Js.truncate.
  assert (H0 : Qle_bool 0 q = true) by (apply Qle_bool_iff, Qlt_le_weak, H).
  rewrite H0.
  assert (Hf : (0 <= Qfloor q)%Z).
  { change 0%Z with (Qfloor (inject_Z 0)) at 1. rewrite Qfloor_Z.
    rewrite <- (Qfloor_Z 0). apply Qfloor_resp_le. apply Qlt_le_weak, H. }
  destruct (Z.ltb_spec (Qfloor q) 0); [lia|reflexivity].
Qed.

(** For a whole number the tests and the cut are those on integers. *)
Lemma isPositive_integer z : Js.isPositive (Js.integer z) = Z.ltb 0 z.
Proof.
  unfold Js.integer. rewrite isPositive_ceiling, Qceiling_Z. reflexivity.
Qed.

Lemma reached_integer len z :
  Js.reached len (Js.integer z) = Z.leb z (Z.of_nat len).
Proof.
  unfold Js.integer. rewrite reached_ceiling, Qceiling_Z. reflexivity.
Qed.

Lemma slice_integer {T} z (l : list T) :
  (0 <= z)%Z -> Js.slice (Js.integer z) l = firstn (Z.to_nat z) l.
Proof.
  intros Hz. unfold Js.slice, Js.integer, Js.truncate.
  destruct (Qle_bool 0 (inject_Z z)); rewrite ?Qfloor_Z, ?Qceiling_Z;
    destruct (Z.ltb_spec z 0); (lia || reflexivity).
Qed.

(** ** Pagination *)

Section PaginationFacts.

Context {W T : Type}.
Variable graph : Request -> W -> Settled T * W.

Lemma finalItems_length q (l : list T) :
  (0 < q)%Q -> (Z.of_nat (length (Api.finalItems (Js.Finite q) l)) <= Qfloor q)%Z.
Proof.
  intros H. unfold Api.finalItems. rewrite (isPositive_finite q H), (slice_finite q l H).
  assert (Hf : (0 <= Qfloor q)%Z).
  { rewrite <- (Qfloor_Z 0). apply Qfloor_resp_le. apply Qlt_le_weak, H. }
  rewrite length_firstn. lia.
Qed.

Lemma paginate_shape fuel tok meth url params mc hdrs :
  forall (acc : list T) (w : W) r w',
    Api.paginate graph fuel tok meth url params mc hdrs acc w = Some (inr r, w') ->
    exists l,
      r = mkResponse (Some l) (Some (Z.of_nat (length l))) None
      /\ (forall q, mc = Js.Finite q -> (0 < q)%Q ->
          (Z.of_nat (length l) <= Qfloor q)%Z).
Proof.
  revert url params. induction fuel as [|fuel IH]; intros url params acc w r w' H;
    [discriminate|].
  cbn [Api.paginate] in H.
  destruct (graph _ w) as [[e|resp] w1]; [discriminate|].
  cbv zeta in H.
  match type of H with
  | (if ?c then _ else _) = _ => destruct c
  end.
  - inversion H; subst. eexists. split; [reflexivity|].
    intros q -> Hq. now apply finalItems_length.
  - destruct (Js.truthy (odata_nextLink resp)).
    + eapply IH; eassumption.
    + inversion H; subst. eexists. split; [reflexivity|].
      intros q -> Hq. now apply finalItems_length.
Qed.

Lemma gathered (acc : list T) (resp : GraphAPIResponse T) :
  match value resp with
  | Some v => (acc ++ v)%list
  | None => acc
  end = (acc ++ items resp)%list.
Proof.
  unfold items. destruct (value resp); [reflexivity|now rewrite app_nil_r].
Qed.

Lemma paginate_unfold fuel tok meth url params mc hdrs (acc : list T) (w : W) :
  Api.paginate graph (S fuel) tok meth url params mc hdrs acc w
  = match graph (mkRequest tok meth url params hdrs) w with
    | (inl error, w') => Some (inl error, w')
    | (inr response, w') =>
        if Js.isPositive mc && Js.reached (length (acc ++ items response)) mc
        then Some (Api.finish mc (acc ++ items response), w')
        else if Js.truthy (odata_nextLink response)
             then Api.paginate graph fuel tok meth (the (odata_nextLink response))
                    emptyParams mc hdrs (acc ++ items response) w'
             else Some (Api.finish mc (acc ++ items response), w')
    end.
Proof.
  cbn [Api.paginate]. destruct (graph _ w) as [[e|resp] w1]; [reflexivity|].
  cbv zeta. now rewrite gathered.
Qed.

(** With a positive finite count and a remote whose fulfilled pages are
    never empty, the loop ends within [fuel] iterations as soon as the
    items gathered and the fuel together reach the count. *)
Lemma paginate_progress tok meth q hdrs :
  (forall rq w resp w', graph rq w = (inr resp, w') -> hasItems resp = true) ->
  forall fuel url params (acc : list T) (w : W),
    (Z.of_nat (length acc) < Qceiling q)%Z ->
    (Qceiling q <= Z.of_nat (length acc) + Z.of_nat fuel)%Z ->
    Api.paginate graph fuel tok meth url params (Js.Finite q) hdrs acc w <> None.
Proof.
  intros Hfull. induction fuel as [|fuel IH]; intros url params acc w Hlt Hle;
    [cbn in Hle; lia|].
  rewrite paginate_unfold.
  destruct (graph _ w) as [[e|resp] w1] eqn:Hg; [discriminate|].
  rewrite isPositive_ceiling, reached_ceiling.
  destruct (Z.ltb 0 (Qceiling q)
            && Z.leb (Qceiling q) (Z.of_nat (length (acc ++ items resp)))) eqn:Hc;
    [discriminate|].
  destruct (Js.truthy (odata_nextLink resp)); [|discriminate].
  assert (Hone : (1 <= length (items resp))%nat).
  { specialize (Hfull _ _ _ _ Hg). unfold hasItems, items in *.
    destruct (value resp) as [[|x l]|]; try discriminate. cbn. lia. }
  apply andb_false_iff in Hc.
  rewrite length_app in *.
  apply IH.
  - rewrite length_app. destruct Hc as [Hc|Hc];
      [apply Z.ltb_ge in Hc|apply Z.leb_gt in Hc]; lia.
  - rewrite length_app. lia.
Qed.

End PaginationFacts.

Section PaginationRecord.

Context {W T : Type}.
Variable graph : Request -> W -> Settled T * W.

Lemma pagesOf_cons (rq : Request) (resp : GraphAPIResponse T) log :
  Api.pagesOf ((rq, inr resp) :: log) = (items resp ++ Api.pagesOf log)%list.
Proof. reflexivity. Qed.

Lemma pagesOf_app (l1 l2 : list (Request * Settled T)) :
  Api.pagesOf (l1 ++ l2) = (Api.pagesOf l1 ++ Api.pagesOf l2)%list.
Proof.
  unfold Api.pagesOf. now rewrite map_app, concat_app.
Qed.

(** What a run of the loop against the recording remote leaves in the
    record, and how its outcome reads off the record. *)
Lemma paginate_record tok meth mc hdrs :
  forall fuel url params (acc : list T) (w : W) log0 out w' log,
    Api.paginate (Api.recording graph) fuel tok meth url params mc hdrs acc (w, log0)
    = Some (out, (w', log)) ->
    (Js.isPositive mc = true -> Js.reached (length acc) mc = false) ->
    exists pre rq res,
      log = (log0 ++ pre ++ [(rq, res)])%list
      /\ Forall fulfilled pre
      /\ Api.chained tok meth hdrs url params (pre ++ [(rq, res)])
      /\ (Js.isPositive mc = true ->
          Js.reached (length (acc ++ Api.pagesOf pre)) mc = false)
      /\ match out with
         | inr r =>
             (exists resp, res = inr resp)
             /\ r = mkResponse
                      (Some (Api.finalItems mc (acc ++ Api.pagesOf (pre ++ [(rq, res)]))))
                      (Some (Z.of_nat (length (Api.finalItems mc
                                (acc ++ Api.pagesOf (pre ++ [(rq, res)]))))))
                      None
         | inl e => res = inl e
         end.
Proof.
  induction fuel as [|fuel IH]; intros url params acc w log0 out w' log H Hacc;
    [discriminate|].
  rewrite paginate_unfold in H. unfold Api.recording at 1 in H. cbn [fst snd] in H.
  destruct (graph (mkRequest tok meth url params hdrs) w) as [[e|resp] w1].
  - inversion H; subst.
    exists [], (mkRequest tok meth url params hdrs), (inl e). cbn.
    rewrite app_nil_r. repeat split; auto.
  - assert (Hlast :
      Some (Api.finish mc (acc ++ items resp),
            (w1, (log0 ++ [(mkRequest tok meth url params hdrs, inr resp)])%list))
      = Some (out, (w', log)) ->
      exists pre rq res,
        log = (log0 ++ pre ++ [(rq, res)])%list
        /\ Forall fulfilled pre
        /\ Api.chained tok meth hdrs url params (pre ++ [(rq, res)])
        /\ (Js.isPositive mc = true ->
            Js.reached (length (acc ++ Api.pagesOf pre)) mc = false)
        /\ match out with
           | inr r =>
               (exists resp, res = inr resp)
               /\ r = mkResponse
                        (Some (Api.finalItems mc
                                 (acc ++ Api.pagesOf (pre ++ [(rq, res)]))))
                        (Some (Z.of_nat (length (Api.finalItems mc
                                  (acc ++ Api.pagesOf (pre ++ [(rq, res)]))))))
                        None
           | inl e => res = inl e
           end).
    { intros Hfin. inversion Hfin; subst.
      exists [], (mkRequest tok meth url params hdrs), (inr resp). cbn [app].
      rewrite pagesOf_cons. cbn [Api.pagesOf map concat]. rewrite !app_nil_r.
      repeat split; eauto. }
    destruct (Js.isPositive mc && Js.reached (length (acc ++ items resp)) mc) eqn:Hc;
      [auto|].
    destruct (Js.truthy (odata_nextLink resp)) eqn:Hnext; [|auto].
    apply IH in H.
    + destruct H as (pre & rq & res & Hlog & Hpre & Hchain & Hstop & Hout).
      exists ((mkRequest tok meth url params hdrs, inr resp) :: pre), rq, res.
      cbn [app]. rewrite !pagesOf_cons.
      rewrite <- app_assoc in Hlog. cbn [app] in Hlog.
      rewrite <- !app_assoc in Hstop, Hout.
      repeat split.
      * exact Hlog.
      * constructor; [exists resp; reflexivity|exact Hpre].
      * destruct (pre ++ [(rq, res)])%list eqn:E;
          [destruct pre; discriminate|].
        exists resp. auto.
      * exact Hstop.
      * destruct out; exact Hout.
    + intros Hpos. rewrite Hpos in Hc. exact Hc.
Qed.

End PaginationRecord.

Section PaginationTheorems.

Context {W T : Type}.
Variable graph : Request -> W -> Settled T * W.

(** X1.  With a [maxCount] that is any positive finite number, whole or
    not, and a remote whose fulfilled pages are never empty,
    [callGraphAPIPaginated] settles after at most [ceil maxCount] page
    requests; when it is fulfilled, the response carries a list of at most
    [floor maxCount] items, [@odata.count] is the length of that list and
    there is no [@odata.nextLink]. *)
Theorem X1_paginated_call_ends_within_count tok meth apiPath qp q hdrs (w : W) :
  (0 < q)%Q ->
  (forall rq w resp w', graph rq w = (inr resp, w') -> hasItems resp = true) ->
  exists out w',
    Api.callGraphAPIPaginated graph (Z.to_nat (Qceiling q)) tok meth apiPath qp
      (Js.Finite q) hdrs w
    = Some (out, w')
    /\ match out with
       | inr r =>
           exists l,
             r = mkResponse (Some l) (Some (Z.of_nat (length l))) None
             /\ (Z.of_nat (length l) <= Qfloor q)%Z
       | inl _ => True
       end.
Proof.
  intros Hpos Hfull. unfold Api.callGraphAPIPaginated.
  pose proof (paginate_progress graph tok meth q hdrs Hfull (Z.to_nat (Qceiling q))
                apiPath qp [] w) as Hne.
  assert (Hc : (0 < Qceiling q)%Z).
  { apply Z.ltb_lt. rewrite <- isPositive_ceiling. now apply isPositive_finite. }
  destruct (Api.paginate graph (Z.to_nat (Qceiling q)) tok meth apiPath qp
              (Js.Finite q) hdrs [] w)
    as [[out w']|] eqn:Hrun.
  - exists out, w'. split; [reflexivity|]. destruct out as [e|r]; [exact I|].
    destruct (paginate_shape graph _ _ _ _ _ _ _ _ _ _ _ Hrun) as (l & -> & Hl).
    exists l. split; [reflexivity|]. now apply Hl.
  - exfalso. apply Hne; [cbn; lia|cbn; lia|reflexivity].
Qed.

(** X2.  When [callGraphAPIPaginated] is fulfilled, every page request it
    issued was fulfilled, and its items are the items of those pages in
    order, cut by [slice(0, maxCount)] when [maxCount > 0] and all of them
    otherwise, whatever number [maxCount] is; when [maxCount > 0], the
    pages before the last one held fewer than [maxCount] items together,
    so no page is requested once the count is reached. *)
Theorem X2_paginated_items_are_the_pages fuel tok meth apiPath qp mc hdrs
    (w w' : W) r log :
  Api.callGraphAPIPaginated (Api.recording graph) fuel tok meth apiPath qp mc hdrs
    (w, []) = Some (inr r, (w', log)) ->
  Forall fulfilled log
  /\ value r = Some (if Js.isPositive mc
                     then Js.slice mc (Api.pagesOf log)
                     else Api.pagesOf log)
  /\ odata_count r = Some (Z.of_nat (length (items r)))
  /\ (Js.isPositive mc = true ->
      Js.reached (length (Api.pagesOf (removelast log))) mc = false).
Proof.
  intros H. unfold Api.callGraphAPIPaginated in H.
  apply paginate_record in H; [|apply reached_nil].
  destruct H as (pre & rq & res & -> & Hpre & _ & Hstop & [resp ->] & ->).
  cbn [app value odata_count items]. repeat split.
  - apply Forall_app. split; [exact Hpre|].
    constructor; [exists resp; reflexivity|constructor].
  - rewrite removelast_last. exact Hstop.
Qed.

(** X3.  The first page request of [callGraphAPIPaginated] is for the
    given path with the given parameters; every further request is for the
    [@odata.nextLink] of the response before it, with no parameters; all
    requests carry the given token, method and headers; and at least one
    request is issued. *)
Theorem X3_paginated_requests_follow_the_links fuel tok meth apiPath qp mc hdrs
    (w w' : W) out log :
  Api.callGraphAPIPaginated (Api.recording graph) fuel tok meth apiPath qp mc hdrs
    (w, []) = Some (out, (w', log)) ->
  log <> [] /\ Api.chained tok meth hdrs apiPath qp log.
Proof.
  intros H. unfold Api.callGraphAPIPaginated in H.
  apply paginate_record in H; [|apply reached_nil].
  destruct H as (pre & rq & res & -> & _ & Hchain & _).
  cbn [app]. split; [|exact Hchain].
  destruct pre; discriminate.
Qed.

(** X4.  When [callGraphAPIPaginated] is rejected, the error is the one
    its last page request was rejected with, unchanged; the page requests
    before it were fulfilled, and their items are not returned. *)
Theorem X4_paginated_rejection_is_relayed fuel tok meth apiPath qp mc hdrs
    (w w' : W) e log :
  Api.callGraphAPIPaginated (Api.recording graph) fuel tok meth apiPath qp mc hdrs
    (w, []) = Some (inl e, (w', log)) ->
  exists pre rq, log = (pre ++ [(rq, inl e)])%list /\ Forall fulfilled pre.
Proof.
  intros H. unfold Api.callGraphAPIPaginated in H.
  apply paginate_record in H; [|apply reached_nil].
  destruct H as (pre & rq & res & -> & Hpre & _ & _ & ->).
  exists pre, rq. auto.
Qed.

End PaginationTheorems.

(** A count of 2.5 and pages of one item: three requests, two items. *)
Lemma X1_witness :
  (0 < 5 # 2)%Q
  /\ Api.callGraphAPIPaginated (Api.recording (endlessPages (sampleEmail "1"))) 3
       "token" "GET" inboxEndpoint listParams (Js.Finite (5 # 2)) [] (tt, [])
     = Some (inr (page [sampleEmail "1"; sampleEmail "1"]),
             (tt,
              [(mkRequest "token" "GET" inboxEndpoint listParams [],
                fst (endlessPages (sampleEmail "1")
                       (mkRequest "token" "GET" inboxEndpoint listParams []) tt));
               (mkRequest "token" "GET" "https://graph.microsoft.com/v1.0/next"
                  emptyParams [],
                fst (endlessPages (sampleEmail "1")
                       (mkRequest "token" "GET" inboxEndpoint listParams []) tt));
               (mkRequest "token" "GET" "https://graph.microsoft.com/v1.0/next"
                  emptyParams [],
                fst (endlessPages (sampleEmail "1")
                       (mkRequest "token" "GET" inboxEndpoint listParams []) tt))]))
  /\ exists out w',
       Api.callGraphAPIPaginated (endlessPages (sampleEmail "1"))
         (Z.to_nat (Qceiling (5 # 2)))
         "token" "GET" inboxEndpoint listParams (Js.Finite (5 # 2)) [] tt
       = Some (out, w')
       /\ match out with
          | inr r =>
              exists l,
                r = mkResponse (Some l) (Some (Z.of_nat (length l))) None
                /\ (Z.of_nat (length l) <= Qfloor (5 # 2))%Z
          | inl _ => True
          end.
Proof.
  assert (H0 : (0 < 5 # 2)%Q) by reflexivity.
  split; [exact H0|]. split; [vm_compute; reflexivity|].
  apply (X1_paginated_call_ends_within_count (endlessPages (sampleEmail "1"))
           "token" "GET" inboxEndpoint listParams (5 # 2) [] tt H0).
  intros rq w resp w' H. inversion H. reflexivity.
Defined.

(** Three pages of two, two and one items, and a count of three: two
    requests, the items cut to three. *)
Lemma X2_witness :
  let pages := [inr (linkedPage [sampleEmail "1"; sampleEmail "2"] "https://next/1");
                inr (linkedPage [sampleEmail "3"; sampleEmail "4"] "https://next/2");
                inr (page [sampleEmail "5"])] in
  let log := [(mkRequest "token" "GET" inboxEndpoint listParams [],
               inr (linkedPage [sampleEmail "1"; sampleEmail "2"] "https://next/1"));
              (mkRequest "token" "GET" "https://next/1" emptyParams [],
               inr (linkedPage [sampleEmail "3"; sampleEmail "4"] "https://next/2"))] in
  let r := page [sampleEmail "1"; sampleEmail "2"; sampleEmail "3"] in
  Api.callGraphAPIPaginated (Api.recording replay) 5 "token" "GET" inboxEndpoint
    listParams (Js.integer 3) [] (pages, [])
  = Some (inr r, ([inr (page [sampleEmail "5"])], log))
  /\ Forall fulfilled log
  /\ value r = Some (if Js.isPositive (Js.integer 3)
                     then Js.slice (Js.integer 3) (Api.pagesOf log)
                     else Api.pagesOf log)
  /\ odata_count r = Some (Z.of_nat (length (items r)))
  /\ (Js.isPositive (Js.integer 3) = true ->
      Js.reached (length (Api.pagesOf (removelast log))) (Js.integer 3) = false).
Proof.
  cbv zeta.
  match goal with
  | |- ?H /\ _ => assert (Hrun : H) by (vm_compute; reflexivity)
  end.
  split; [exact Hrun|].
  exact (X2_paginated_items_are_the_pages replay 5 "token" "GET" inboxEndpoint
           listParams (Js.integer 3) [] _ _ _ _ Hrun).
Defined.

Lemma X3_witness :
  let pages := [inr (linkedPage [sampleEmail "1"; sampleEmail "2"] "https://next/1");
                inr (page [sampleEmail "3"])] in
  let log := [(mkRequest "token" "GET" inboxEndpoint listParams [],
               inr (linkedPage [sampleEmail "1"; sampleEmail "2"] "https://next/1"));
              (mkRequest "token" "GET" "https://next/1" emptyParams [],
               inr (page [sampleEmail "3"]))] in
  Api.callGraphAPIPaginated (Api.recording replay) 5 "token" "GET" inboxEndpoint
    listParams (Js.integer 0) [] (pages, [])
  = Some (inr (page [sampleEmail "1"; sampleEmail "2"; sampleEmail "3"]), ([], log))
  /\ log <> []
  /\ Api.chained "token" "GET" [] inboxEndpoint listParams log.
Proof.
  cbv zeta.
  match goal with
  | |- ?H /\ _ => assert (Hrun : H) by (vm_compute; reflexivity)
  end.
  split; [exact Hrun|].
  exact (X3_paginated_requests_follow_the_links replay 5 "token" "GET" inboxEndpoint
           listParams (Js.integer 0) [] _ _ _ _ Hrun).
Defined.

(** The second page is answered with the status 401. *)
Lemma X4_witness :
  let pages := [inr (linkedPage [sampleEmail "1"] "https://next/1");
                rejectedWith 401] in
  let log := [(mkRequest "token" "GET" inboxEndpoint listParams [],
               inr (linkedPage [sampleEmail "1"] "https://next/1"));
              (mkRequest "token" "GET" "https://next/1" emptyParams [],
               inl UNAUTHORIZED)] in
  Api.callGraphAPIPaginated (Api.recording replay) 5 "token" "GET" inboxEndpoint
    listParams (Js.integer 10) [] (pages, [])
  = Some (inl UNAUTHORIZED, ([], log))
  /\ exists pre rq, log = (pre ++ [(rq, inl UNAUTHORIZED)])%list /\ Forall fulfilled pre.
Proof.
  cbv zeta.
  match goal with
  | |- ?H /\ _ => assert (Hrun : H) by (vm_compute; reflexivity)
  end.
  split; [exact Hrun|].
  exact (X4_paginated_rejection_is_relayed replay 5 "token" "GET" inboxEndpoint
           listParams (Js.integer 10) [] _ _ _ _ Hrun).
Defined.

(** ** Searches over the paginated client *)

Lemma plan_maxCount {engine : Engine} ep tok st ft mc :
  Forall (fun a => maxCount (paged a) = mc) (plan ep tok st ft mc).
Proof.
  unfold plan, plan1, plan2, plan3, plan4, plan4_term, plan5, kqlTermsOf,
    searchPriority.
  cbn [flat_map getTerm String.eqb Ascii.eqb Bool.eqb].
  destruct (Js.truthy (query st)), (Js.truthy (subject st)),
    (Js.truthy (from st)), (Js.truthy (to st)),
    (Js.includes "@" (the (from st))),
    (Js.is_true (hasAttachments ft) || Js.is_true (unreadOnly ft));
    cbn [app length Nat.ltb Nat.leb andb]; repeat constructor.
Qed.

Section SearchOverPagination.

Context {engine : Engine}.
Context {W : Type}.
Variable fetch : PagedRequest -> W -> Settled Mail.Email * W.

(** What holds of every settlement of the remote holds of every call of
    the log. *)
Lemma attemptAll_calls_hold (P : PagedRequest -> Settled Mail.Email -> Prop) :
  (forall rq w, P rq (fst (fetch rq w))) ->
  forall attempts sa (g : @Net W),
    Forall (eventHolds P) (calls g) ->
    Forall (eventHolds P)
      (calls (snd (snd (attemptAll fetch attempts allFailed (sa, g))))).
Proof.
  intros HP. induction attempts as [|a rest IH]; intros sa g Hg; [exact Hg|].
  cbn [attemptAll fst snd].
  assert (Hnext : Forall (eventHolds P)
                    (calls g ++ [EvPaged (paged a) (fst (fetch (paged a) (world g)))])).
  { apply Forall_app. split; [exact Hg|]. constructor; [apply HP|constructor]. }
  destruct (fst (fetch (paged a) (world g))) as [e|resp] eqn:Hres.
  - apply IH. exact Hnext.
  - destruct (hasItems resp || terminal a); [exact Hnext|apply IH; exact Hnext].
Qed.

(** X5.  When the remote of a search is the paginated client (each call
    of the search settles as [callGraphAPIPaginated] settles for its
    request) and [maxCount] is positive, the search returns a list of at
    most [maxCount] items. *)
Theorem X5_search_returns_at_most_maxCount
    (graph : Request -> W -> Settled Mail.Email * W) ep tok st ft mc (w : W) :
  (forall rq w,
      exists fuel,
        Api.callGraphAPIPaginated graph fuel (accessToken (request rq))
          (method (request rq)) (apiPath (request rq)) (queryParams (request rq))
          (Js.integer (maxCount rq)) (extraHeaders (request rq)) w
        = Some (fetch rq w)) ->
  (0 < mc)%Z ->
  exists r l,
    fst (progressiveSearch fetch ep tok st ft mc (start w)) = inr r
    /\ value (response r) = Some l
    /\ (Z.of_nat (length l) <= mc)%Z.
Proof.
  intros Hfetch Hpos.
  assert (HP : forall rq w, withinCount rq (fst (fetch rq w))).
  { intros rq w0. destruct (Hfetch rq w0) as [fuel Hrun].
    destruct (fetch rq w0) as [[e|r] w1]; [exact I|]. cbn [fst].
    unfold Api.callGraphAPIPaginated in Hrun.
    destruct (paginate_shape graph _ _ _ _ _ _ _ _ _ _ _ Hrun) as (l & -> & Hl).
    exists l. split; [reflexivity|]. intros Hmc.
    specialize (Hl (inject_Z (maxCount rq)) eq_refl).
    rewrite Qfloor_Z in Hl. apply Hl.
    change 0%Q with (inject_Z 0). rewrite <- Zlt_Qlt. exact Hmc. }
  pose proof (attemptAll_calls_hold withinCount HP (plan ep tok st ft mc) []
                (start w) (Forall_nil _)) as Hall.
  pose proof (plan_maxCount ep tok st ft mc) as Hmc.
  rewrite progressiveSearch_plan, run_fst.
  destruct (attemptAll_result fetch (plan ep tok st ft mc) [] (start w))
    as [pre a rest preE resp w' Hsplit _ _ | evs w' _];
    unfold start in *; cbn [fst snd calls app] in *.
  - apply Forall_app in Hall as [_ Hlast]. apply Forall_inv in Hlast.
    cbn in Hlast. destruct Hlast as (l & -> & Hl).
    rewrite Hsplit in Hmc. apply Forall_app in Hmc as [_ Hmc].
    apply Forall_inv in Hmc. rewrite Hmc in Hl.
    eexists. exists l. repeat split; auto.
  - eexists. exists []. repeat split. cbn. lia.
Qed.

End SearchOverPagination.

Lemma X5_witness :
  (0 < 2)%Z
  /\ exists r l,
       fst (progressiveSearch
              (fun rq w => (Api.finish (Js.integer (maxCount rq))
                              [sampleEmail "1"; sampleEmail "2"; sampleEmail "3"], w))
              inboxEndpoint "token" (fromOnly "a@b.com") noFilters 2 (start tt))
       = inr r
       /\ value (response r) = Some l
       /\ (Z.of_nat (length l) <= 2)%Z.
Proof.
  assert (H0 : (0 < 2)%Z) by lia.
  split; [exact H0|].
  apply (X5_search_returns_at_most_maxCount
           (fun rq w => (Api.finish (Js.integer (maxCount rq))
                           [sampleEmail "1"; sampleEmail "2"; sampleEmail "3"], w))
           (singlePage [sampleEmail "1"; sampleEmail "2"; sampleEmail "3"])
           inboxEndpoint "token" (fromOnly "a@b.com") noFilters 2 tt); [|exact H0].
  intros rq w. exists 1%nat. destruct w.
  unfold Api.callGraphAPIPaginated, Api.paginate, singlePage. cbn [value page app].
  destruct (Js.isPositive (Js.integer (maxCount rq)) && Js.reached _ _); reflexivity.
Defined.
(** ** Token management *)

Lemma truthy_value o : Js.truthy o = true -> exists a, o = Some a /\ a <> EmptyString.
Proof.
  destruct o as [a|]; [|discriminate]. cbn. intros H. exists a. split; [reflexivity|].
  intros ->. discriminate.
Qed.

Lemma loadTokens_some now s t s' :
  Tokens.loadTokens now s = (Some t, s') ->
  Tokens.tokenFile s = Tokens.Stored t
  /\ Js.truthy (Tokens.access_token t) = true
  /\ Tokens.expired now t = false
  /\ s' = Tokens.mkStore (Some t) (Tokens.tokenFile s) (Tokens.writeFails s).
Proof.
  unfold Tokens.loadTokens. destruct (Tokens.tokenFile s) as [| |t0]; try discriminate.
  destruct (Js.truthy (Tokens.access_token t0)) eqn:Ha; cbn [negb]; [|discriminate].
  destruct (Tokens.expired now t0) eqn:He; [discriminate|].
  intros H. inversion H; subst. auto.
Qed.

(** X6.  [ensureAuthenticated] either returns a non-empty access token
    that belongs to the token data cached after the call and is not expired
    at the time of the call, or throws exactly the error
    [Authentication required]; it throws only when [getAccessToken] gives
    [null] or the empty string, and it throws that error whenever
    [getAccessToken] gives [null] or the empty string, leaving the store as
    [getAccessToken] left it. *)
Theorem X6_ensureAuthenticated_token_is_current now s :
  match Tokens.ensureAuthenticated now s with
  | (inr a, s') =>
      exists t,
        Tokens.cachedTokens s' = Some t
        /\ Tokens.access_token t = Some a
        /\ a <> EmptyString
        /\ (forall e, Tokens.expires_at t = Some e -> e <> 0%Z -> (now <= e)%Z)
  | (inl e, s') =>
      e = mkError "Authentication required"
      /\ (fst (Tokens.getAccessToken now s) = None
          \/ fst (Tokens.getAccessToken now s) = Some EmptyString)
  end
  /\ (fst (Tokens.getAccessToken now s) = None
      \/ fst (Tokens.getAccessToken now s) = Some EmptyString ->
      Tokens.ensureAuthenticated now s
      = (inl (mkError "Authentication required"),
         snd (Tokens.getAccessToken now s))).
Proof.
  split;
    [|unfold Tokens.ensureAuthenticated;
      destruct (Tokens.getAccessToken now s) as [tok s'];
      cbn [fst snd]; intros [->| ->]; reflexivity].
  assert (Hexp : forall t, Tokens.expired now t = false ->
                 forall e, Tokens.expires_at t = Some e -> e <> 0%Z -> (now <= e)%Z).
  { intros t He e Et Hz. unfold Tokens.expired, Tokens.truthyNumber in He.
    rewrite Et in He. destruct (Z.eqb_spec e 0); [contradiction|].
    cbn in He. apply Z.ltb_ge in He. exact He. }
  unfold Tokens.ensureAuthenticated.
  destruct (Tokens.getAccessToken now s) as [tok s'] eqn:Hget. cbn [fst].
  destruct (Js.truthy tok) eqn:Htok; cbn [negb].
  - destruct (truthy_value _ Htok) as (a & -> & Ha). cbn [the].
    unfold Tokens.getAccessToken in Hget.
    assert (Hload : forall tokens s1,
               Tokens.loadTokens now s = (tokens, s1) ->
               (match tokens with
                | Some t => Tokens.access_token t
                | None => None
                end, s1) = (Some a, s') ->
               exists t, Tokens.cachedTokens s' = Some t
                         /\ Tokens.access_token t = Some a
                         /\ a <> EmptyString
                         /\ (forall e, Tokens.expires_at t = Some e -> e <> 0%Z ->
                                       (now <= e)%Z)).
    { intros [t|] s1 Hl Heq; [|discriminate]. inversion Heq; subst.
      apply loadTokens_some in Hl as (_ & _ & He & ->).
      exists t. cbn. repeat split; eauto. }
    destruct (Tokens.cachedTokens s) as [cached|] eqn:Hc.
    + destruct (Js.truthy (Tokens.access_token cached)) eqn:Hca.
      * destruct (Tokens.expired now cached) eqn:He; [discriminate|].
        inversion Hget; subst. exists cached. repeat split; eauto.
      * destruct (Tokens.loadTokens now s) as [tokens s1] eqn:Hl. eauto.
    + destruct (Tokens.loadTokens now s) as [tokens s1] eqn:Hl. eauto.
  - split; [reflexivity|]. destruct tok as [a|]; [|now left].
    right. cbn in Htok. apply negb_false_iff, String.eqb_eq in Htok. now subst.
Qed.

(** X7.  When the cached token has expired, [getAccessToken] returns
    [null] and empties the cache without looking at the token file, even if
    the file holds a token that is valid; the call after it returns the
    token of the file. *)
Theorem X7_expired_cache_hides_the_file now now' s cached fresh a :
  Tokens.cachedTokens s = Some cached ->
  Js.truthy (Tokens.access_token cached) = true ->
  Tokens.expired now cached = true ->
  Tokens.tokenFile s = Tokens.Stored fresh ->
  Tokens.access_token fresh = Some a ->
  a <> EmptyString ->
  Tokens.expired now' fresh = false ->
  Tokens.getAccessToken now s
  = (None, Tokens.mkStore None (Tokens.tokenFile s) (Tokens.writeFails s))
  /\ Tokens.getAccessToken now' (snd (Tokens.getAccessToken now s))
     = (Some a, Tokens.mkStore (Some fresh) (Tokens.tokenFile s) (Tokens.writeFails s)).
Proof.
  intros Hc Hca He Hf Ha Hne Hfresh.
  assert (H1 : Tokens.getAccessToken now s
               = (None, Tokens.mkStore None (Tokens.tokenFile s) (Tokens.writeFails s))).
  { unfold Tokens.getAccessToken. now rewrite Hc, Hca, He. }
  split; [exact H1|]. rewrite H1. cbn [snd].
  assert (Ht : Js.truthy (Tokens.access_token fresh) = true).
  { rewrite Ha. cbn. destruct (String.eqb_spec a EmptyString);
      [contradiction|reflexivity]. }
  unfold Tokens.getAccessToken, Tokens.loadTokens.
  cbn [Tokens.cachedTokens Tokens.tokenFile Tokens.writeFails].
  rewrite Hf. cbv beta iota. rewrite Ht. cbn [negb]. rewrite Hfresh, Ha.
  reflexivity.
Qed.

(** X8.  After a [saveTokens] that could write the file, the cache and
    the file both hold the saved tokens; if they carry a non-empty access
    token and are not expired, [getAccessToken] returns that token and
    [loadTokens] gives the saved tokens back, neither changing the store. *)
Theorem X8_saved_tokens_are_served now s t a :
  Tokens.writeFails s = None ->
  Tokens.access_token t = Some a ->
  a <> EmptyString ->
  Tokens.expired now t = false ->
  let s' := Tokens.mkStore (Some t) (Tokens.Stored t) None in
  Tokens.saveTokens t s = (true, s')
  /\ Tokens.getAccessToken now s' = (Some a, s')
  /\ Tokens.loadTokens now s' = (Some t, s').
Proof.
  intros Hw Ha Hne He. cbv zeta.
  assert (Ht : Js.truthy (Tokens.access_token t) = true).
  { rewrite Ha. cbn. destruct (String.eqb_spec a EmptyString);
      [contradiction|reflexivity]. }
  repeat split.
  - unfold Tokens.saveTokens. now rewrite Hw.
  - unfold Tokens.getAccessToken. cbn [Tokens.cachedTokens].
    now rewrite Ht, He, Ha.
  - unfold Tokens.loadTokens. cbn [Tokens.tokenFile Tokens.writeFails].
    rewrite Ht. cbn [negb]. now rewrite He.
Qed.

(** X9.  While the cached token is valid, [getAccessToken] returns it
    whatever the token file holds, and changes nothing: a token file that
    is replaced or removed is not noticed before the cached token
    expires. *)
Theorem X9_valid_cache_shadows_the_file now cached a file wf :
  Tokens.access_token cached = Some a ->
  a <> EmptyString ->
  Tokens.expired now cached = false ->
  Tokens.getAccessToken now (Tokens.mkStore (Some cached) file wf)
  = (Some a, Tokens.mkStore (Some cached) file wf).
Proof.
  intros Ha Hne He.
  assert (Ht : Js.truthy (Tokens.access_token cached) = true).
  { rewrite Ha. cbn. destruct (String.eqb_spec a EmptyString);
      [contradiction|reflexivity]. }
  unfold Tokens.getAccessToken. cbn [Tokens.cachedTokens].
  now rewrite Ht, He, Ha.
Qed.

Lemma X7_witness :
  let s := Tokens.mkStore (Some (sampleToken "old" 1000))
             (Tokens.Stored (sampleToken "new" 9000)) None in
  Tokens.getAccessToken 2000 s
  = (None, Tokens.mkStore None (Tokens.tokenFile s) (Tokens.writeFails s))
  /\ Tokens.getAccessToken 2001 (snd (Tokens.getAccessToken 2000 s))
     = (Some "new",
        Tokens.mkStore (Some (sampleToken "new" 9000)) (Tokens.tokenFile s)
          (Tokens.writeFails s)).
Proof.
  apply (X7_expired_cache_hides_the_file 2000 2001
           (Tokens.mkStore (Some (sampleToken "old" 1000))
              (Tokens.Stored (sampleToken "new" 9000)) None)
           (sampleToken "old" 1000) (sampleToken "new" 9000) "new");
    (reflexivity || discriminate).
Defined.

Lemma X8_witness :
  let s' := Tokens.mkStore (Some (sampleToken "abc" 9000))
              (Tokens.Stored (sampleToken "abc" 9000)) None in
  Tokens.saveTokens (sampleToken "abc" 9000) (Tokens.mkStore None Tokens.NoFile None)
  = (true, s')
  /\ Tokens.getAccessToken 2000 s' = (Some "abc", s')
  /\ Tokens.loadTokens 2000 s' = (Some (sampleToken "abc" 9000), s').
Proof.
  apply (X8_saved_tokens_are_served 2000 (Tokens.mkStore None Tokens.NoFile None)
           (sampleToken "abc" 9000) "abc");
    (reflexivity || discriminate).
Defined.

Lemma X9_witness :
  Tokens.getAccessToken 2000
    (Tokens.mkStore (Some (sampleToken "abc" 9000)) Tokens.NoFile None)
  = (Some "abc", Tokens.mkStore (Some (sampleToken "abc" 9000)) Tokens.NoFile None).
Proof.
  apply (X9_valid_cache_shadows_the_file 2000 (sampleToken "abc" 9000) "abc");
    (reflexivity || discriminate).
Defined.

(** ** Folder listings *)

Section FolderListings.

Context {engine : Engine}.
Context {W : Type}.
Variable graphAPI : Request -> W -> Settled MailFolder * W.

Lemma childFoldersOf_call tok folder (g : @Net W) :
  childFoldersOf graphAPI tok folder g
  = (inr (callItemsOf (EvCall (childFoldersRequest tok folder)
                         (fst (graphAPI (childFoldersRequest tok folder) (world g))))),
     mkNet (snd (graphAPI (childFoldersRequest tok folder) (world g)))
       (calls g ++ [EvCall (childFoldersRequest tok folder)
                      (fst (graphAPI (childFoldersRequest tok folder) (world g)))])).
Proof.
  unfold childFoldersOf, childFoldersRequest, FOLDER_FIELDS.
  cbv [run try_catch bind await callGraphAPI return_ ret fst snd].
  destruct (graphAPI _ (world g)) as [[e|resp] w']; [reflexivity|].
  cbn [callItemsOf]. unfold items. destruct (value resp); reflexivity.
Qed.

(** The child listings of a list of parents: one call per parent, in
    order, none of which can throw. *)
Lemma map_all_child_listings tok parents (s : unit * @Net W) :
  exists evs w',
    map_all (R:=list MailFolder)
      (fun folder => await (childFoldersOf graphAPI tok folder)) parents s
    = (Normal (map callItemsOf evs), (fst s, mkNet w' (calls (snd s) ++ evs)))
    /\ map callRequestOf evs
       = map (fun f => Some (childFoldersRequest tok f)) parents.
Proof.
  revert s. induction parents as [|f parents IH]; intros [u g].
  - exists [], (world g). cbn. rewrite app_nil_r. destruct g. auto.
  - cbn [map_all]. unfold bind at 1. unfold await at 1. cbn [fst snd].
    rewrite childFoldersOf_call.
    match goal with
    | |- context [mkNet ?w1 (calls g ++ [?ev])] =>
        destruct (IH (u, mkNet w1 (calls g ++ [ev]))) as (evs & w' & Hrest & Hreq);
        exists (ev :: evs), w'
    end.
    unfold bind at 1. rewrite Hrest. cbn [fst snd calls map callRequestOf].
    rewrite <- app_assoc. cbn [app]. rewrite Hreq. split; reflexivity.
Qed.

(** The calls and the result of [getAllFolders]. *)
Lemma getAllFolders_structure tok (g : @Net W) :
  exists l w' res children,
    getAllFolders graphAPI tok g
    = (inr l, mkNet w' (calls g ++ EvCall (topLevelRequest tok) res :: children))
    /\ match res with
       | inr response =>
           match value response with
           | Some folders =>
               map callRequestOf children
               = map (fun f => Some (childFoldersRequest tok f))
                   (filter (fun f => Z.ltb 0 (childFolderCount f)) folders)
               /\ l = (folders ++ concat (map callItemsOf children))%list
           | None => children = [] /\ l = []
           end
       | inl _ => children = [] /\ l = []
       end.
Proof.
  unfold getAllFolders, topLevelRequest, FOLDER_FIELDS.
  unfold run, try_catch. unfold bind at 1. unfold await at 1, callGraphAPI.
  cbn [fst snd].
  destruct (graphAPI _ (world g)) as [[e|resp] w1].
  - exists [], w1, (inl e), []. cbn. auto.
  - destruct (value resp) as [folders|] eqn:Hv.
    + unfold bind at 1.
      match goal with
      | |- context [map_all ?f ?ps ?s] =>
          destruct (map_all_child_listings tok ps s) as (evs & w' & Hrun & Hreq)
      end.
      unfold FOLDER_FIELDS in *. rewrite Hrun. cbn [fst snd calls].
      exists (folders ++ concat (map callItemsOf evs))%list, w', (inr resp), evs.
      rewrite Hv, <- app_assoc. cbn [app]. auto.
    + exists [], w1, (inr resp), []. rewrite Hv. cbn. auto.
Qed.

(** X10.  [getAllFolders] never throws.  It first lists the top-level
    folders; when that listing is rejected or carries no [value] it returns
    no folder and issues no other call.  Otherwise it lists the children of
    exactly the top-level folders whose [childFolderCount] is positive, one
    call each in their order, and returns the top-level folders followed by
    what these calls delivered, a rejected child listing counting for
    nothing: folders below the first level of children are never
    requested. *)
Theorem X10_getAllFolders_lists_one_level tok (g : @Net W) :
  exists l w' res children,
    getAllFolders graphAPI tok g
    = (inr l, mkNet w' (calls g ++ EvCall (topLevelRequest tok) res :: children))
    /\ match res with
       | inr response =>
           match value response with
           | Some folders =>
               map callRequestOf children
               = map (fun f => Some (childFoldersRequest tok f))
                   (filter (fun f => Z.ltb 0 (childFolderCount f)) folders)
               /\ l = (folders ++ concat (map callItemsOf children))%list
           | None => children = [] /\ l = []
           end
       | inl _ => children = [] /\ l = []
       end.
Proof.
  apply getAllFolders_structure.
Qed.

End FolderListings.

Lemma deliveredBy_app_l es es' f : deliveredBy es f -> deliveredBy (es ++ es') f.
Proof.
  intros (rq & resp & Hin & Hf). exists rq, resp. split; [|exact Hf].
  apply in_or_app. now left.
Qed.

Lemma deliveredBy_app_r es es' f : deliveredBy es' f -> deliveredBy (es ++ es') f.
Proof.
  intros (rq & resp & Hin & Hf). exists rq, resp. split; [|exact Hf].
  apply in_or_app. now right.
Qed.

Lemma deliveredBy_items es f :
  In f (concat (map callItemsOf es)) -> deliveredBy es f.
Proof.
  induction es as [|e es IH]; cbn; [tauto|].
  intros H. apply in_app_or in H as [H|H].
  - destruct e as [rq [err|resp]|rq res]; cbn in H; try tauto.
    exists rq, resp. split; [now left|exact H].
  - destruct (IH H) as (rq & resp & Hin & Hf). exists rq, resp.
    split; [now right|exact Hf].
Qed.

Lemma resolves_app_l {engine : Engine} name es es' f : resolves name es f -> resolves name (es ++ es') f.
Proof.
  intros [[Hd Hn]|(rq & resp & rest & Hin & Hq & Hv)].
  - left. split; [now apply deliveredBy_app_l|exact Hn].
  - right. exists rq, resp, rest. split; [apply in_or_app; now left|auto].
Qed.

Lemma resolves_app_r {engine : Engine} name es es' f : resolves name es' f -> resolves name (es ++ es') f.
Proof.
  intros [[Hd Hn]|(rq & resp & rest & Hin & Hq & Hv)].
  - left. split; [now apply deliveredBy_app_r|exact Hn].
  - right. exists rq, resp, rest. split; [apply in_or_app; now right|auto].
Qed.

Lemma deliveredBy_iff es f :
  deliveredBy es f <-> In f (concat (map callItemsOf es)).
Proof.
  split; [|apply deliveredBy_items].
  intros (rq & resp & Hin & Hf). apply in_concat.
  exists (callItemsOf (EvCall rq (inr resp))). split; [|exact Hf].
  apply in_map. exact Hin.
Qed.

Lemma find_none_otherName {engine : Engine} name l :
  find (fun f => String.eqb (toLowerCase (displayName f)) (toLowerCase name)) l
  = None ->
  forall f, In f l -> otherName name f.
Proof.
  intros H f Hin Heq. apply (find_none _ _ H) in Hin.
  apply String.eqb_neq in Hin. contradiction.
Qed.

Section FolderLookup.

Context {engine : Engine}.
Context {W : Type}.
Variable graphAPI : Request -> W -> Settled MailFolder * W.

(** The calls and the result of [getFolderIdByName]. *)
Lemma getFolderIdByName_exact tok name (g : @Net W) :
  exists r w' new,
    getFolderIdByName graphAPI tok name g = (inr r, mkNet w' (calls g ++ new))
    /\ match r with
       | Some i => exists f, id f = i /\ resolves name new f
       | None => forall f, deliveredBy new f -> otherName name f
       end.
Proof.
  unfold getFolderIdByName, run. unfold bind at 1.
  match goal with
  | |- context [try_catch ?b ?h ?s] =>
      assert (exists c w1 new1,
                 try_catch b h s = (c, (tt, mkNet w1 (calls g ++ new1)))
                 /\ ((c = Normal tt
                      /\ forall f, In f (concat (map callItemsOf new1)) ->
                                   otherName name f)
                     \/ exists f, c = Return (Some (id f)) /\ resolves name new1 f))
        as (c & w1 & new1 & -> & Hc)
  end.
  { unfold try_catch. unfold bind at 1. unfold await at 1, callGraphAPI.
    cbn [fst snd].
    match goal with
    | |- context [graphAPI ?rq ?w] => destruct (graphAPI rq w) as [[e|resp] wa]
    end.
    - do 3 eexists. split; [reflexivity|]. left. split; [reflexivity|].
      cbn. tauto.
    - unfold bind at 1.
      assert (Hquiet1 : forall rq, value resp = Some [] \/ value resp = None ->
                forall f, In f (callItemsOf (EvCall rq (inr resp))) -> False).
      { intros rq Hv f. cbn. unfold items. destruct Hv as [-> | ->]; cbn; tauto. }
      destruct (value resp) as [[|first rest]|] eqn:Hv.
      2:{ do 3 eexists. split; [reflexivity|]. right. exists first.
          split; [reflexivity|]. right. do 3 eexists.
          split; [now left|]. split; [reflexivity|exact Hv]. }
      all: unfold ret at 1; unfold bind at 1; unfold await at 1, callGraphAPI;
        cbn [fst snd world calls];
        match goal with
        | |- context [graphAPI ?rq ?w] => destruct (graphAPI rq w) as [[e2|resp2] wb]
        end.
      all: try (do 3 eexists; split; [rewrite <- app_assoc; reflexivity|];
                left; split; [reflexivity|];
                intros f Hin; cbn [map concat app] in Hin;
                repeat (apply in_app_or in Hin as [Hin|Hin]);
                solve [exfalso; eapply Hquiet1; [|exact Hin]; auto
                      |cbn in Hin; tauto]).
      all: destruct (value resp2) as [folders|] eqn:Hv2.
      all: try (do 3 eexists; split; [rewrite <- app_assoc; reflexivity|];
                left; split; [reflexivity|];
                intros f Hin; cbn [map concat app] in Hin;
                repeat (apply in_app_or in Hin as [Hin|Hin]);
                solve [exfalso; eapply Hquiet1; [|exact Hin]; auto
                      |cbn in Hin; tauto
                      |cbn in Hin; unfold items in Hin; rewrite Hv2 in Hin;
                       cbn in Hin; tauto]).
      all: destruct (find _ folders) as [m|] eqn:Hfind.
      all: try (do 3 eexists; split; [rewrite <- app_assoc; reflexivity|];
                left; split; [reflexivity|];
                intros f Hin; cbn [map concat app] in Hin;
                repeat (apply in_app_or in Hin as [Hin|Hin]);
                solve [exfalso; eapply Hquiet1; [|exact Hin]; auto
                      |cbn in Hin; tauto
                      |cbn in Hin; unfold items in Hin; rewrite Hv2 in Hin;
                       eapply find_none_otherName; eassumption]).
      all: apply find_some in Hfind as [Hin Hname]; apply String.eqb_eq in Hname;
        do 3 eexists; (split; [rewrite <- app_assoc; reflexivity|]);
        right; exists m; (split; [reflexivity|]); left; (split; [|exact Hname]);
        do 2 eexists; (split; [right; now left|]);
        unfold items; rewrite Hv2; exact Hin. }
  destruct Hc as [[-> Hq1]|(f & -> & Hf)].
  2:{ exists (Some (id f)), w1, new1. split; [reflexivity|]. exists f. auto. }
  unfold bind at 1.
  match goal with
  | |- context [try_catch ?b ?h ?s] =>
      assert (exists c w2 new2,
                 try_catch b h s = (c, (tt, mkNet w2 (calls g ++ new1 ++ new2)))
                 /\ ((c = Normal tt
                      /\ forall f, In f (concat (map callItemsOf new2)) ->
                                   otherName name f)
                     \/ exists f, c = Return (Some (id f)) /\ resolves name new2 f))
        as (c & w2 & new2 & -> & Hc)
  end.
  { unfold try_catch. unfold bind at 1. unfold await at 1. cbn [fst snd].
    destruct (getAllFolders_structure graphAPI tok (mkNet w1 (calls g ++ new1)))
      as (l & w2 & res & children & -> & Hres).
    cbn [calls]. rewrite <- app_assoc.
    assert (Hl : forall f, In f (concat (map callItemsOf
                                        (EvCall (topLevelRequest tok) res :: children)))
                           <-> In f l).
    { intros f. cbn [map concat callItemsOf].
      destruct res as [e|resp]; [destruct Hres as [-> ->]; cbn; tauto|].
      unfold items. destruct (value resp) as [folders|];
        [destruct Hres as [_ ->]; tauto|destruct Hres as [-> ->]; cbn; tauto]. }
    destruct (find _ l) as [m|] eqn:Hfind.
    - apply find_some in Hfind as [Hin Hname]. apply String.eqb_eq in Hname.
      do 3 eexists. split; [reflexivity|]. right. exists m.
      split; [reflexivity|]. left. split; [|exact Hname].
      apply deliveredBy_iff, Hl, Hin.
    - do 3 eexists. split; [reflexivity|]. left. split; [reflexivity|].
      intros f Hin. apply Hl in Hin.
      eapply find_none_otherName; eassumption. }
  destruct Hc as [[-> Hq2]|(f & -> & Hf)].
  - exists None, w2, (new1 ++ new2)%list. split; [reflexivity|].
    intros f Hd. apply deliveredBy_iff in Hd.
    rewrite map_app, concat_app in Hd. apply in_app_or in Hd as [Hd|Hd]; auto.
  - exists (Some (id f)), w2, (new1 ++ new2)%list. split; [reflexivity|].
    exists f. split; [reflexivity|now apply resolves_app_r].
Qed.

(** X11.  [getFolderIdByName] never throws: whatever the remote does, it
    returns an id or [null].  An id it returns is the id of a folder that
    one of its own calls delivered, and that folder is either named like
    the name asked for, up to case, or the first folder of the listing the
    server filtered on that name.  It returns [null] only when none of the
    folders its calls delivered is named like the name asked for, up to
    case. *)
Theorem X11_getFolderIdByName_returns_a_matching_folder tok name (g : @Net W) :
  exists r w' new,
    getFolderIdByName graphAPI tok name g = (inr r, mkNet w' (calls g ++ new))
    /\ match r with
       | Some i => exists f, id f = i /\ resolves name new f
       | None => forall f, deliveredBy new f -> otherName name f
       end.
Proof.
  apply getFolderIdByName_exact.
Qed.

(** X12.  A name that is not empty and, lower-cased, is no key of
    [WELL_KNOWN_FOLDERS] (own or inherited) is resolved through the
    remote: [resolveFolderPath] returns [me/mailFolders/<id>/messages] for
    the id, not empty, of a folder that its calls delivered and that
    matches the name, or throws the error that names the folder, and this
    only when no folder its calls delivered matches the name up to case
    or the folder found has an empty id. *)
Theorem X12_resolveFolderPath_of_a_custom_folder tok n (g : @Net W) :
  n <> EmptyString ->
  getProperty WELL_KNOWN_FOLDERS (toLowerCase n) = JsUndefined ->
  exists res w' new,
    resolveFolderPath graphAPI tok (Some n) g = (res, mkNet w' (calls g ++ new))
    /\ match res with
       | inr v =>
           exists f, v = JsString ("me/mailFolders/" ++ id f ++ "/messages")
                     /\ id f <> EmptyString
                     /\ resolves n new f
       | inl e =>
           e = FolderNotFound n
           /\ ((forall f, deliveredBy new f -> otherName n f)
               \/ exists f, id f = EmptyString /\ resolves n new f)
       end.
Proof.
  intros Hn Hk. unfold resolveFolderPath, run. unfold bind at 1.
  rewrite (truthy_nonempty n Hn). cbn [negb when ret the].
  unfold bind at 1. rewrite Hk. cbn [truthyValue when ret].
  unfold bind at 1. unfold await at 1. cbn [fst snd].
  destruct (getFolderIdByName_exact tok n g) as (r & w' & new & -> & Hr).
  exists (match r with
          | Some i => if String.eqb i EmptyString then inl (FolderNotFound n)
                      else inr (JsString ("me/mailFolders/" ++ i ++ "/messages"))
          | None => inl (FolderNotFound n)
          end), w', new.
  destruct r as [i|].
  - destruct Hr as (f & Hid & Hres). cbn [Js.truthy].
    destruct (String.eqb_spec i EmptyString) as [Hi|Hi]; cbn [negb when ret].
    + split; [reflexivity|]. split; [reflexivity|].
      right. exists f. split; [congruence|exact Hres].
    + split; [reflexivity|]. exists f. subst i. auto.
  - split; [reflexivity|]. split; [reflexivity|]. left. exact Hr.
Qed.

(** X13.  A name that, lower-cased, is one of the six aliases of
    [WELL_KNOWN_FOLDERS] resolves to the endpoint stored under the alias,
    whatever the case of its letters, and no call is issued: the remote is
    left as it was. *)
Theorem X13_aliases_resolve_without_a_call tok n k ep (g : @Net W) :
  In (k, ep) WELL_KNOWN_FOLDERS ->
  toLowerCase n = k ->
  resolveFolderPath graphAPI tok (Some n) g = (inr (JsString ep), g).
Proof.
  intros Hin Hk.
  assert (getOwn WELL_KNOWN_FOLDERS k = Some ep /\ k <> EmptyString) as [Hown Hne].
  { unfold WELL_KNOWN_FOLDERS in Hin. cbn [In] in Hin.
    repeat (destruct Hin as [Hin|Hin];
            [inversion Hin; subst; split; [reflexivity|discriminate]|]).
    contradiction. }
  apply resolveFolderPath_alias.
  - intros ->. apply Hne. rewrite <- Hk. apply toLowerCase_empty.
  - rewrite Hk. exact Hown.
Qed.

End FolderLookup.

(** In the sample mailbox the name [invoices] is that of no top-level
    folder: it is found among the children of [Projects], after the
    filtered listing, the listing of a hundred top-level folders, and the
    two listings of [getAllFolders]. *)
Lemma X12_witness :
  fst (resolveFolderPath sampleMailbox "token" (Some "invoices") (start tt))
  = inr (JsString "me/mailFolders/id-invoices/messages")
  /\ map callRequestOf
       (calls (snd (resolveFolderPath sampleMailbox "token" (Some "invoices")
                      (start tt))))
     = [Some (mkRequest "token" "GET" "me/mailFolders"
                (mkQueryParams None None None (Some "displayName eq 'invoices'")
                   None None) []);
        Some (mkRequest "token" "GET" "me/mailFolders"
                (mkQueryParams (Some 100%Z) None None None None None) []);
        Some (topLevelRequest "token");
        Some (childFoldersRequest "token" (sampleFolder "id-projects" "Projects" 1))]
  /\ exists res w' new,
       resolveFolderPath sampleMailbox "token" (Some "invoices") (start tt)
       = (res, mkNet w' (calls (start tt) ++ new))
       /\ match res with
          | inr v =>
              exists f, v = JsString ("me/mailFolders/" ++ id f ++ "/messages")
                        /\ id f <> EmptyString
                        /\ resolves "invoices" new f
          | inl e =>
              e = FolderNotFound "invoices"
              /\ ((forall f, deliveredBy new f -> otherName "invoices" f)
                  \/ exists f, id f = EmptyString /\ resolves "invoices" new f)
          end.
Proof.
  split; [vm_compute; reflexivity|]. split; [vm_compute; reflexivity|].
  apply (X12_resolveFolderPath_of_a_custom_folder sampleMailbox "token" "invoices"
           (start tt)); [discriminate|reflexivity].
Defined.

Lemma X13_witness :
  resolveFolderPath unreachable "token" (Some "Sent") (start tt)
  = (inr (JsString "me/mailFolders/sentItems/messages"), start tt).
Proof.
  apply (X13_aliases_resolve_without_a_call unreachable "token" "Sent" "sent"
           "me/mailFolders/sentItems/messages" (start tt));
    [cbn; tauto|reflexivity].
Defined.

(** ** The URL of a request *)

Lemma string_app_assoc (a b c : string) : (a ++ b) ++ c = a ++ (b ++ c).
Proof.
  induction a as [|x a IH]; [reflexivity|].
  cbn. rewrite IH. reflexivity.
Qed.

Lemma string_app_nil_r (a : string) : a ++ EmptyString = a.
Proof.
  induction a as [|x a IH]; [reflexivity|].
  cbn. rewrite IH. reflexivity.
Qed.

Lemma string_app_length (a b : string) :
  String.length (a ++ b) = String.length a + String.length b.
Proof.
  induction a as [|x a IH]; [reflexivity|].
  cbn. rewrite IH. reflexivity.
Qed.

Lemma allChars_app p a b : allChars p (a ++ b) = allChars p a && allChars p b.
Proof.
  induction a as [|c a IH]; [reflexivity|].
  cbn. rewrite IH. now rewrite andb_assoc.
Qed.

Lemma allChars_weaken (p q : ascii -> bool) s :
  (forall c, p c = true -> q c = true) ->
  allChars p s = true -> allChars q s = true.
Proof.
  intros Hpq. induction s as [|c s IH]; [reflexivity|].
  cbn. intros H. apply andb_true_iff in H as [Hc Hs].
  rewrite (Hpq c Hc), (IH Hs). reflexivity.
Qed.

Lemma count_char_app a s t :
  Js.count_char a (s ++ t) = Js.count_char a s + Js.count_char a t.
Proof.
  induction s as [|c s IH]; [reflexivity|].
  cbn. rewrite IH. lia.
Qed.

Lemma allChars_count p a s :
  p a = false -> allChars p s = true -> Js.count_char a s = 0.
Proof.
  intros Hpa. induction s as [|c s IH]; [reflexivity|].
  cbn. intros H. apply andb_true_iff in H as [Hc Hs].
  destruct (Ascii.eqb_spec c a) as [->|_]; [congruence|].
  rewrite (IH Hs). reflexivity.
Qed.

Lemma percentEncode_chars c : allChars componentChar (Url.percentEncode c) = true.
Proof.
  destruct c as [[] [] [] [] [] [] [] []]; vm_compute; reflexivity.
Qed.

Lemma uriUnreserved_component c : Url.uriUnreserved c = true -> componentChar c = true.
Proof.
  intros H. unfold componentChar. rewrite H. reflexivity.
Qed.

Lemma formUnreserved_component c : Url.formUnreserved c = true -> componentChar c = true.
Proof.
  destruct c as [[] [] [] [] [] [] [] []]; vm_compute; auto.
Qed.

Lemma encodeURIComponent_chars s :
  allChars componentChar (Url.encodeURIComponent s) = true.
Proof.
  induction s as [|c s IH]; [reflexivity|].
  cbn [Url.encodeURIComponent]. rewrite allChars_app, IH, andb_true_r.
  destruct (Url.uriUnreserved c) eqn:Hc.
  - cbn. rewrite (uriUnreserved_component c Hc). reflexivity.
  - apply percentEncode_chars.
Qed.

Lemma formEncode_chars s : allChars componentChar (Url.formEncode s) = true.
Proof.
  induction s as [|c s IH]; [reflexivity|].
  cbn [Url.formEncode]. rewrite allChars_app, IH, andb_true_r.
  destruct (Ascii.eqb c " "); [reflexivity|].
  destruct (Url.formUnreserved c) eqn:Hc.
  - cbn. rewrite (formUnreserved_component c Hc). reflexivity.
  - apply percentEncode_chars.
Qed.

Lemma component_query c : componentChar c = true -> queryChar c = true.
Proof.
  intros H. unfold queryChar. rewrite H. reflexivity.
Qed.

Lemma query_safe c : queryChar c = true -> urlSafe c = true.
Proof.
  destruct c as [[] [] [] [] [] [] [] []]; vm_compute; auto.
Qed.

Lemma component_safe c : componentChar c = true -> urlSafe c = true.
Proof.
  intros H. apply query_safe, component_query, H.
Qed.

Lemma join_cons sep x xs :
  Js.join sep (x :: xs)
  = match xs with
    | [] => x
    | _ :: _ => x ++ sep ++ Js.join sep xs
    end.
Proof.
  destruct xs; reflexivity.
Qed.

Lemma allChars_join p sep xs :
  allChars p sep = true ->
  Forall (fun x => allChars p x = true) xs ->
  allChars p (Js.join sep xs) = true.
Proof.
  intros Hsep Hxs. induction Hxs as [|x xs Hx Hrest IH]; [reflexivity|].
  rewrite join_cons. destruct xs as [|y ys]; [exact Hx|].
  rewrite !allChars_app, Hx, Hsep, IH. reflexivity.
Qed.

Lemma count_join a xs :
  Forall (fun x => Js.count_char a x = 0) xs ->
  Js.count_char a (Js.join (String a EmptyString) xs) = pred (length xs).
Proof.
  intros Hxs. induction Hxs as [|x xs Hx Hrest IH]; [reflexivity|].
  rewrite join_cons. destruct xs as [|y ys]; [cbn; exact Hx|].
  rewrite !count_char_app, Hx, IH. cbn. rewrite Ascii.eqb_refl. reflexivity.
Qed.

Lemma split_length sep s : length (Url.split sep s) = S (Js.count_char sep s).
Proof.
  induction s as [|c s IH]; [reflexivity|].
  cbn [Url.split Js.count_char]. destruct (Ascii.eqb c sep).
  - cbn. rewrite IH. reflexivity.
  - destruct (Url.split sep s) as [|seg segs]; [discriminate|exact IH].
Qed.

Lemma split_app sep a b :
  Url.split sep (a ++ String sep b) = (Url.split sep a ++ Url.split sep b)%list.
Proof.
  induction a as [|c a IH].
  - cbn. rewrite Ascii.eqb_refl. reflexivity.
  - cbn [append Url.split]. destruct (Ascii.eqb c sep).
    + rewrite IH. reflexivity.
    + rewrite IH. pose proof (split_length sep a) as Hl.
      destruct (Url.split sep a) as [|seg segs]; [discriminate|reflexivity].
Qed.

Lemma split_whole sep s : Js.count_char sep s = 0 -> Url.split sep s = [s].
Proof.
  induction s as [|c s IH]; [reflexivity|].
  cbn [Url.split Js.count_char]. destruct (Ascii.eqb c sep); [discriminate|].
  intros H. rewrite (IH H). reflexivity.
Qed.

Lemma join_app sep xs ys :
  xs <> [] -> ys <> [] ->
  Js.join sep (xs ++ ys) = Js.join sep xs ++ sep ++ Js.join sep ys.
Proof.
  intros Hxs Hys. induction xs as [|x xs IH]; [contradiction|].
  destruct xs as [|x' xs'].
  - cbn [app]. rewrite join_cons. destruct ys; [contradiction|reflexivity].
  - change ((x :: x' :: xs') ++ ys)%list with (x :: (x' :: xs') ++ ys)%list.
    rewrite join_cons. cbn [app]. rewrite (join_cons sep x (x' :: xs')).
    change (x' :: xs' ++ ys)%list with ((x' :: xs') ++ ys)%list.
    rewrite IH by discriminate.
    rewrite !string_app_assoc. reflexivity.
Qed.

Lemma encodePath_segments s :
  Forall (fun x => allChars componentChar x = true)
    (map Url.encodeURIComponent (Url.split "/" s)).
Proof.
  apply Forall_forall. intros x Hx. apply in_map_iff in Hx as (seg & <- & _).
  apply encodeURIComponent_chars.
Qed.

Lemma encodePath_chars s : allChars urlSafe (Url.encodePath s) = true.
Proof.
  unfold Url.encodePath. apply allChars_join; [reflexivity|].
  eapply Forall_impl; [|apply encodePath_segments].
  intros x Hx. cbv beta in *.
  exact (allChars_weaken componentChar urlSafe x component_safe Hx).
Qed.

Lemma encodePath_slashes s :
  Js.count_char "/" (Url.encodePath s) = Js.count_char "/" s.
Proof.
  unfold Url.encodePath. rewrite count_join.
  - rewrite length_map, split_length. reflexivity.
  - eapply Forall_impl; [|apply encodePath_segments].
    intros x Hx. cbv beta in *.
    exact (allChars_count componentChar "/" x eq_refl Hx).
Qed.

Lemma encodePath_no_query s : Js.count_char "?" (Url.encodePath s) = 0.
Proof.
  apply (allChars_count (fun c => componentChar c || Ascii.eqb c "/"));
    [reflexivity|].
  unfold Url.encodePath. apply allChars_join; [reflexivity|].
  eapply Forall_impl; [|apply encodePath_segments].
  intros x Hx. cbv beta in *.
  apply (allChars_weaken componentChar _ x); [|exact Hx].
  intros c Hc. rewrite Hc. reflexivity.
Qed.

Lemma pairText_chars kv : allChars queryChar (pairText kv) = true.
Proof.
  unfold pairText. rewrite !allChars_app.
  rewrite (allChars_weaken _ _ _ component_query (formEncode_chars (fst kv))).
  rewrite (allChars_weaken _ _ _ component_query (formEncode_chars (snd kv))).
  reflexivity.
Qed.

Lemma searchParamsToString_chars l :
  allChars queryChar (Url.searchParamsToString l) = true.
Proof.
  unfold Url.searchParamsToString. apply allChars_join; [reflexivity|].
  apply Forall_forall. intros x Hx. apply in_map_iff in Hx as (kv & <- & _).
  apply pairText_chars.
Qed.

Section UrlFacts.

Context {engine : Engine}.

(** The query string is empty or a question mark followed by escaped
    pairs. *)
Lemma queryStringOf_shape qp :
  Url.queryStringOf qp = EmptyString
  \/ exists q, Url.queryStringOf qp = String "?" q /\ allChars queryChar q = true.
Proof.
  destruct qp as [|kv qp]; [left; reflexivity|].
  unfold Url.queryStringOf. cbv zeta.
  set (filter := Url.getParam (kv :: qp) "$filter").
  set (rest := match filter with
               | Url.PUndefined => (kv :: qp)
               | _ => Url.deleteParam (kv :: qp) "$filter"
               end).
  pose proof (searchParamsToString_chars (Url.appended rest)) as HA.
  set (A := Url.searchParamsToString (Url.appended rest)) in *.
  pose proof (allChars_weaken _ _ _ component_query
                (encodeURIComponent_chars (Url.toString filter))) as HF.
  set (F := Url.encodeURIComponent (Url.toString filter)) in *.
  assert (HB : allChars queryChar
                 (if Url.truthyParam filter
                  then if Url.nonEmpty A then A ++ "&$filter=" ++ F
                       else "$filter=" ++ F
                  else A) = true).
  { destruct (Url.truthyParam filter); [|exact HA].
    destruct (Url.nonEmpty A).
    - rewrite !allChars_app, HA, HF. reflexivity.
    - rewrite allChars_app, HF. reflexivity. }
  set (B := if Url.truthyParam filter
            then if Url.nonEmpty A then A ++ "&$filter=" ++ F else "$filter=" ++ F
            else A) in *.
  destruct (Url.nonEmpty B) eqn:EB.
  - right. exists B. split; [reflexivity|exact HB].
  - left. unfold Url.nonEmpty in EB.
    destruct (String.eqb_spec B EmptyString); [assumption|discriminate].
Qed.

Lemma find_skip (k : string) (l1 : Url.Params) kv l2 :
  (forall x, In x l1 -> fst x <> k) ->
  fst kv = k ->
  find (fun x => String.eqb (fst x) k) (l1 ++ kv :: l2)%list = Some kv.
Proof.
  intros Hl1 Hk. induction l1 as [|x l1 IH].
  - cbn. rewrite Hk, String.eqb_refl. reflexivity.
  - cbn. destruct (String.eqb_spec (fst x) k) as [E|_].
    + exfalso. apply (Hl1 x); [left; reflexivity|exact E].
    + apply IH. intros y Hy. apply Hl1. right. exact Hy.
Qed.

Lemma deleteParam_skip (k : string) (l : Url.Params) :
  (forall x, In x l -> fst x <> k) -> Url.deleteParam l k = l.
Proof.
  intros Hl. unfold Url.deleteParam. induction l as [|x l IH]; [reflexivity|].
  cbn. destruct (String.eqb_spec (fst x) k) as [E|_].
  - exfalso. apply (Hl x); [left; reflexivity|exact E].
  - cbn. rewrite IH; [reflexivity|]. intros y Hy. apply Hl. right. exact Hy.
Qed.

Lemma deleteParam_app k (l1 l2 : Url.Params) :
  Url.deleteParam (l1 ++ l2)%list k = (Url.deleteParam l1 k ++ Url.deleteParam l2 k)%list.
Proof.
  unfold Url.deleteParam. apply filter_app.
Qed.

Lemma nonEmpty_app_l a b : Url.nonEmpty a = true -> Url.nonEmpty (a ++ b) = true.
Proof.
  destruct a; [discriminate|reflexivity].
Qed.

Lemma pairText_nonEmpty kv : Url.nonEmpty (pairText kv) = true.
Proof.
  unfold pairText. destruct (Url.formEncode (fst kv)); reflexivity.
Qed.

Lemma join_nonEmpty sep x xs :
  Url.nonEmpty x = true -> Url.nonEmpty (Js.join sep (x :: xs)) = true.
Proof.
  intros Hx. rewrite join_cons. destruct xs; [exact Hx|].
  apply nonEmpty_app_l, Hx.
Qed.

Lemma encodePath_app a b :
  Url.encodePath (a ++ String "/" b)
  = Url.encodePath a ++ String "/" (Url.encodePath b).
Proof.
  unfold Url.encodePath. rewrite split_app, map_app, join_app.
  - reflexivity.
  - pose proof (split_length "/" a). destruct (Url.split "/" a); discriminate.
  - pose proof (split_length "/" b). destruct (Url.split "/" b); discriminate.
Qed.

Lemma encodePath_segment s :
  Js.count_char "/" s = 0 -> Url.encodePath s = Url.encodeURIComponent s.
Proof.
  intros H. unfold Url.encodePath. rewrite (split_whole "/" s H). reflexivity.
Qed.

Lemma encodeURIComponent_length s :
  String.length s <= String.length (Url.encodeURIComponent s).
Proof.
  induction s as [|c s IH]; [reflexivity|].
  cbn [Url.encodeURIComponent]. rewrite string_app_length.
  destruct (Url.uriUnreserved c); cbn; lia.
Qed.

Lemma encodeURIComponent_plain s :
  allChars Url.uriUnreserved s = true -> Url.encodeURIComponent s = s.
Proof.
  induction s as [|c s IH]; [reflexivity|].
  cbn. intros H. apply andb_true_iff in H as [Hc Hs].
  rewrite Hc, (IH Hs). reflexivity.
Qed.

Lemma encodeURIComponent_fixed s :
  Url.encodeURIComponent s = s -> allChars Url.uriUnreserved s = true.
Proof.
  induction s as [|c s IH]; [reflexivity|].
  cbn [Url.encodeURIComponent allChars].
  destruct (Url.uriUnreserved c) eqn:Hc.
  - cbn. intros H. inversion H as [H1]. rewrite H1. apply IH. exact H1.
  - intros H. exfalso. apply (f_equal String.length) in H.
    rewrite string_app_length in H. cbn in H.
    pose proof (encodeURIComponent_length s). lia.
Qed.

Lemma encodeURIComponent_reflects s :
  allChars Url.uriUnreserved (Url.encodeURIComponent s) = true ->
  allChars Url.uriUnreserved s = true.
Proof.
  induction s as [|c s IH]; [reflexivity|].
  cbn [Url.encodeURIComponent allChars]. rewrite allChars_app.
  destruct (Url.uriUnreserved c) eqn:Hc.
  - cbn. rewrite Hc. exact IH.
  - cbn. discriminate.
Qed.

(** X14.  A URL that [callGraphAPI] builds from a path, whatever the path
    and the parameters hold, consists after its base of letters, digits,
    the marks [- _ . ! ~ * ' ( )] that the encodings keep and the
    separators [% / ? & = + $] only.  So no space, no double quote and no
    [#] of an argument reaches it; a single quote is among the marks kept,
    and reaches it as it is.  The URL has as many slashes as the path
    given, and at most one question mark. *)
Theorem X14_built_url_is_escaped apiPath qp :
  String.prefix "http://" apiPath = false ->
  String.prefix "https://" apiPath = false ->
  exists rest,
    Url.finalUrl apiPath qp = Url.GRAPH_API_ENDPOINT ++ rest
    /\ allChars urlSafe rest = true
    /\ Js.count_char " " rest = 0
    /\ Js.count_char (ascii_of_nat 34) rest = 0
    /\ Js.count_char "#" rest = 0
    /\ Js.count_char "/" rest = Js.count_char "/" apiPath
    /\ Js.count_char "?" rest <= 1.
Proof.
  intros H1 H2. unfold Url.finalUrl. rewrite H1, H2. cbn [orb].
  exists (Url.encodePath apiPath ++ Url.queryStringOf qp). split; [reflexivity|].
  assert (Hsafe : allChars urlSafe (Url.encodePath apiPath ++ Url.queryStringOf qp)
                  = true).
  { rewrite allChars_app, encodePath_chars.
    destruct (queryStringOf_shape qp) as [->|(q & -> & Hq)]; [reflexivity|].
    cbn [allChars andb]. rewrite (allChars_weaken _ _ _ query_safe Hq). reflexivity. }
  split; [exact Hsafe|].
  split; [exact (allChars_count urlSafe " " _ eq_refl Hsafe)|].
  split; [exact (allChars_count urlSafe (ascii_of_nat 34) _ eq_refl Hsafe)|].
  split; [exact (allChars_count urlSafe "#" _ eq_refl Hsafe)|].
  rewrite !count_char_app, encodePath_slashes, encodePath_no_query.
  destruct (queryStringOf_shape qp) as [->|(q & -> & Hq)].
  - cbn. split; lia.
  - cbn [Js.count_char].
    rewrite (allChars_count queryChar "/" q eq_refl Hq).
    rewrite (allChars_count queryChar "?" q eq_refl Hq).
    cbn. split; lia.
Qed.

(** X15.  Wherever the object of query parameters holds a [$filter] that
    is not empty, the query string is the other parameters that are not
    [undefined], in their order and written as [URLSearchParams] writes
    them, followed by the filter, its key as it is and its value escaped
    by [encodeURIComponent]. *)
Theorem X15_filter_is_sent_last (l1 l2 : Url.Params) f :
  f <> EmptyString ->
  (forall kv, In kv (l1 ++ l2)%list -> fst kv <> "$filter") ->
  Url.queryStringOf (l1 ++ ("$filter", Url.PString f) :: l2)%list
  = "?" ++ Js.join "&"
             (map pairText (Url.appended (l1 ++ l2)%list)
                ++ [("$filter=" ++ Url.encodeURIComponent f)%string])%list.
Proof.
  intros Hf Hkeys.
  assert (Hl1 : forall x, In x l1 -> fst x <> "$filter")
    by (intros x Hx; apply Hkeys, in_or_app; left; exact Hx).
  assert (Hl2 : forall x, In x l2 -> fst x <> "$filter")
    by (intros x Hx; apply Hkeys, in_or_app; right; exact Hx).
  unfold Url.queryStringOf.
  assert (Hget : Url.getParam (l1 ++ ("$filter", Url.PString f) :: l2)%list "$filter"
                 = Url.PString f).
  { unfold Url.getParam. rewrite (find_skip "$filter" l1 ("$filter", Url.PString f) l2 Hl1 eq_refl).
    reflexivity. }
  assert (Hdel : Url.deleteParam (l1 ++ ("$filter", Url.PString f) :: l2)%list "$filter"
                 = (l1 ++ l2)%list).
  { rewrite deleteParam_app. unfold Url.deleteParam at 2. cbn [filter fst].
    rewrite String.eqb_refl. cbn [negb].
    fold (Url.deleteParam l2 "$filter").
    rewrite (deleteParam_skip _ l1 Hl1), (deleteParam_skip _ l2 Hl2). reflexivity. }
  destruct (l1 ++ ("$filter", Url.PString f) :: l2)%list as [|kv0 qp0] eqn:E.
  { destruct l1; discriminate. }
  cbv zeta. rewrite Hget, Hdel. cbn [Url.truthyParam Url.toString].
  destruct (String.eqb_spec f EmptyString) as [|_]; [contradiction|]. cbn [negb].
  unfold Url.searchParamsToString.
  change (map (fun kv => Url.formEncode (fst kv) ++ "=" ++ Url.formEncode (snd kv))
            (Url.appended (l1 ++ l2)%list))
    with (map pairText (Url.appended (l1 ++ l2)%list)).
  destruct (map pairText (Url.appended (l1 ++ l2)%list)) as [|x xs] eqn:Em.
  - reflexivity.
  - assert (Hx : Url.nonEmpty x = true).
    { destruct (Url.appended (l1 ++ l2)%list) as [|p ps]; [discriminate|].
      cbn in Em. inversion Em. apply pairText_nonEmpty. }
    rewrite (join_nonEmpty "&" x xs Hx).
    rewrite (nonEmpty_app_l _ _ (join_nonEmpty "&" x xs Hx)).
    rewrite join_app by discriminate. reflexivity.
Qed.

Lemma finalUrl_relative apiPath qp :
  String.prefix "http://" apiPath = false ->
  String.prefix "https://" apiPath = false ->
  Url.finalUrl apiPath qp
  = Url.GRAPH_API_ENDPOINT ++ Url.encodePath apiPath ++ Url.queryStringOf qp.
Proof.
  intros H1 H2. unfold Url.finalUrl. rewrite H1, H2. reflexivity.
Qed.

Lemma encodePath_messages rest :
  Url.encodePath ("me/messages/" ++ rest) = "me/messages/" ++ Url.encodePath rest.
Proof.
  change ("me/messages/" ++ rest)
    with ("me" ++ String "/" ("messages" ++ String "/" rest)).
  rewrite !encodePath_app. reflexivity.
Qed.

(** X16.  The id of a message that [handleReadEmail] or
    [handleMarkAsRead] is given is escaped twice on its way into the URL:
    once by the handler and, being one segment of the path, once more by
    [callGraphAPI].  The URL holds the id escaped once only if the id
    consists of characters that [encodeURIComponent] keeps. *)
Theorem X16_message_ids_are_escaped_twice id qp :
  Url.finalUrl (messagePath id) qp
  = Url.GRAPH_API_ENDPOINT ++ "me/messages/"
      ++ Url.encodeURIComponent (Url.encodeURIComponent id)
      ++ Url.queryStringOf qp
  /\ (Url.encodeURIComponent (Url.encodeURIComponent id) = Url.encodeURIComponent id
      <-> allChars Url.uriUnreserved id = true).
Proof.
  split.
  - rewrite finalUrl_relative by reflexivity.
    unfold messagePath. rewrite encodePath_messages.
    rewrite (encodePath_segment (Url.encodeURIComponent id)).
    + rewrite !string_app_assoc. reflexivity.
    + exact (allChars_count componentChar "/" _ eq_refl
               (encodeURIComponent_chars id)).
  - split.
    + intros H. apply encodeURIComponent_reflects, encodeURIComponent_fixed, H.
    + intros H. rewrite (encodeURIComponent_plain id H).
      apply encodeURIComponent_plain, H.
Qed.

(** X17.  The id of a message that [handleMoveEmails] is given reaches
    the URL escaped once, its slashes kept as separators of the path: an
    id without a slash is one escaped segment, an id with slashes adds
    segments to the path. *)
Theorem X17_moved_ids_are_escaped_once emailId qp :
  Url.finalUrl (movePath emailId) qp
  = Url.GRAPH_API_ENDPOINT ++ "me/messages/" ++ Url.encodePath emailId ++ "/move"
      ++ Url.queryStringOf qp
  /\ (Js.count_char "/" emailId = 0 ->
      Url.encodePath emailId = Url.encodeURIComponent emailId)
  /\ Js.count_char "/" (Url.encodePath emailId) = Js.count_char "/" emailId.
Proof.
  split; [|split; [apply encodePath_segment|apply encodePath_slashes]].
  rewrite finalUrl_relative by reflexivity.
  unfold movePath. rewrite encodePath_messages.
  change (emailId ++ "/move") with (emailId ++ String "/" "move").
  rewrite encodePath_app.
  change (Url.encodePath "move") with "move".
  rewrite !string_app_assoc. reflexivity.
Qed.

End UrlFacts.

(** A folder id with a space, a hash and a question mark, and the
    parameters of the sender strategy, whose filter holds two single
    quotes: they reach the URL as they are. *)
Lemma X14_witness :
  Url.finalUrl "me/mailFolders/a b#c?d/messages" senderParams
  = "https://graph.microsoft.com/v1.0/me/mailFolders/a%20b%23c%3Fd/messages?%24top=10&%24select=id%2Csubject%2Cfrom%2CtoRecipients%2CccRecipients%2CreceivedDateTime%2CbodyPreview%2ChasAttachments%2Cimportance%2CisRead&%24count=true&$filter=sender%2FemailAddress%2Faddress%20eq%20'a%40b.com'"
  /\ exists rest,
       Url.finalUrl "me/mailFolders/a b#c?d/messages" senderParams
       = Url.GRAPH_API_ENDPOINT ++ rest
       /\ allChars urlSafe rest = true
       /\ Js.count_char " " rest = 0
       /\ Js.count_char (ascii_of_nat 34) rest = 0
       /\ Js.count_char "#" rest = 0
       /\ Js.count_char "/" rest = Js.count_char "/" "me/mailFolders/a b#c?d/messages"
       /\ Js.count_char "?" rest <= 1.
Proof.
  split; [vm_compute; reflexivity|].
  apply (X14_built_url_is_escaped "me/mailFolders/a b#c?d/messages" senderParams);
    reflexivity.
Defined.

(** The object literal of the sender strategy lists [$filter] before
    [$count]; the filter is sent after it. *)
Lemma X15_witness :
  Url.queryStringOf senderParams
  = "?" ++ Js.join "&"
             (map pairText
                (Url.appended [("$top", Url.PNumber (Js.integer 10));
                               ("$select", Url.PString EMAIL_SELECT_FIELDS);
                               ("$count", Url.PString "true")])
                ++ [("$filter="
                      ++ Url.encodeURIComponent
                           "sender/emailAddress/address eq 'a@b.com'")%string])%list.
Proof.
  apply (X15_filter_is_sent_last
           [("$top", Url.PNumber (Js.integer 10)); ("$select", Url.PString EMAIL_SELECT_FIELDS)]
           [("$count", Url.PString "true")]
           "sender/emailAddress/address eq 'a@b.com'").
  - discriminate.
  - intros kv [<-|[<-|[<-|[]]]]; discriminate.
Defined.

(** ** The reply of a search *)

Section SearchReplies.

Context {engine : Engine}.
Context {W : Type}.
Variable fetch : PagedRequest -> W -> Settled Mail.Email * W.
Variable toLocaleString : string -> string.


(** X19.  A search without any criterion (no term that is not empty, no
    boolean filter set) issues no call at all, and yet the reply says
    that the search may have failed. *)
Theorem X19_search_without_criteria_issues_no_call ep tok st ft mc (w : W) :
  Js.truthy (from st) = false ->
  Js.truthy (subject st) = false ->
  Js.truthy (to st) = false ->
  Js.truthy (query st) = false ->
  anyBoolean ft = false ->
  exists r,
    progressiveSearch fetch ep tok st ft mc (start w) = (inr r, start w)
    /\ logOf r = []
    /\ formatSearchResults toLocaleString r
       = "No emails found matching your search criteria. The search may have failed - try a simpler query or use list-emails to browse the folder.".
Proof.
  intros Hf Hs Ht Hq Hb. unfold anyBoolean in Hb.
  assert (Hplan : plan ep tok st ft mc = []).
  { unfold_plan. rewrite Hf, Hs, Ht, Hq, Hb. reflexivity. }
  rewrite progressiveSearch_plan, Hplan.
  eexists. split; [reflexivity|]. split; reflexivity.
Qed.

End SearchReplies.

Lemma X19_witness :
  exists r,
    progressiveSearch alwaysFailing inboxEndpoint "token" noTerms noFilters 10
      (start tt)
    = (inr r, start tt)
    /\ logOf r = []
    /\ formatSearchResults (fun s => s) r
       = "No emails found matching your search criteria. The search may have failed - try a simpler query or use list-emails to browse the folder.".
Proof.
  apply (X19_search_without_criteria_issues_no_call alwaysFailing (fun s => s)
           inboxEndpoint "token" noTerms noFilters 10 tt);
    reflexivity.
Defined.

(** ** Moving messages *)

Lemma tally_counts outcomes results :
  length (Move.successful (Move.tally outcomes results))
  + length (Move.failed (Move.tally outcomes results))
  = length outcomes + length (Move.successful results) + length (Move.failed results).
Proof.
  revert results. induction outcomes as [|[emailId [e|u]] rest IH]; intros results.
  - reflexivity.
  - cbn [Move.tally]. rewrite IH. cbn. rewrite length_app. cbn. lia.
  - cbn [Move.tally]. rewrite IH. cbn. rewrite length_app. cbn. lia.
Qed.

Section MoveFacts.

Context {engine : Engine}.
Context {W : Type}.
Variable graphAPI : Request -> W -> Settled MailFolder * W.
Variable graphPost : Move.Post -> W -> (JsError + unit) * W.
Variable trim : string -> string.

Lemma moveLoop tok fid ids :
  forall results (d : @Move.Desk W),
  exists outcomes w',
    for_of ids (Move.moveOne graphPost tok fid) (results, d)
    = (Normal tt,
       (Move.tally (combine ids outcomes) results,
        Move.mkDesk (Move.store d) (mkNet w' (calls (Move.net d)))
          (Move.posted d ++ combine (map (Move.postFor tok fid) ids) outcomes)%list))
    /\ length outcomes = length ids.
Proof.
  induction ids as [|emailId rest IH]; intros results d.
  - exists [], (world (Move.net d)). cbn. rewrite app_nil_r.
    destruct d as [s [w cs] ps]. split; reflexivity.
  - cbn [for_of]. unfold bind at 1.
    unfold Move.moveOne at 1, try_catch_with. unfold bind at 1.
    unfold await at 1, Move.postMove. cbn [fst snd].
    destruct (graphPost (Move.mkPost tok (movePath emailId) fid)
                (world (Move.net d))) as [[e|u] w1] eqn:Ep.
    + unfold modifyLocals. cbn [fst snd].
      match goal with
      | |- context [for_of rest _ (?r, ?d1)] =>
          destruct (IH r d1) as (outcomes & w' & -> & Hlen)
      end.
      exists (inl e :: outcomes), w'. cbn [Move.store Move.net Move.posted calls].
      split; [|cbn; rewrite Hlen; reflexivity].
      cbn [combine map Move.tally]. rewrite <- app_assoc. reflexivity.
    + unfold modifyLocals. cbn [fst snd].
      match goal with
      | |- context [for_of rest _ (?r, ?d1)] =>
          destruct (IH r d1) as (outcomes & w' & -> & Hlen)
      end.
      exists (inr u :: outcomes), w'. cbn [Move.store Move.net Move.posted calls].
      split; [|cbn; rewrite Hlen; reflexivity].
      cbn [combine map Move.tally]. rewrite <- app_assoc. reflexivity.
Qed.


Lemma eqb_false (s : string) : s <> EmptyString -> String.eqb s EmptyString = false.
Proof.
  intros H. destruct (String.eqb_spec s EmptyString); [contradiction|reflexivity].
Qed.

Lemma length_eqb_false {A} (l : list A) : l <> [] -> Nat.eqb (length l) 0 = false.
Proof.
  destruct l; [contradiction|reflexivity].
Qed.

Ltac enter_handler Hids Htarget :=
  unfold Move.handleMoveEmails, run, try_catch_with;
  unfold bind at 1; rewrite (eqb_false _ Hids); cbn [when ret];
  unfold bind at 1; rewrite (eqb_false _ Htarget); cbn [when ret];
  unfold bind at 1; unfold await at 1, Move.ensureAuthenticated; cbn [fst snd].

(** X20.  With a token and a target folder that resolves to an id,
    [handleMoveEmails] posts one move for each id listed (trimmed, the
    empty ones left out), in the order of the list, each to
    [me/messages/<id>/move] with the id of the target folder, whether
    earlier moves failed or not.  The reply is built from the ids moved
    and the ids not moved, which together are the ids listed; the folder
    listings are those of the lookup of the target. *)
Theorem X20_every_listed_message_is_posted now args (d : @Move.Desk W)
    tok s1 fid g1 :
  Move.emailIds args <> EmptyString ->
  Move.targetFolder args <> EmptyString ->
  Move.idsOf trim args <> [] ->
  Tokens.ensureAuthenticated now (Move.store d) = (inr tok, s1) ->
  getFolderIdByName graphAPI tok (Move.targetFolder args) (Move.net d)
  = (inr (Some fid), g1) ->
  fid <> EmptyString ->
  exists outcomes w',
    length outcomes = length (Move.idsOf trim args)
    /\ let results :=
         Move.tally (combine (Move.idsOf trim args) outcomes) (Move.mkResults [] []) in
       Move.handleMoveEmails graphAPI graphPost trim now args d
       = (inr (Move.resultMessage (Move.targetFolder args) results),
          Move.mkDesk s1 (mkNet w' (calls g1))
            (Move.posted d
               ++ combine (map (Move.postFor tok fid) (Move.idsOf trim args))
                    outcomes)%list)
       /\ length (Move.successful results) + length (Move.failed results)
          = length (Move.idsOf trim args).
Proof.
  intros Hids Htarget Hsome Hauth Hfolder Hfid.
  enter_handler Hids Htarget. rewrite Hauth.
  unfold bind at 1. rewrite (length_eqb_false _ Hsome). cbn [when ret].
  unfold bind at 1. unfold await at 1, Move.folderIdByName.
  cbn [fst snd Move.net Move.store Move.posted]. rewrite Hfolder.
  unfold bind at 1. cbn [Js.truthy]. rewrite (eqb_false _ Hfid). cbn [negb when ret the].
  unfold bind at 1.
  match goal with
  | |- context [for_of _ _ (?r, ?d1)] =>
      destruct (moveLoop tok fid (Move.idsOf trim args) r d1)
        as (outcomes & w' & -> & Hlen)
  end.
  exists outcomes, w'. split; [exact Hlen|]. cbv zeta. split.
  - reflexivity.
  - rewrite tally_counts. cbn. rewrite length_combine, Hlen, Nat.min_id. lia.
Qed.

(** X21.  When the target folder does not resolve to an id,
    [handleMoveEmails] posts no move: it replies that the folder was not
    found, after the listings of the lookup. *)
Theorem X21_no_move_without_a_target now args (d : @Move.Desk W) tok s1 r g1 :
  Move.emailIds args <> EmptyString ->
  Move.targetFolder args <> EmptyString ->
  Move.idsOf trim args <> [] ->
  Tokens.ensureAuthenticated now (Move.store d) = (inr tok, s1) ->
  getFolderIdByName graphAPI tok (Move.targetFolder args) (Move.net d) = (inr r, g1) ->
  Js.truthy r = false ->
  Move.handleMoveEmails graphAPI graphPost trim now args d
  = (inr ("Target folder " ++ Js.dquote ++ Move.targetFolder args ++ Js.dquote
            ++ " not found. Please specify a valid folder name."),
     Move.mkDesk s1 g1 (Move.posted d)).
Proof.
  intros Hids Htarget Hsome Hauth Hfolder Hr.
  enter_handler Hids Htarget. rewrite Hauth.
  unfold bind at 1. rewrite (length_eqb_false _ Hsome). cbn [when ret].
  unfold bind at 1. unfold await at 1, Move.folderIdByName.
  cbn [fst snd Move.net Move.store Move.posted]. rewrite Hfolder.
  unfold bind at 1. rewrite Hr. reflexivity.
Qed.

(** X22.  [handleMoveEmails] never throws: whatever the arguments, the
    token store and the remote do, it returns a text. *)
Theorem X22_handleMoveEmails_always_replies now args (d : @Move.Desk W) :
  exists text d',
    Move.handleMoveEmails graphAPI graphPost trim now args d = (inr text, d').
Proof.
  unfold Move.handleMoveEmails, run, try_catch_with. unfold bind at 1.
  destruct (String.eqb (Move.emailIds args) EmptyString);
    cbn [when ret]; [do 2 eexists; reflexivity|].
  unfold bind at 1.
  destruct (String.eqb (Move.targetFolder args) EmptyString);
    cbn [when ret]; [do 2 eexists; reflexivity|].
  unfold bind at 1. unfold await at 1, Move.ensureAuthenticated. cbn [fst snd].
  destruct (Tokens.ensureAuthenticated now (Move.store d)) as [[e|tok] s1].
  { destruct (String.eqb (message e) "Authentication required");
      do 2 eexists; reflexivity. }
  unfold bind at 1.
  destruct (Nat.eqb (length (Move.idsOf trim args)) 0);
    cbn [when ret]; [do 2 eexists; reflexivity|].
  unfold bind at 1. unfold await at 1, Move.folderIdByName.
  cbn [fst snd Move.net Move.store Move.posted].
  destruct (getFolderIdByName_exact graphAPI tok (Move.targetFolder args) (Move.net d))
    as (r & w1 & new & -> & _).
  unfold bind at 1.
  destruct (Js.truthy r); cbn [negb when ret]; [|do 2 eexists; reflexivity].
  unfold bind at 1.
  match goal with
  | |- context [for_of _ _ (?r0, ?d1)] =>
      destruct (moveLoop tok (the r) (Move.idsOf trim args) r0 d1)
        as (outcomes & w' & -> & Hlen)
  end.
  do 2 eexists. reflexivity.
Qed.

(** X23.  Without a valid token, [handleMoveEmails] issues no call at
    all, neither a listing nor a move, and replies that authentication is
    required. *)
Theorem X23_nothing_is_sent_without_a_token now args (d : @Move.Desk W) e s1 :
  Move.emailIds args <> EmptyString ->
  Move.targetFolder args <> EmptyString ->
  Tokens.ensureAuthenticated now (Move.store d) = (inl e, s1) ->
  Move.handleMoveEmails graphAPI graphPost trim now args d
  = (inr "Authentication required. Please use the 'authenticate' tool first.",
     Move.mkDesk s1 (Move.net d) (Move.posted d)).
Proof.
  intros Hids Htarget Hauth.
  assert (He : e = mkError "Authentication required").
  { unfold Tokens.ensureAuthenticated in Hauth.
    destruct (Tokens.getAccessToken now (Move.store d)) as [a s'].
    destruct (negb (Js.truthy a)); inversion Hauth; reflexivity. }
  enter_handler Hids Htarget. rewrite Hauth, He. reflexivity.
Qed.
End MoveFacts.

(** Three ids, the second of which the remote refuses to move, and the
    folder [Projects] of the sample mailbox. *)
Lemma X20_witness :
  let args := Move.mkArgs "m1,m2,,m3" "Projects" None in
  let ids := Move.idsOf (fun s => s) args in
  exists outcomes w',
    length outcomes = length ids
    /\ let results := Move.tally (combine ids outcomes) (Move.mkResults [] []) in
       Move.handleMoveEmails sampleMailbox samplePost (fun s => s) 2000 args sampleDesk
       = (inr (Move.resultMessage "Projects" results),
          Move.mkDesk (Move.store sampleDesk)
            (mkNet w' (calls (snd (getFolderIdByName sampleMailbox "token" "Projects"
                                     (start tt)))))
            (Move.posted sampleDesk
               ++ combine (map (Move.postFor "token" "id-projects") ids) outcomes)%list)
       /\ length (Move.successful results) + length (Move.failed results)
          = length ids.
Proof.
  apply (X20_every_listed_message_is_posted sampleMailbox samplePost (fun s => s)
           2000 (Move.mkArgs "m1,m2,,m3" "Projects" None) sampleDesk "token"
           (Move.store sampleDesk) "id-projects"
           (snd (getFolderIdByName sampleMailbox "token" "Projects" (start tt))));
    (discriminate || reflexivity).
Defined.

Lemma X21_witness :
  Move.handleMoveEmails sampleMailbox samplePost (fun s => s) 2000
    (Move.mkArgs "m1,m2,,m3" "Nowhere" None) sampleDesk
  = (inr ("Target folder " ++ Js.dquote ++ "Nowhere" ++ Js.dquote
            ++ " not found. Please specify a valid folder name."),
     Move.mkDesk (Move.store sampleDesk)
       (snd (getFolderIdByName sampleMailbox "token" "Nowhere" (start tt)))
       []).
Proof.
  apply (X21_no_move_without_a_target sampleMailbox samplePost (fun s => s)
           2000 (Move.mkArgs "m1,m2,,m3" "Nowhere" None) sampleDesk "token"
           (Move.store sampleDesk) None
           (snd (getFolderIdByName sampleMailbox "token" "Nowhere" (start tt))));
    (discriminate || reflexivity).
Defined.

Lemma X23_witness :
  Move.handleMoveEmails sampleMailbox samplePost (fun s => s) 2000
    (Move.mkArgs "m1,m2,,m3" "Projects" None) emptyDesk
  = (inr "Authentication required. Please use the 'authenticate' tool first.",
     emptyDesk).
Proof.
  apply (X23_nothing_is_sent_without_a_token sampleMailbox samplePost (fun s => s)
           2000 (Move.mkArgs "m1,m2,,m3" "Projects" None) emptyDesk
           (mkError "Authentication required") (Move.store emptyDesk));
    (discriminate || reflexivity).
Defined.

(** ** The folders of the listing tool *)

Section HierarchyFacts.

Context {engine : Engine}.
Context {W : Type}.
Variable graphAPI : Request -> W -> Settled MailFolder * W.

Lemma childEntriesOf_call sel tok parent (g : @Net W) :
  childEntriesOf graphAPI sel tok parent g
  = (inr (childEntries parent
            (EvCall (childEntriesRequest sel tok parent)
               (fst (graphAPI (childEntriesRequest sel tok parent) (world g))))),
     mkNet (snd (graphAPI (childEntriesRequest sel tok parent) (world g)))
       (calls g ++ [EvCall (childEntriesRequest sel tok parent)
                      (fst (graphAPI (childEntriesRequest sel tok parent) (world g)))])).
Proof.
  unfold childEntriesOf, childEntriesRequest, childEntries.
  cbv [run try_catch bind await callGraphAPI return_ ret fst snd].
  destruct (graphAPI _ (world g)) as [[e|resp] w']; [reflexivity|].
  cbn [callItemsOf]. unfold items. destruct (value resp); reflexivity.
Qed.

(** The child listings of a list of parents, for the listing tool: one
    call per parent, in order, none of which can throw. *)
Lemma map_all_child_entries sel tok parents (s : unit * @Net W) :
  exists evs w',
    map_all (R:=list FolderEntry)
      (fun parent => await (childEntriesOf graphAPI sel tok parent)) parents s
    = (Normal (map (fun pe => childEntries (fst pe) (snd pe)) (combine parents evs)),
       (fst s, mkNet w' (calls (snd s) ++ evs)))
    /\ map callRequestOf evs
       = map (fun f => Some (childEntriesRequest sel tok f)) parents
    /\ (sel = FOLDER_FIELDS ->
        map_all (R:=list MailFolder)
          (fun folder => await (childFoldersOf graphAPI tok folder)) parents s
        = (Normal (map callItemsOf evs), (fst s, mkNet w' (calls (snd s) ++ evs)))).
Proof.
  revert s. induction parents as [|f parents IH]; intros [u g].
  - exists [], (world g). cbn. rewrite app_nil_r. destruct g. auto.
  - cbn [map_all]. unfold bind at 1. unfold await at 1. cbn [fst snd].
    rewrite childEntriesOf_call.
    match goal with
    | |- context [mkNet ?w1 (calls g ++ [?ev])] =>
        destruct (IH (u, mkNet w1 (calls g ++ [ev])))
          as (evs & w' & Hrest & Hreq & Hsame);
        exists (ev :: evs), w'
    end.
    unfold bind at 1. rewrite Hrest. cbn [fst snd calls map callRequestOf combine].
    rewrite <- app_assoc. cbn [app]. rewrite Hreq.
    split; [reflexivity|]. split; [reflexivity|].
    intros ->. specialize (Hsame eq_refl).
    unfold bind at 1. unfold await at 1. cbn [fst snd].
    rewrite childFoldersOf_call.
    change (childFoldersRequest tok f) with (childEntriesRequest FOLDER_FIELDS tok f).
    unfold bind at 1. rewrite Hsame. cbn [fst snd calls].
    rewrite <- app_assoc. reflexivity.
Qed.

Lemma childEntries_folders parents evs :
  length evs = length parents ->
  map folder (concat (map (fun pe => childEntries (fst pe) (snd pe))
                        (combine parents evs)))
  = concat (map callItemsOf evs).
Proof.
  revert evs. induction parents as [|p parents IH]; intros [|ev evs] Hlen;
    try discriminate; [reflexivity|].
  cbn [combine map concat fst snd]. rewrite map_app, IH by (cbn in Hlen; lia).
  unfold childEntries at 1. rewrite map_map. cbn [folder]. rewrite map_id.
  reflexivity.
Qed.

Lemma childEntries_childOf parents evs :
  Forall (fun p => (0 < childFolderCount p)%Z) parents ->
  Forall (childOf parents)
    (concat (map (fun pe => childEntries (fst pe) (snd pe)) (combine parents evs))).
Proof.
  intros Hpos.
  apply Forall_forall. intros entry Hin.
  apply in_concat in Hin as (l & Hl & Hin).
  apply in_map_iff in Hl as ([p ev] & <- & Hpe).
  cbn [fst snd] in Hin. unfold childEntries in Hin.
  apply in_map_iff in Hin as (child & <- & _).
  split; [reflexivity|]. exists p.
  pose proof (in_combine_l _ _ _ _ Hpe) as Hp.
  rewrite Forall_forall in Hpos.
  split; [exact Hp|]. split; [apply Hpos, Hp|reflexivity].
Qed.


(** The calls and the result of [getAllFoldersHierarchy]. *)
Lemma getAllFoldersHierarchy_structure tok inc (g : @Net W) :
  let sel := selectFieldsFor inc in
  let res := fst (graphAPI (topEntriesRequest sel tok) (world g)) in
  exists out w' children,
    getAllFoldersHierarchy graphAPI tok inc g
    = (out, mkNet w' (calls g ++ EvCall (topEntriesRequest sel tok) res :: children))
    /\ match res with
       | inr response =>
           match value response with
           | Some folders =>
               let parents := filter (fun f => Z.ltb 0 (childFolderCount f)) folders in
               map callRequestOf children
               = map (fun f => Some (childEntriesRequest sel tok f)) parents
               /\ out = inr (map (fun f => mkFolderEntry f (Some true) None) folders
                             ++ concat (map (fun pe => childEntries (fst pe) (snd pe))
                                          (combine parents children)))%list
               /\ (sel = FOLDER_FIELDS ->
                   getAllFolders graphAPI tok g
                   = (inr (folders ++ concat (map callItemsOf children))%list,
                      mkNet w' (calls g ++ EvCall (topEntriesRequest sel tok) res
                                          :: children)))
           | None =>
               children = [] /\ out = inr []
               /\ (sel = FOLDER_FIELDS ->
                   getAllFolders graphAPI tok g
                   = (inr [], mkNet w' (calls g ++ [EvCall (topEntriesRequest sel tok) res])))
           end
       | inl _ =>
           children = [] /\ out = inl (mkError "Failed to retrieve folders")
           /\ (sel = FOLDER_FIELDS ->
               getAllFolders graphAPI tok g
               = (inr [], mkNet w' (calls g ++ [EvCall (topEntriesRequest sel tok) res])))
       end.
Proof.
  cbv zeta. unfold getAllFoldersHierarchy, getAllFolders, topEntriesRequest.
  generalize (selectFieldsFor inc). intros sel.
  unfold run, try_catch. cbv zeta. unfold bind at 1. unfold await at 1, callGraphAPI.
  cbn [fst snd].
  destruct (graphAPI (mkRequest tok "GET" "me/mailFolders"
                        (mkQueryParams (Some 100%Z) (Some sel) None None None None) [])
              (world g)) as [[e|resp] w1] eqn:Etop; cbn [fst snd].
  - exists (inl (mkError "Failed to retrieve folders")), w1, [].
    split; [reflexivity|]. split; [reflexivity|]. split; [reflexivity|].
    intros ->. unfold bind at 1. unfold await at 1. cbn [fst snd].
    rewrite Etop. reflexivity.
  - destruct (value resp) as [folders|] eqn:Hv.
    + unfold bind at 1.
      match goal with
      | |- context [map_all ?f ?ps ?s] =>
          destruct (map_all_child_entries sel tok ps s)
            as (evs & w' & Hrun & Hreq & Hsame)
      end.
      rewrite Hrun. cbn [fst snd calls].
      eexists _, w', evs. rewrite <- app_assoc. cbn [app].
      split; [reflexivity|]. split; [exact Hreq|]. split; [reflexivity|].
      intros ->. specialize (Hsame eq_refl).
      unfold bind at 1. unfold await at 1. cbn [fst snd].
      rewrite Etop, Hv. unfold bind at 1. rewrite Hsame. cbn [fst snd calls].
      rewrite <- app_assoc. reflexivity.
    + exists (inr []), w1, [].
      split; [reflexivity|]. split; [reflexivity|]. split; [reflexivity|].
      intros ->. unfold bind at 1. unfold await at 1. cbn [fst snd].
      rewrite Etop, Hv. reflexivity.
Qed.

(** X24.  With the item counts asked for, [getAllFoldersHierarchy]
    issues the calls that [getAllFolders] issues and leaves the remote in
    the same state.  When the listing of the top-level folders is
    fulfilled, its entries are the folders that [getAllFolders] returns,
    in the same order; when it is rejected, [getAllFolders] returns no
    folder, whereas [getAllFoldersHierarchy] throws an error that does not
    tell why. *)
Theorem X24_hierarchy_agrees_with_getAllFolders tok (g : @Net W) :
  exists l g',
    getAllFolders graphAPI tok g = (inr l, g')
    /\ match fst (graphAPI (topLevelRequest tok) (world g)) with
       | inr _ =>
           exists entries,
             getAllFoldersHierarchy graphAPI tok true g = (inr entries, g')
             /\ map folder entries = l
       | inl _ =>
           getAllFoldersHierarchy graphAPI tok true g
           = (inl (mkError "Failed to retrieve folders"), g')
           /\ l = []
       end.
Proof.
  destruct (getAllFoldersHierarchy_structure tok true g)
    as (out & w' & children & Hrun & Hcase).
  change (selectFieldsFor true) with FOLDER_FIELDS in *.
  change (topEntriesRequest FOLDER_FIELDS tok) with (topLevelRequest tok) in *.
  destruct (fst (graphAPI (topLevelRequest tok) (world g))) as [e|resp].
  - destruct Hcase as (-> & -> & Hsame). rewrite (Hsame eq_refl), Hrun.
    do 2 eexists. split; [reflexivity|]. split; reflexivity.
  - destruct (value resp) as [folders|].
    + destruct Hcase as (Hreq & -> & Hsame). rewrite (Hsame eq_refl), Hrun.
      do 2 eexists. split; [reflexivity|]. eexists. split; [reflexivity|].
      rewrite map_app, map_map. cbn [folder]. rewrite map_id.
      rewrite childEntries_folders; [reflexivity|].
      apply (f_equal (@length _)) in Hreq. rewrite !length_map in Hreq. exact Hreq.
    + destruct Hcase as (-> & -> & Hsame). rewrite (Hsame eq_refl), Hrun.
      do 2 eexists. split; [reflexivity|]. eexists. split; reflexivity.
Qed.

(** X25.  [getAllFoldersHierarchy] throws only when the listing of the
    top-level folders is rejected, and then issues no other call; a
    rejected listing of children is taken as empty.  The entries it
    returns are the top-level folders, each flagged as top-level, followed
    by entries that are not flagged and name as parent a top-level folder
    whose [childFolderCount] is positive. *)
Theorem X25_hierarchy_entries_are_annotated tok inc (g : @Net W) :
  exists out g',
    getAllFoldersHierarchy graphAPI tok inc g = (out, g')
    /\ match out with
       | inr entries =>
           exists tops children,
             entries = (map (fun f => mkFolderEntry f (Some true) None) tops
                        ++ children)%list
             /\ Forall (childOf tops) children
       | inl e =>
           e = mkError "Failed to retrieve folders"
           /\ exists e0,
                calls g'
                = (calls g
                   ++ [EvCall (topEntriesRequest (selectFieldsFor inc) tok) (inl e0)])%list
       end.
Proof.
  destruct (getAllFoldersHierarchy_structure tok inc g)
    as (out & w' & children & Hrun & Hcase).
  cbv zeta in Hcase.
  exists out. eexists. split; [exact Hrun|].
  destruct (fst (graphAPI (topEntriesRequest (selectFieldsFor inc) tok) (world g)))
    as [e|resp].
  - destruct Hcase as (-> & -> & _). split; [reflexivity|]. exists e. reflexivity.
  - destruct (value resp) as [folders|].
    + destruct Hcase as (_ & -> & _). do 2 eexists. split; [reflexivity|].
      eapply Forall_impl; [|apply childEntries_childOf].
      * intros entry (Htop & p & Hp & Hpos & Hname). split; [exact Htop|].
        exists p. apply filter_In in Hp as [Hp _]. auto.
      * apply Forall_forall. intros p Hp. apply filter_In in Hp as [_ Hpos].
        apply Z.ltb_lt. exact Hpos.
    + destruct Hcase as (_ & -> & _). exists [], []. split; [reflexivity|constructor].
Qed.
End HierarchyFacts.

(** ** Creating a folder *)

Section CreateFacts.

Context {engine : Engine}.
Context {W : Type}.
Variable graphAPI : Request -> W -> Settled MailFolder * W.
Variable graphPost : Create.Post -> W -> (JsError + option string) * W.

Ltac enter_create Hname Hauth Hexisting :=
  unfold Create.handleCreateFolder, run, try_catch_with;
  unfold bind at 1; rewrite (eqb_false _ Hname); cbn [when ret];
  unfold bind at 1; unfold await at 1, Create.ensureAuthenticated; cbn [fst snd];
  rewrite Hauth;
  unfold bind at 1; unfold await at 1, Create.folderIdByName;
  cbn [fst snd Create.net Create.store Create.posted];
  rewrite Hexisting;
  unfold bind at 1.

Ltac settle_post :=
  unfold bind at 1; unfold getLocals; cbn [fst snd];
  unfold bind at 1; unfold await at 1, Create.postFolder;
  cbn [fst snd Create.net Create.store Create.posted world calls].

(** X26.  When the name already resolves to a folder, [handleCreateFolder]
    posts nothing and does not look the parent up: it replies that the
    folder exists, after the listings of the one lookup. *)
Theorem X26_no_folder_is_created_twice now args (d : @Create.Desk W) tok s1 i g1 :
  Create.name args <> EmptyString ->
  Tokens.ensureAuthenticated now (Create.store d) = (inr tok, s1) ->
  getFolderIdByName graphAPI tok (Create.name args) (Create.net d)
  = (inr (Some i), g1) ->
  i <> EmptyString ->
  Create.handleCreateFolder graphAPI graphPost now args d
  = (inr ("A folder named " ++ Js.dquote ++ Create.name args ++ Js.dquote
            ++ " already exists."),
     Create.mkDesk s1 g1 (Create.posted d)).
Proof.
  intros Hname Hauth Hexisting Hi.
  enter_create Hname Hauth Hexisting.
  rewrite (truthy_nonempty i Hi). reflexivity.
Qed.

(** X27.  When the name resolves to no folder and the parent named
    resolves to an id, [handleCreateFolder] posts the folder once, to
    [me/mailFolders/<id>/childFolders] for the id of the parent, after the
    lookup of the name and then that of the parent; the reply tells what
    the call settled with. *)
Theorem X27_folder_is_posted_under_its_parent now args (d : @Create.Desk W)
    tok s1 r g1 p pid g2 :
  Create.name args <> EmptyString ->
  Tokens.ensureAuthenticated now (Create.store d) = (inr tok, s1) ->
  getFolderIdByName graphAPI tok (Create.name args) (Create.net d) = (inr r, g1) ->
  Js.truthy r = false ->
  Create.parentFolder args = Some p ->
  p <> EmptyString ->
  getFolderIdByName graphAPI tok p g1 = (inr (Some pid), g2) ->
  pid <> EmptyString ->
  let rq := Create.mkPost tok ("me/mailFolders/" ++ pid ++ "/childFolders")
              (Create.name args) in
  let out := graphPost rq (world g2) in
  Create.handleCreateFolder graphAPI graphPost now args d
  = (inr (Create.creationReply args (fst out)),
     Create.mkDesk s1 (mkNet (snd out) (calls g2))
       (Create.posted d ++ [(rq, fst out)])).
Proof.
  intros Hname Hauth Hexisting Hr Hparent Hp Hlookup Hpid. cbv zeta.
  enter_create Hname Hauth Hexisting.
  rewrite Hr. cbn [when ret]. unfold bind at 1.
  rewrite Hparent, (truthy_nonempty p Hp). cbn [when the].
  unfold bind at 1. unfold await at 1, Create.folderIdByName.
  cbn [fst snd Create.net Create.store Create.posted]. rewrite Hlookup.
  unfold bind at 1. rewrite (truthy_nonempty pid Hpid). cbn [negb when ret the].
  unfold modifyLocals. cbn [fst snd].
  settle_post.
  destruct (graphPost _ (world g2)) as [[e|resp] w'] eqn:Ep; cbn [fst snd].
  - unfold Create.creationReply.
    destruct (String.eqb (message e) "Authentication required"); reflexivity.
  - unfold Create.creationReply. rewrite Hparent, (truthy_nonempty p Hp).
    cbn [the]. destruct (Js.truthy resp); reflexivity.
Qed.

(** X28.  When the parent named resolves to no folder,
    [handleCreateFolder] posts nothing: it replies that the parent was not
    found. *)
Theorem X28_no_folder_without_its_parent now args (d : @Create.Desk W)
    tok s1 r g1 p r2 g2 :
  Create.name args <> EmptyString ->
  Tokens.ensureAuthenticated now (Create.store d) = (inr tok, s1) ->
  getFolderIdByName graphAPI tok (Create.name args) (Create.net d) = (inr r, g1) ->
  Js.truthy r = false ->
  Create.parentFolder args = Some p ->
  p <> EmptyString ->
  getFolderIdByName graphAPI tok p g1 = (inr r2, g2) ->
  Js.truthy r2 = false ->
  Create.handleCreateFolder graphAPI graphPost now args d
  = (inr ("Parent folder " ++ Js.dquote ++ p ++ Js.dquote
            ++ " not found. Please specify a valid parent folder or leave it blank to create at the root level."),
     Create.mkDesk s1 g2 (Create.posted d)).
Proof.
  intros Hname Hauth Hexisting Hr Hparent Hp Hlookup Hr2.
  enter_create Hname Hauth Hexisting.
  rewrite Hr. cbn [when ret]. unfold bind at 1.
  rewrite Hparent, (truthy_nonempty p Hp). cbn [when the].
  unfold bind at 1. unfold await at 1, Create.folderIdByName.
  cbn [fst snd Create.net Create.store Create.posted]. rewrite Hlookup.
  unfold bind at 1. rewrite Hr2. reflexivity.
Qed.

(** X29.  Without a parent (absent or empty), a name that resolves to no
    folder is posted once to [me/mailFolders], after the one lookup. *)
Theorem X29_folder_is_posted_at_the_root now args (d : @Create.Desk W) tok s1 r g1 :
  Create.name args <> EmptyString ->
  Tokens.ensureAuthenticated now (Create.store d) = (inr tok, s1) ->
  getFolderIdByName graphAPI tok (Create.name args) (Create.net d) = (inr r, g1) ->
  Js.truthy r = false ->
  Js.truthy (Create.parentFolder args) = false ->
  let rq := Create.mkPost tok "me/mailFolders" (Create.name args) in
  let out := graphPost rq (world g1) in
  Create.handleCreateFolder graphAPI graphPost now args d
  = (inr (Create.creationReply args (fst out)),
     Create.mkDesk s1 (mkNet (snd out) (calls g1))
       (Create.posted d ++ [(rq, fst out)])).
Proof.
  intros Hname Hauth Hexisting Hr Hparent. cbv zeta.
  enter_create Hname Hauth Hexisting.
  rewrite Hr. cbn [when ret]. unfold bind at 1.
  rewrite Hparent. cbn [when ret].
  settle_post.
  destruct (graphPost _ (world g1)) as [[e|resp] w'] eqn:Ep; cbn [fst snd].
  - unfold Create.creationReply.
    destruct (String.eqb (message e) "Authentication required"); reflexivity.
  - unfold Create.creationReply. rewrite Hparent.
    destruct (Js.truthy resp); reflexivity.
Qed.

End CreateFacts.

(** The sample mailbox has a folder [Inbox]. *)
Lemma X26_witness :
  Create.handleCreateFolder sampleMailbox sampleCreate 2000
    (Create.mkArgs "Inbox" None) sampleCreateDesk
  = (inr ("A folder named " ++ Js.dquote ++ "Inbox" ++ Js.dquote ++ " already exists."),
     Create.mkDesk (Create.store sampleCreateDesk)
       (snd (getFolderIdByName sampleMailbox "token" "Inbox" (start tt))) []).
Proof.
  apply (X26_no_folder_is_created_twice sampleMailbox sampleCreate 2000
           (Create.mkArgs "Inbox" None) sampleCreateDesk "token"
           (Create.store sampleCreateDesk) "id-inbox"
           (snd (getFolderIdByName sampleMailbox "token" "Inbox" (start tt))));
    (discriminate || reflexivity).
Defined.

(** The sample mailbox has no folder [Reports] and a folder [Projects]. *)
Lemma X27_witness :
  let args := Create.mkArgs "Reports" (Some "Projects") in
  let g1 := snd (getFolderIdByName sampleMailbox "token" "Reports" (start tt)) in
  let g2 := snd (getFolderIdByName sampleMailbox "token" "Projects" g1) in
  let rq := Create.mkPost "token" "me/mailFolders/id-projects/childFolders" "Reports" in
  let out := sampleCreate rq (world g2) in
  Create.handleCreateFolder sampleMailbox sampleCreate 2000 args sampleCreateDesk
  = (inr (Create.creationReply args (fst out)),
     Create.mkDesk (Create.store sampleCreateDesk) (mkNet (snd out) (calls g2))
       (Create.posted sampleCreateDesk ++ [(rq, fst out)])).
Proof.
  apply (X27_folder_is_posted_under_its_parent sampleMailbox sampleCreate 2000
           (Create.mkArgs "Reports" (Some "Projects")) sampleCreateDesk "token"
           (Create.store sampleCreateDesk) None
           (snd (getFolderIdByName sampleMailbox "token" "Reports" (start tt)))
           "Projects" "id-projects"
           (snd (getFolderIdByName sampleMailbox "token" "Projects"
                   (snd (getFolderIdByName sampleMailbox "token" "Reports"
                           (start tt))))));
    (discriminate || reflexivity).
Defined.

Lemma X28_witness :
  let g1 := snd (getFolderIdByName sampleMailbox "token" "Reports" (start tt)) in
  Create.handleCreateFolder sampleMailbox sampleCreate 2000
    (Create.mkArgs "Reports" (Some "Nowhere")) sampleCreateDesk
  = (inr ("Parent folder " ++ Js.dquote ++ "Nowhere" ++ Js.dquote
            ++ " not found. Please specify a valid parent folder or leave it blank to create at the root level."),
     Create.mkDesk (Create.store sampleCreateDesk)
       (snd (getFolderIdByName sampleMailbox "token" "Nowhere" g1)) []).
Proof.
  apply (X28_no_folder_without_its_parent sampleMailbox sampleCreate 2000
           (Create.mkArgs "Reports" (Some "Nowhere")) sampleCreateDesk "token"
           (Create.store sampleCreateDesk) None
           (snd (getFolderIdByName sampleMailbox "token" "Reports" (start tt)))
           "Nowhere" None
           (snd (getFolderIdByName sampleMailbox "token" "Nowhere"
                   (snd (getFolderIdByName sampleMailbox "token" "Reports"
                           (start tt))))));
    (discriminate || reflexivity).
Defined.

Lemma X29_witness :
  let args := Create.mkArgs "Reports" None in
  let g1 := snd (getFolderIdByName sampleMailbox "token" "Reports" (start tt)) in
  let rq := Create.mkPost "token" "me/mailFolders" "Reports" in
  let out := sampleCreate rq (world g1) in
  Create.handleCreateFolder sampleMailbox sampleCreate 2000 args sampleCreateDesk
  = (inr (Create.creationReply args (fst out)),
     Create.mkDesk (Create.store sampleCreateDesk) (mkNet (snd out) (calls g1))
       (Create.posted sampleCreateDesk ++ [(rq, fst out)])).
Proof.
  apply (X29_folder_is_posted_at_the_root sampleMailbox sampleCreate 2000
           (Create.mkArgs "Reports" None) sampleCreateDesk "token"
           (Create.store sampleCreateDesk) None
           (snd (getFolderIdByName sampleMailbox "token" "Reports" (start tt))));
    (discriminate || reflexivity).
Defined.

